(** * Cursor chat browser: workspace attribution and conversation assembly

    A shallow embedding of the attribution resolver
    ([determineProjectForConversation], [assignWorkspace],
    [getProjectFromFilePath], [normalizeFilePath], the catalog indices) and
    of the conversation assembly loop of the per-workspace tabs route,
    followed by the properties the specification states about them.

    Conventions of the embedding.
    - A JavaScript string is a [string]: the bytes of its UTF-8 form.  On
      ASCII text this is the text itself and every primitive of [JS] below
      is the code's.  On other text [toLowerCase], [trim] and the
      white-space class see the ASCII letters and spaces only, and [slice]
      and the prefix lengths count bytes; the statements that depend on
      the case of letters are made for ASCII text ([isAscii]).
      [JS.length] counts UTF-16 code units, as [.length] does.
    - A JavaScript number is a [Z] (milliseconds, token counts, cost units).
    - An absent, [undefined] or [null] field is [None].
    - A plain object used as a dictionary is a [gmap string _].  An object
      also answers to the property names of [Object.prototype]
      ([JS.prototypeKeys]): the maps stand for the objects on every other
      key, and the statements about what a lookup finds are made for those
      keys.
    - [process.platform === 'win32'] is the boolean [win32].
    - [Date.now()] reads a clock: the [k]-th reading of a run is [clock k],
      and the number of readings made so far is threaded as state. *)

From Stdlib Require Import ZArith Strings.String Strings.Ascii List Bool Lia.
From Stdlib Require Import Numbers.DecimalString Sorting.Sorted.
From stdpp Require Import gmap strings list fin_maps.

(** ** JavaScript string primitives *)

Module JS.

Definition truthy (s : string) : bool := negb (String.eqb s EmptyString).

(** [o] is a truthy string: present and not empty. *)
Definition truthyO (o : option string) : bool :=
  match o with Some s => truthy s | None => false end.

(** [a || b] on strings. *)
Definition or (a b : string) : string := if truthy a then a else b.

(** [o || d] where [o] may be undefined. *)
Definition orO (o : option string) (d : string) : string :=
  match o with Some s => or s d | None => d end.

(** [n || m] on optional numbers: the first truthy (non-zero) one. *)
Definition numOr (a b : option Z) : option Z :=
  match a with
  | Some n => if Z.eqb n 0 then b else Some n
  | None => b
  end.

Fixpoint drop (n : nat) (s : string) : string :=
  match n, s with
  | O, _ => s
  | S n', String _ s' => drop n' s'
  | S _, EmptyString => EmptyString
  end.

(** [s.startsWith(p)] *)
Definition startsWith (p s : string) : bool := String.prefix p s.

(** [s.endsWith(p)]: some suffix of [s] is [p]. *)
Fixpoint endsWith (p s : string) : bool :=
  String.eqb s p ||
  match s with
  | EmptyString => false
  | String _ s' => endsWith p s'
  end.

(** [s.includes(p)]: [p] starts at some position of [s]. *)
Fixpoint includes (p s : string) : bool :=
  String.prefix p s ||
  match s with
  | EmptyString => false
  | String _ s' => includes p s'
  end.

(** [s.replace(/^p/, '')] for a literal pattern [p]. *)
Definition stripPrefix (p s : string) : string :=
  if String.prefix p s then drop (String.length p) s else s.

(** [s.replace(p, '')] with a string pattern: the first occurrence only,
    wherever it is. *)
Fixpoint replaceFirst (p s : string) : string :=
  if String.prefix p s then drop (String.length p) s
  else match s with
       | EmptyString => EmptyString
       | String a s' => String a (replaceFirst p s')
       end.

(** [s.split(c)] for a one-character separator; never the empty array. *)
Fixpoint split (c : ascii) (s : string) : list string :=
  match s with
  | EmptyString => [EmptyString]
  | String a s' =>
      if Ascii.eqb a c then EmptyString :: split c s'
      else match split c s' with
           | h :: t => String a h :: t
           | [] => [String a EmptyString]
           end
  end.

(** [arr.pop()] read as a string; the arrays popped here are never empty. *)
Definition pop (l : list string) : string := List.last l EmptyString.

Definition mapChars (f : ascii -> ascii) : string -> string :=
  fix go (s : string) : string :=
    match s with
    | EmptyString => EmptyString
    | String a s' => String (f a) (go s')
    end.

Definition isUpper (a : ascii) : bool :=
  let n := N_of_ascii a in (65 <=? n)%N && (n <=? 90)%N.

Definition isLetter (a : ascii) : bool :=
  let n := N_of_ascii a in
  ((65 <=? n)%N && (n <=? 90)%N) || ((97 <=? n)%N && (n <=? 122)%N).

Definition lowerChar (a : ascii) : ascii :=
  if isUpper a then ascii_of_N (N_of_ascii a + 32) else a.

(** [s.toLowerCase()]; the letters A to Z are folded, other bytes are kept. *)
Definition toLowerCase : string -> string := mapChars lowerChar.

Definition isSpace (a : ascii) : bool :=
  let n := N_of_ascii a in
  ((9 <=? n)%N && (n <=? 13)%N) || (n =? 32)%N.

Fixpoint trimStart (s : string) : string :=
  match s with
  | EmptyString => EmptyString
  | String a s' => if isSpace a then trimStart s' else s
  end.

Fixpoint trimEnd (s : string) : string :=
  match s with
  | EmptyString => EmptyString
  | String a s' =>
      let r := trimEnd s' in
      if isSpace a && String.eqb r EmptyString then EmptyString else String a r
  end.

(** [s.trim()] over the ASCII white space. *)
Definition trim (s : string) : string := trimStart (trimEnd s).

(** [s.slice(0, n)] and [s.substring(0, n)]. *)
Definition take (n : nat) (s : string) : string := String.substring 0 n s.

(** A number printed in a template literal. *)
Definition numToString (z : Z) : string :=
  NilZero.string_of_int (Z.to_int z).

(** *** decodeURIComponent

    Every [%XY] is replaced by the byte it names.  A [%] that is not followed
    by two hexadecimal digits, or escaped bytes that are not the UTF-8
    encoding of a code point, raise [URIError]: the result is [None]. *)

Definition hexval (a : ascii) : option N :=
  let n := N_of_ascii a in
  if (48 <=? n)%N && (n <=? 57)%N then Some (n - 48)%N
  else if (65 <=? n)%N && (n <=? 70)%N then Some (n - 55)%N
  else if (97 <=? n)%N && (n <=? 102)%N then Some (n - 87)%N
  else None.

Inductive uriTok : Type :=
| Lit (a : ascii)
| Esc (b : N).

Fixpoint uriTokens (s : string) : option (list uriTok) :=
  match s with
  | EmptyString => Some []
  | String a rest =>
      if Ascii.eqb a "%" then
        match rest with
        | String h (String l rest') =>
            match hexval h, hexval l with
            | Some x, Some y =>
                option_map (cons (Esc (16 * x + y)%N)) (uriTokens rest')
            | _, _ => None
            end
        | _ => None
        end
      else option_map (cons (Lit a)) (uriTokens rest)
  end.

Definition inRange (lo hi b : N) : bool := (lo <=? b)%N && (b <=? hi)%N.

Definition isCont (b : N) : bool := inRange 128 191 b.

(** [s.length]: the number of UTF-16 code units of the string whose UTF-8
    bytes are [s].  A byte below 128 and the first byte of a sequence of two
    or three bytes stand for one code unit, the first byte of a sequence of
    four for two (a surrogate pair), and the continuation bytes they
    announce for none; [pending] counts the continuation bytes still
    announced.  A byte that is out of place counts for one unit. *)
Fixpoint lengthFrom (pending : nat) (s : string) : nat :=
  match s with
  | EmptyString => 0
  | String a s' =>
      let b := N_of_ascii a in
      let fresh :=
        if inRange 192 223 b then 1 + lengthFrom 1 s'
        else if inRange 224 239 b then 1 + lengthFrom 2 s'
        else if inRange 240 247 b then 2 + lengthFrom 3 s'
        else 1 + lengthFrom 0 s' in
      match pending with
      | S p => if isCont b then lengthFrom p s' else fresh
      | O => fresh
      end
  end.

Definition length (s : string) : nat := lengthFrom 0 s.

(** Second byte of a three-byte sequence: no overlong form, no surrogate. *)
Definition second3 (b c : N) : bool :=
  if (b =? 224)%N then inRange 160 191 c
  else if (b =? 237)%N then inRange 128 159 c
  else isCont c.

(** Second byte of a four-byte sequence: no overlong form, at most U+10FFFF. *)
Definition second4 (b c : N) : bool :=
  if (b =? 240)%N then inRange 144 191 c
  else if (b =? 244)%N then inRange 128 143 c
  else isCont c.

Definition byte (b : N) : ascii := ascii_of_N b.

Fixpoint uriDecode (ts : list uriTok) : option string :=
  match ts with
  | [] => Some EmptyString
  | Lit a :: r => option_map (String a) (uriDecode r)
  | Esc b :: r =>
      if (b <? 128)%N then option_map (String (byte b)) (uriDecode r)
      else if inRange 194 223 b then
        match r with
        | Esc c1 :: r1 =>
            if isCont c1
            then option_map (fun t => String (byte b) (String (byte c1) t))
                            (uriDecode r1)
            else None
        | _ => None
        end
      else if inRange 224 239 b then
        match r with
        | Esc c1 :: Esc c2 :: r2 =>
            if second3 b c1 && isCont c2
            then option_map
                   (fun t => String (byte b) (String (byte c1)
                               (String (byte c2) t)))
                   (uriDecode r2)
            else None
        | _ => None
        end
      else if inRange 240 244 b then
        match r with
        | Esc c1 :: Esc c2 :: Esc c3 :: r3 =>
            if second4 b c1 && isCont c2 && isCont c3
            then option_map
                   (fun t => String (byte b) (String (byte c1)
                               (String (byte c2) (String (byte c3) t))))
                   (uriDecode r3)
            else None
        | _ => None
        end
      else None
  end.

Definition decodeURIComponent (s : string) : option string :=
  match uriTokens s with
  | Some ts => uriDecode ts
  | None => None
  end.

(** The property names of [Object.prototype]: [obj[k]] is defined for them
    in every plain object, whatever was stored in it. *)
Definition prototypeKeys : list string :=
  ["constructor"; "__defineGetter__"; "__defineSetter__"; "hasOwnProperty";
   "__lookupGetter__"; "__lookupSetter__"; "isPrototypeOf";
   "propertyIsEnumerable"; "toString"; "valueOf"; "__proto__"; "toLocaleString"].

Definition inherited (k : string) : bool := existsb (String.eqb k) prototypeKeys.

End JS.

(** ** Path normalizer *)

Definition slashToBackslash (a : ascii) : ascii :=
  if Ascii.eqb a "/" then "\"%char else a.

(** [/^\\([a-z]:)/i]: a backslash, a letter, a colon. *)
Definition leadingBackslashDrive (s : string) : bool :=
  match s with
  | String b (String d (String c _)) =>
      Ascii.eqb b "\" && JS.isLetter d && Ascii.eqb c ":"
  | _ => false
  end.

(** [s.replace(/^\\([a-z]:)/i, '$1')] *)
Definition stripLeadingBackslash (s : string) : string :=
  if leadingBackslashDrive s then JS.drop 1 s else s.

Definition normalizeFilePath (win32 : bool) (filePath : string) : string :=
  let normalized := JS.stripPrefix "file://" (JS.stripPrefix "file:///" filePath) in
  let normalized :=
    match JS.decodeURIComponent normalized with
    | Some d => d
    | None => normalized
    end in
  let normalized :=
    if win32
    then stripLeadingBackslash (JS.mapChars slashToBackslash normalized)
    else normalized in
  if win32 then JS.toLowerCase normalized else normalized.

(** ** Workspace catalog *)

(** The parsed [workspace.json] of a workspace directory. *)
Record WorkspaceData : Type := {
  wd_folder : option string;
  wd_folders : list (option string)   (* the [path] of each [folders] item *)
}.

(** A workspace directory; [we_json] is [None] when reading or parsing its
    [workspace.json] throws, which every loop below catches and skips. *)
Record WorkspaceEntry : Type := {
  we_name : string;
  we_json : option WorkspaceData
}.

Definition getWorkspaceFolderPaths (workspaceData : WorkspaceData) : list string :=
  (if JS.truthyO (wd_folder workspaceData)
   then [JS.orO (wd_folder workspaceData) EmptyString] else [])
  ++ omap (fun f => if JS.truthyO f then f else None) (wd_folders workspaceData).

(** The folders an entry contributes to any loop over the catalog. *)
Definition entryFolders (entry : WorkspaceEntry) : list string :=
  match we_json entry with
  | Some workspaceData => getWorkspaceFolderPaths workspaceData
  | None => []
  end.

(** [p.split('/').pop() || p.split('\\').pop()] *)
Definition lastSegmentOr (p : string) : string :=
  JS.or (JS.pop (JS.split "/" p)) (JS.pop (JS.split "\" p)).

(** [p.split('/').pop()?.split('\\').pop()] *)
Definition lastSegmentChain (p : string) : string :=
  JS.pop (JS.split "\" (JS.pop (JS.split "/" p))).

(** Basename of a root folder as the routes' name index computes it. *)
Definition folderNameOf (folder : string) : string :=
  lastSegmentOr (JS.stripPrefix "file://" folder).

(** Basename of a root folder as the segment heuristic and the export
    script compute it. *)
Definition folderSegmentOf (folder : string) : string :=
  lastSegmentChain (JS.stripPrefix "file://" folder).

(** [if (key) index[key] = id] for each folder of one entry. *)
Definition indexFolders (key : string -> string) (id : string)
    (index : gmap string string) (folders : list string) : gmap string string :=
  fold_left (fun out folder =>
               let k := key folder in
               if JS.truthy k then <[k := id]> out else out)
            folders index.

Definition indexEntries (key : string -> string)
    (workspaceEntries : list WorkspaceEntry) : gmap string string :=
  fold_left (fun out entry => indexFolders key (we_name entry) out (entryFolders entry))
            workspaceEntries ∅.

Definition createProjectNameToWorkspaceIdMap
    (workspaceEntries : list WorkspaceEntry) : gmap string string :=
  indexEntries folderNameOf workspaceEntries.

(** [out[normalized] = entry.name], written for every folder. *)
Definition createWorkspacePathToIdMap (win32 : bool)
    (workspaceEntries : list WorkspaceEntry) : gmap string string :=
  fold_left (fun out entry =>
               fold_left (fun out folder =>
                            <[normalizeFilePath win32 folder := we_name entry]> out)
                         (entryFolders entry) out)
            workspaceEntries ∅.

(** One step of the inner loop of [getProjectFromFilePath]. *)
Definition prefixStep (win32 : bool) (normalizedPath id : string)
    (best : option string * nat) (folder : string) : option string * nat :=
  let workspacePath := normalizeFilePath win32 folder in
  if JS.startsWith workspacePath normalizedPath
     && (snd best <? String.length workspacePath)
  then (Some id, String.length workspacePath)
  else best.

Definition getProjectFromFilePath (win32 : bool) (filePath : string)
    (workspaceEntries : list WorkspaceEntry) : option string :=
  let normalizedPath := normalizeFilePath win32 filePath in
  fst (fold_left
         (fun best entry =>
            fold_left (prefixStep win32 normalizedPath (we_name entry))
                      (entryFolders entry) best)
         workspaceEntries (None, 0)).

Definition ws (id folder : string) : WorkspaceEntry :=
  {| we_name := id;
     we_json := Some {| wd_folder := Some folder; wd_folders := [] |} |}.

(** ** Conversation records *)

(** A node of a parsed rich-text tree. *)
#[warnings="-register-all"] Inductive RichNode : Type :=
| RNode (type : option string) (text : option string)
        (children : option (list RichNode)).

Record CodeBlock : Type := {
  cb_language : option string;
  cb_content : option string
}.

Record ToolFormerData : Type := {
  tfd_name : option string;
  tfd_params : option string;      (* present when it is a string *)
  tfd_rawArgs : option string;
  tfd_result : option string;      (* present when it is a string *)
  tfd_status : option string
}.

(** [bubble.thinking]: a string, or an object that may carry [text]. *)
Inductive Thinking : Type :=
| ThinkingString (s : string)
| ThinkingObject (text : option string).

Record TokenCount : Type := {
  tc_inputTokens : option Z;
  tc_outputTokens : option Z;
  tc_cachedTokens : option Z
}.

(** A stored message fragment (the parsed value of a [bubbleId:] row). *)
Record Bubble : Type := {
  b_text : option string;
  b_richText : option (list RichNode);  (* [root.children]; [None] when absent or unparsable *)
  b_codeBlocks : list CodeBlock;
  b_toolFormerData : option ToolFormerData;
  b_thinking : option Thinking;
  b_thinkingDurationMs : option Z;
  b_createdAt : option Z;
  b_timestamp : option Z;
  b_tokenCount : option TokenCount;
  b_modelName : option string;
  b_cost : option Z;
  b_usageCost : option Z;
  b_usageEstimatedCost : option Z;
  b_toolResults : option (list string);
  b_ctxPercentFloat : option Z;
  b_ctxPercent : option Z;
  b_relevantFiles : list (option string);
  b_attachedFileCodeChunksUris : list (option string);  (* [uri.path] *)
  b_fileSelections : list (option string)               (* [fs.uri.path] *)
}.

Record Header : Type := {
  h_bubbleId : string;
  h_type : Z
}.

(** The parsed value of a [composerData:] row. *)
Record ComposerData : Type := {
  cd_name : option string;
  cd_newlyCreatedFiles : list (option string);   (* [file.uri.path] *)
  cd_codeBlockData : list string;                (* its keys, in order *)
  cd_fullConversationHeadersOnly : list Header;
  cd_lastUpdatedAt : option Z;
  cd_createdAt : option Z;
  cd_usageCost : option Z;
  cd_usageEstimatedCost : option Z
}.

(** ** Attribution *)

(** A loop that returns at the first element giving a result. *)
Fixpoint firstResult {A B : Type} (f : A -> option B) (l : list A) : option B :=
  match l with
  | [] => None
  | x :: r => match f x with
              | Some y => Some y
              | None => firstResult f r
              end
  end.

(** [if (id) return id] *)
Definition whenTruthy (o : option string) : option string :=
  match o with
  | Some id => if JS.truthy id then Some id else None
  | None => None
  end.

(** File references of one fragment, in the order the loops read them. *)
Definition bubblePaths (bubble : Bubble) : list string :=
  omap (fun f => if JS.truthyO f then f else None) (b_relevantFiles bubble)
  ++ omap (fun f => if JS.truthyO f then f else None) (b_attachedFileCodeChunksUris bubble)
  ++ omap (fun f => if JS.truthyO f then f else None) (b_fileSelections bubble).

(** Every file reference of a conversation, before normalization: created
    files, code-block keys without their first [file://], then the
    references of each stored fragment in header order.  The resolver walks
    this sequence twice, once calling [getProjectFromFilePath] on each item
    and once pushing its normalized form. *)
Definition referencedPaths (composerData : ComposerData)
    (bubbleMap : gmap string Bubble) : list string :=
  omap (fun f => if JS.truthyO f then f else None) (cd_newlyCreatedFiles composerData)
  ++ map (JS.replaceFirst "file://") (cd_codeBlockData composerData)
  ++ flat_map (fun header =>
                 match bubbleMap !! h_bubbleId header with
                 | Some bubble => bubblePaths bubble
                 | None => []
                 end)
              (cd_fullConversationHeadersOnly composerData).

Definition sep (win32 : bool) : string := if win32 then "\" else "/".

Definition folderNameToWorkspaceId (workspaceEntries : list WorkspaceEntry)
    : list (string * string) :=
  flat_map (fun entry =>
              omap (fun folder =>
                      let name := folderSegmentOf folder in
                      if JS.truthy name then Some (name, we_name entry) else None)
                   (entryFolders entry))
           workspaceEntries.

(** [p.includes(sep + name + sep) || p.endsWith(sep + name)] *)
Definition segmentMatch (win32 : bool) (p name : string) : bool :=
  JS.includes (sep win32 +:+ name +:+ sep win32) p
  || JS.endsWith (sep win32 +:+ name) p.

Definition segmentStep (win32 : bool) (p : string)
    (best : option string * nat) (entry : string * string) : option string * nat :=
  if segmentMatch win32 p (fst entry)
  then if snd best <? JS.length (fst entry)
       then (Some (snd entry), JS.length (fst entry))
       else best
  else best.

(** The two nested loops of the segment fallback. *)
Definition segmentHeuristic (win32 : bool) (pathSegments : list string)
    (names : list (string * string)) : option string :=
  fst (fold_left (fun best p => fold_left (segmentStep win32 p) names best)
                 pathSegments (None, 0)).

(** The declared-root loop of the routes: exact full path, else basename,
    returning at the first declared path that gives an id. *)
Definition layoutWorkspace (win32 : bool)
    (projectNameToWorkspaceId workspacePathToId : gmap string string)
    (rootPath : string) : option string :=
  let normalized := normalizeFilePath win32 rootPath in
  let workspaceId := default EmptyString (workspacePathToId !! normalized) in
  let workspaceId :=
    if JS.truthy workspaceId then workspaceId
    else let folderName := lastSegmentOr rootPath in
         if JS.truthy folderName
         then default EmptyString (projectNameToWorkspaceId !! folderName)
         else EmptyString in
  if JS.truthy workspaceId then Some workspaceId else None.

Module TabsRoute.

(** [determineProjectForConversation] of the per-workspace tabs route. *)
Definition determineProjectForConversation (win32 : bool)
    (composerData : ComposerData) (composerId : string)
    (projectLayoutsMap : gmap string (list string))
    (projectNameToWorkspaceId workspacePathToId : gmap string string)
    (workspaceEntries : list WorkspaceEntry)
    (bubbleMap : gmap string Bubble) : option string :=
  let projectLayouts := default [] (projectLayoutsMap !! composerId) in
  match firstResult (layoutWorkspace win32 projectNameToWorkspaceId workspacePathToId)
                    projectLayouts with
  | Some workspaceId => Some workspaceId
  | None =>
    let refs := referencedPaths composerData bubbleMap in
    match firstResult
            (fun filePath => whenTruthy (getProjectFromFilePath win32 filePath workspaceEntries))
            refs with
    | Some projectId => Some projectId
    | None =>
      let pathSegments := map (normalizeFilePath win32) refs in
      whenTruthy (segmentHeuristic win32 pathSegments
                    (folderNameToWorkspaceId workspaceEntries))
    end
  end.

End TabsRoute.

Module WorkspacesRoute.

(** The map built from each workspace's own [composer.composerData] row:
    [composers] gives, per workspace directory, the [composerId] of each
    item of [allComposers] ([None] when its database cannot be read). *)
Definition composerIdToWorkspaceId
    (composers : list (string * option (list (option string)))) : gmap string string :=
  fold_left (fun out entry =>
               match snd entry with
               | Some allComposers =>
                   fold_left (fun out composerId =>
                                match composerId with
                                | Some cid => if JS.truthy cid then <[cid := fst entry]> out else out
                                | None => out
                                end)
                             allComposers out
               | None => out
               end)
            composers ∅.

(** [determineProjectForConversation] of the workspace list route: the
    optional definitive map is looked at first, and the rest is the body of
    the tabs route. *)
Definition determineProjectForConversation (win32 : bool)
    (composerData : ComposerData) (composerId : string)
    (projectLayoutsMap : gmap string (list string))
    (projectNameToWorkspaceId workspacePathToId : gmap string string)
    (workspaceEntries : list WorkspaceEntry)
    (bubbleMap : gmap string Bubble)
    (composerIdToWorkspaceId : option (gmap string string)) : option string :=
  match whenTruthy (composerIdToWorkspaceId ≫= (fun m => m !! composerId)) with
  | Some workspaceId => Some workspaceId
  | None =>
      TabsRoute.determineProjectForConversation win32 composerData composerId
        projectLayoutsMap projectNameToWorkspaceId workspacePathToId
        workspaceEntries bubbleMap
  end.

End WorkspacesRoute.

(** ** Conversation assembly (tabs route) *)

Definition nl : string := String (ascii_of_nat 10) EmptyString.

Definition fence : string := "```".

(** Text of one rich-text node and, through it, of a list of children. *)
Fixpoint richNodeText (n : RichNode) : string :=
  match n with
  | RNode type text children =>
      let inner :=
        match children with
        | Some cs =>
            (fix go (l : list RichNode) : string :=
               match l with
               | [] => EmptyString
               | c :: r => richNodeText c +:+ go r
               end) cs
        | None => EmptyString
        end in
      if bool_decide (type = Some "text") && JS.truthyO text
      then JS.orO text EmptyString
      else if bool_decide (type = Some "code") && bool_decide (is_Some children)
      then nl +:+ fence +:+ nl +:+ inner +:+ nl +:+ fence +:+ nl
      else inner
  end.

Definition extractTextFromRichText (children : list RichNode) : string :=
  fold_left (fun text child => text +:+ richNodeText child) children EmptyString.

Definition codeBlockText (codeBlock : CodeBlock) : string :=
  match cb_content codeBlock with
  | Some content =>
      if JS.truthy content
      then nl +:+ nl +:+ fence +:+ JS.orO (cb_language codeBlock) EmptyString +:+ nl
           +:+ content +:+ nl +:+ fence
      else EmptyString
  | None => EmptyString
  end.

Definition extractTextFromBubble (bubble : Bubble) : string :=
  let text :=
    match b_text bubble with
    | Some t => if JS.truthy t && JS.truthy (JS.trim t) then t else EmptyString
    | None => EmptyString
    end in
  let text :=
    if JS.truthy text then text
    else match b_richText bubble with
         | Some children => extractTextFromRichText children
         | None => text
         end in
  fold_left (fun text codeBlock => text +:+ codeBlockText codeBlock)
            (b_codeBlocks bubble) text.

Record AttachedFolder : Type := {
  af_path : option string;
  af_files : list (string * string)     (* name, type *)
}.

(** A parsed [messageRequestContext:] row of the conversation. *)
Record RequestContext : Type := {
  ctx_bubbleId : option string;
  ctx_gitStatusRaw : option string;
  ctx_terminalFiles : list string;                       (* [file.path] *)
  ctx_attachedFolders : list AttachedFolder;
  ctx_cursorRules : list (option string * option string);       (* name, description *)
  ctx_summarizedComposers : list (option string * option string) (* name, composerId *)
}.

Definition bullet (s : string) : string := nl +:+ "- " +:+ s.

Definition bullets (items : list string) : string :=
  fold_left (fun t s => t +:+ bullet s) items EmptyString.

Definition folderText (folder : AttachedFolder) : string :=
  match af_files folder with
  | [] => EmptyString
  | files =>
      nl +:+ nl +:+ "**Folder:** " +:+ JS.orO (af_path folder) "Unknown"
      +:+ bullets (map (fun f => fst f +:+ " (" +:+ snd f +:+ ")") files)
  end.

(** What one matching context adds to the text of a fragment. *)
Definition contextTextOf (context : RequestContext) : string :=
  (if JS.truthyO (ctx_gitStatusRaw context)
   then nl +:+ nl +:+ "**Git Status:**" +:+ nl +:+ fence +:+ nl
        +:+ JS.orO (ctx_gitStatusRaw context) EmptyString +:+ nl +:+ fence
   else EmptyString)
  +:+ (match ctx_terminalFiles context with
       | [] => EmptyString
       | files => nl +:+ nl +:+ "**Terminal Files:**" +:+ bullets files
       end)
  +:+ (match ctx_attachedFolders context with
       | [] => EmptyString
       | folders =>
           nl +:+ nl +:+ "**Attached Folders:**"
           +:+ fold_left (fun t f => t +:+ folderText f) folders EmptyString
       end)
  +:+ (match ctx_cursorRules context with
       | [] => EmptyString
       | rules =>
           nl +:+ nl +:+ "**Cursor Rules:**"
           +:+ bullets (map (fun r => JS.orO (fst r) (JS.orO (snd r) "Rule")) rules)
       end)
  +:+ (match ctx_summarizedComposers context with
       | [] => EmptyString
       | composers =>
           nl +:+ nl +:+ "**Related Conversations:**"
           +:+ bullets (map (fun c => JS.orO (fst c) (JS.orO (snd c) "Conversation"))
                            composers)
       end).

Definition contextText (messageContexts : list RequestContext) (bubbleId : string) : string :=
  fold_left (fun t context =>
               if bool_decide (ctx_bubbleId context = Some bubbleId)
               then t +:+ contextTextOf context else t)
            messageContexts EmptyString.

Record ToolCall : Type := {
  call_name : option string;
  call_params : option string;
  call_result : option string;
  call_status : option string
}.

Inductive BubbleType : Type := user | ai.

#[global] Instance BubbleType_eq_dec : EqDecision BubbleType.
Proof. solve_decision. Defined.

Record BubbleMeta : Type := {
  m_modelName : option string;
  m_inputTokens : option Z;
  m_outputTokens : option Z;
  m_cachedTokens : option Z;
  m_toolResultsCount : option Z;
  m_toolResults : option (list string);
  m_toolCalls : option (list ToolCall);
  m_thinking : option string;
  m_thinkingDurationMs : option Z;
  m_responseTimeMs : option Z;
  m_cost : option Z;
  m_contextWindowPercent : option Z
}.

Record ChatBubble : Type := {
  bub_type : BubbleType;
  bub_text : string;
  bub_timestamp : option Z;
  bub_metadata : option BubbleMeta
}.

(** [{}] *)
Definition emptyMeta : BubbleMeta :=
  {| m_modelName := None; m_inputTokens := None; m_outputTokens := None;
     m_cachedTokens := None; m_toolResultsCount := None; m_toolResults := None;
     m_toolCalls := None; m_thinking := None; m_thinkingDurationMs := None;
     m_responseTimeMs := None; m_cost := None; m_contextWindowPercent := None |}.

Definition toolCallsOf (raw : Bubble) : option (list ToolCall) :=
  match b_toolFormerData raw with
  | Some tfd =>
      Some [{| call_name := tfd_name tfd;
               call_params :=
                 match tfd_params tfd with
                 | Some p => Some p
                 | None => if JS.truthyO (tfd_rawArgs tfd) then tfd_rawArgs tfd else None
                 end;
               call_result := option_map (JS.take 500) (tfd_result tfd);
               call_status := tfd_status tfd |}]
  | None => None
  end.

(** [thinking] and [thinkingDurationMs] as read under [if (raw.thinking)]. *)
Definition thinkingOf (raw : Bubble) : option string * option Z :=
  match b_thinking raw with
  | Some (ThinkingString s) =>
      if JS.truthy s then (Some s, b_thinkingDurationMs raw) else (None, None)
  | Some (ThinkingObject text) => (text, b_thinkingDurationMs raw)
  | None => (None, None)
  end.

(** [fullText.trim() || toolCalls || thinking] *)
Definition hasContent (fullText : string) (toolCalls : option (list ToolCall))
    (thinking : option string) : bool :=
  JS.truthy (JS.trim fullText) || bool_decide (is_Some toolCalls) || JS.truthyO thinking.

Definition displayTextOf (fullText : string) (toolCalls : option (list ToolCall))
    (thinking : option string) : string :=
  let displayText := JS.trim fullText in
  let displayText :=
    if JS.truthy displayText then displayText
    else match toolCalls with
         | Some (tc :: _) =>
             "**Tool: " +:+ JS.orO (call_name tc) "unknown" +:+ "**"
             +:+ (if JS.truthyO (call_status tc)
                  then " (" +:+ JS.orO (call_status tc) EmptyString +:+ ")" else EmptyString)
         | _ => displayText
         end in
  if JS.truthy displayText then displayText
  else match thinking with
       | Some th =>
           if JS.truthy th
           then JS.take 200 th +:+ (if 200 <? String.length th then "..." else EmptyString)
           else displayText
       | None => displayText
       end.

Definition bubbleMetaOf (raw : Bubble) (toolCalls : option (list ToolCall))
    (thinking : option string) (thinkingDurationMs : option Z) : BubbleMeta :=
  {| m_modelName := b_modelName raw;
     m_inputTokens := b_tokenCount raw ≫= tc_inputTokens;
     m_outputTokens := b_tokenCount raw ≫= tc_outputTokens;
     m_cachedTokens := b_tokenCount raw ≫= tc_cachedTokens;
     m_toolResultsCount :=
       match toolCalls with
       | Some calls => Some (Z.of_nat (length calls))
       | None => option_map (fun l => Z.of_nat (length l)) (b_toolResults raw)
       end;
     m_toolResults :=
       match b_toolResults raw with
       | Some (r :: rs) => Some (r :: rs)
       | _ => None
       end;
     m_toolCalls := toolCalls;
     m_thinking := thinking;
     m_thinkingDurationMs := thinkingDurationMs;
     m_responseTimeMs := None;
     m_cost :=
       match b_cost raw with
       | Some c => Some c
       | None => match b_usageCost raw with
                 | Some c => Some c
                 | None => b_usageEstimatedCost raw
                 end
       end;
     m_contextWindowPercent :=
       match b_ctxPercentFloat raw with
       | Some p => Some p
       | None => b_ctxPercent raw
       end |}.

Definition truthyNum (n : Z) : bool := negb (Z.eqb n 0).

(** [modelName ?? inputTokens ?? ... ?? thinking ?? cost != null]: the
    truthiness of the first field that is present. *)
Definition hasMeta (m : BubbleMeta) : bool :=
  match m_modelName m with Some s => JS.truthy s | None =>
  match m_inputTokens m with Some n => truthyNum n | None =>
  match m_outputTokens m with Some n => truthyNum n | None =>
  match m_cachedTokens m with Some n => truthyNum n | None =>
  match m_toolResultsCount m with Some n => truthyNum n | None =>
  match m_toolCalls m with Some _ => true | None =>
  match m_thinking m with Some s => JS.truthy s | None =>
  bool_decide (is_Some (m_cost m))
  end end end end end end end.

(** The stored time of a fragment: [createdAt || timestamp]. *)
Definition storedTime (raw : Bubble) : option Z :=
  JS.numOr (b_createdAt raw) (b_timestamp raw).

Section Clock.

(** The readings of [Date.now()], in the order they are made. *)
Variable clock : nat -> Z.

Definition dateNow (k : nat) : Z * nat := (clock k, S k).

(** [x || Date.now()]: the clock is read when [x] is falsy, that is absent
    or zero. *)
Definition orNow (x : option Z) (k : nat) : Z * nat :=
  match x with
  | Some t => if Z.eqb t 0 then dateNow k else (t, k)
  | None => dateNow k
  end.

(** The body of the header loop for a header whose fragment is stored:
    the bubble pushed, if any, and the clock position afterwards. *)
Definition buildBubble (messageContexts : list RequestContext)
    (header : Header) (bubble : Bubble) (k : nat) : option ChatBubble * nat :=
  let messageType := if Z.eqb (h_type header) 1 then user else ai in
  let text := extractTextFromBubble bubble in
  let fullText := text +:+ contextText messageContexts (h_bubbleId header) in
  let toolCalls := toolCallsOf bubble in
  let '(thinking, thinkingDurationMs) := thinkingOf bubble in
  if hasContent fullText toolCalls thinking then
    let displayText := displayTextOf fullText toolCalls thinking in
    let bubbleMeta :=
      match messageType with
      | ai => Some (bubbleMetaOf bubble toolCalls thinking thinkingDurationMs)
      | user => None
      end in
    let '(timestamp, k') := orNow (storedTime bubble) k in
    (Some {| bub_type := messageType;
             bub_text := displayText;
             bub_timestamp := Some timestamp;
             bub_metadata :=
               match bubbleMeta with
               | Some m => if hasMeta m then Some m else None
               | None => None
               end |}, k')
  else (None, k).

Fixpoint buildBubbles (messageContexts : list RequestContext)
    (bubbleMap : gmap string Bubble) (headers : list Header) (k : nat)
    : list ChatBubble * nat :=
  match headers with
  | [] => ([], k)
  | header :: rest =>
      match bubbleMap !! h_bubbleId header with
      | Some bubble =>
          let '(pushed, k1) := buildBubble messageContexts header bubble k in
          let '(bubbles, k2) := buildBubbles messageContexts bubbleMap rest k1 in
          (match pushed with Some b => b :: bubbles | None => bubbles end, k2)
      | None => buildBubbles messageContexts bubbleMap rest k
      end
  end.

End Clock.

(** *** Code-edit diffs *)

Record ToolParams : Type := {
  tp_command : option string;
  tp_target_file : option string;
  tp_query : option string;
  tp_instructions : option string
}.

Record FoundFile : Type := {
  ff_name : option string;
  ff_path : option string;
  ff_type : option string
}.

Record ToolResult : Type := {
  tr_output : option string;
  tr_contents : option string;
  tr_exitCodeV2 : option Z;
  tr_files : list FoundFile;
  tr_results : list (option string * option string)     (* file, content *)
}.

(** The parsed value of a [codeBlockDiff:] row.  [d_parameters] and
    [d_result] are the parsed objects; they are [None] when the field is
    absent or its JSON does not parse (the error is caught and logged). *)
Record CodeBlockDiff : Type := {
  d_diffId : option string;
  d_newModelDiffWrtV0 : list (list string);    (* [modified] of each item *)
  d_filePath : option string;
  d_command : option string;
  d_searchResults : option string;
  d_webResults : option string;
  d_toolName : option string;
  d_parameters : option ToolParams;
  d_result : option ToolResult;
  d_actionsTaken : list string;
  d_filesModified : list string;
  d_gitStatus : option string;
  d_directoryListed : option string;
  d_webSearchResults : option (list (option string))   (* titles *)
}.

(** [if (field) result += before + field + after] *)
Definition part (before : string) (field : option string) (after : string) : string :=
  if JS.truthyO field then before +:+ JS.orO field EmptyString +:+ after else EmptyString.

Definition fenced (s : string) : string := nl +:+ fence +:+ nl +:+ s +:+ nl +:+ fence.

Definition partFenced (before : string) (field : option string) : string :=
  if JS.truthyO field then before +:+ fenced (JS.orO field EmptyString) else EmptyString.

Definition paramsText (params : ToolParams) : string :=
  part (nl +:+ "**Command:** `") (tp_command params) "`"
  +:+ part (nl +:+ "**File:** ") (tp_target_file params) EmptyString
  +:+ part (nl +:+ "**Query:** ") (tp_query params) EmptyString
  +:+ part (nl +:+ "**Instructions:** ") (tp_instructions params) EmptyString.

Definition foundFileText (file : FoundFile) : string :=
  nl +:+ "- "
  +:+ (if JS.truthyO (ff_name file) then JS.orO (ff_name file) EmptyString
       else default "undefined" (ff_path file))
  +:+ " (" +:+ JS.orO (ff_type file) "file" +:+ ")".

Definition searchResultText (r : option string * option string) : string :=
  if JS.truthyO (fst r) && JS.truthyO (snd r)
  then nl +:+ nl +:+ "**File:** " +:+ JS.orO (fst r) EmptyString
       +:+ fenced (JS.orO (snd r) EmptyString)
  else EmptyString.

Definition resultText (resultData : ToolResult) : string :=
  partFenced (nl +:+ nl +:+ "**Output:**") (tr_output resultData)
  +:+ partFenced (nl +:+ nl +:+ "**File Contents:**") (tr_contents resultData)
  +:+ (match tr_exitCodeV2 resultData with
       | Some code => nl +:+ nl +:+ "**Exit Code:** " +:+ JS.numToString code
       | None => EmptyString
       end)
  +:+ (match tr_files resultData with
       | [] => EmptyString
       | files =>
           nl +:+ nl +:+ "**Files Found:**"
           +:+ fold_left (fun t f => t +:+ foundFileText f) files EmptyString
       end)
  +:+ (match tr_results resultData with
       | [] => EmptyString
       | results =>
           nl +:+ nl +:+ "**Results:**"
           +:+ fold_left (fun t r => t +:+ searchResultText r) results EmptyString
       end).

Definition formatToolAction (action : CodeBlockDiff) : string :=
  fold_left (fun t modified =>
               match modified with
               | [] => t
               | lines => t +:+ nl +:+ nl +:+ "**Code Changes:**"
                            +:+ fenced (String.concat nl lines)
               end)
            (d_newModelDiffWrtV0 action) EmptyString
  +:+ part (nl +:+ nl +:+ "**File:** ") (d_filePath action) EmptyString
  +:+ part (nl +:+ nl +:+ "**Command:** `") (d_command action) "`"
  +:+ part (nl +:+ nl +:+ "**Search Results:**" +:+ nl) (d_searchResults action) EmptyString
  +:+ part (nl +:+ nl +:+ "**Web Search:**" +:+ nl) (d_webResults action) EmptyString
  +:+ (if JS.truthyO (d_toolName action)
       then nl +:+ nl +:+ "**Tool Action:** " +:+ JS.orO (d_toolName action) EmptyString
            +:+ match d_parameters action with
                | Some params => paramsText params
                | None => EmptyString
                end
            +:+ match d_result action with
                | Some resultData => resultText resultData
                | None => EmptyString
                end
       else EmptyString)
  +:+ (match d_actionsTaken action with
       | [] => EmptyString
       | actions => nl +:+ nl +:+ "**Actions Taken:** " +:+ String.concat ", " actions
       end)
  +:+ (match d_filesModified action with
       | [] => EmptyString
       | files => nl +:+ nl +:+ "**Files Modified:**" +:+ bullets files
       end)
  +:+ partFenced (nl +:+ nl +:+ "**Git Status:**") (d_gitStatus action)
  +:+ part (nl +:+ nl +:+ "**Directory Listed:** ") (d_directoryListed action) EmptyString
  +:+ (match d_webSearchResults action with
       | Some titles =>
           nl +:+ nl +:+ "**Web Search Results:**"
           +:+ bullets (omap (fun t => if JS.truthyO t then t else None) titles)
       | None => EmptyString
       end).

(** *** Ordering, response time and totals *)

(** The key of [bubbles.sort]: [timestamp || 0]. *)
Definition sortKey (b : ChatBubble) : Z := default 0%Z (bub_timestamp b).

(** Insertion keeping [x] before the elements that do not precede it. *)
Fixpoint insertByTime (x : ChatBubble) (l : list ChatBubble) : list ChatBubble :=
  match l with
  | [] => [x]
  | y :: r => if (sortKey x <=? sortKey y)%Z then x :: y :: r
              else y :: insertByTime x r
  end.

(** [bubbles.sort((a, b) => (a.timestamp || 0) - (b.timestamp || 0))]: the
    stable ascending order. *)
Definition sortByTime (bubbles : list ChatBubble) : list ChatBubble :=
  fold_right insertByTime [] bubbles.

Definition setResponseTime (b : ChatBubble) (responseTimeMs : Z) : ChatBubble :=
  let m := default emptyMeta (bub_metadata b) in
  {| bub_type := bub_type b;
     bub_text := bub_text b;
     bub_timestamp := bub_timestamp b;
     bub_metadata :=
       Some {| m_modelName := m_modelName m; m_inputTokens := m_inputTokens m;
               m_outputTokens := m_outputTokens m; m_cachedTokens := m_cachedTokens m;
               m_toolResultsCount := m_toolResultsCount m;
               m_toolResults := m_toolResults m; m_toolCalls := m_toolCalls m;
               m_thinking := m_thinking m;
               m_thinkingDurationMs := m_thinkingDurationMs m;
               m_responseTimeMs := Some responseTimeMs;
               m_cost := m_cost m;
               m_contextWindowPercent := m_contextWindowPercent m |} |}.

(** The response-time loop, with [lastUserTimestamp] as its state. *)
Fixpoint responseTimes (lastUserTimestamp : option Z) (bubbles : list ChatBubble)
    : list ChatBubble :=
  match bubbles with
  | [] => []
  | b :: rest =>
      match bub_type b with
      | user => b :: responseTimes (bub_timestamp b) rest
      | ai =>
          match lastUserTimestamp, bub_timestamp b with
          | Some lastUser, Some t =>
              if (lastUser <? t)%Z
              then setResponseTime b (t - lastUser) :: responseTimes lastUserTimestamp rest
              else b :: responseTimes lastUserTimestamp rest
          | _, _ => b :: responseTimes lastUserTimestamp rest
          end
      end
  end.

Record TabMeta : Type := {
  totalInputTokens : option Z;
  totalOutputTokens : option Z;
  totalCachedTokens : option Z;
  modelsUsed : option (list string);
  totalResponseTimeMs : option Z;
  totalCost : option Z;
  totalToolCalls : option Z;
  totalThinkingDurationMs : option Z
}.

(** The sum of a metadata field over the bubbles that carry it. *)
Definition total (field : BubbleMeta -> option Z) (bubbles : list ChatBubble) : Z :=
  fold_left (fun acc b => (acc + default 0 (bub_metadata b ≫= field))%Z) bubbles 0%Z.

(** [new Set()] filled by [add]: first occurrences, in order. *)
Definition modelsSet (bubbles : list ChatBubble) : list string :=
  fold_left (fun set b =>
               match bub_metadata b ≫= m_modelName with
               | Some name =>
                   if JS.truthy name && negb (bool_decide (name ∈ set))
                   then set ++ [name] else set
               | None => set
               end)
            bubbles [].

(** [n || undefined] *)
Definition nonZero (n : Z) : option Z := if Z.eqb n 0 then None else Some n.

Definition tabMetadataOf (composerData : ComposerData) (bubbles : list ChatBubble)
    : option TabMeta :=
  let totalInput := total m_inputTokens bubbles in
  let totalOutput := total m_outputTokens bubbles in
  let totalCached := total m_cachedTokens bubbles in
  let totalResponse := total m_responseTimeMs bubbles in
  let cost := total m_cost bubbles in
  let toolCalls :=
    total (fun m => option_map (fun l => Z.of_nat (length l)) (m_toolCalls m)) bubbles in
  let thinkingMs := total m_thinkingDurationMs bubbles in
  let models := modelsSet bubbles in
  let composerCost :=
    match cd_usageCost composerData with
    | Some c => Some c
    | None => cd_usageEstimatedCost composerData
    end in
  let cost :=
    match composerCost with
    | Some c => if Z.eqb cost 0 then c else cost
    | None => cost
    end in
  if (0 <? totalInput)%Z || (0 <? totalOutput)%Z || (0 <? totalCached)%Z
     || (0 <? totalResponse)%Z || (0 <? cost)%Z || (0 <? length models)
     || (0 <? toolCalls)%Z || (0 <? thinkingMs)%Z
  then Some {| totalInputTokens := nonZero totalInput;
               totalOutputTokens := nonZero totalOutput;
               totalCachedTokens := nonZero totalCached;
               modelsUsed := match models with [] => None | _ => Some models end;
               totalResponseTimeMs := nonZero totalResponse;
               totalCost := if (0 <? cost)%Z then Some cost else None;
               totalToolCalls := nonZero toolCalls;
               totalThinkingDurationMs := nonZero thinkingMs |}
  else None.

Record ChatTab : Type := {
  tab_id : string;
  tab_title : string;
  tab_timestamp : option Z;
  tab_bubbles : list ChatBubble;
  tab_codeBlockDiffs : list CodeBlockDiff;
  tab_metadata : option TabMeta
}.

(** The title: the stored name, else the first non-blank line of the first
    bubble cut at 100 characters, else a name made from the id. *)
Definition titleOf (composerData : ComposerData) (composerId : string)
    (bubbles : list ChatBubble) : string :=
  let title := JS.or (JS.orO (cd_name composerData) EmptyString)
                     ("Conversation " +:+ JS.take 8 composerId) in
  if JS.truthyO (cd_name composerData) then title
  else match bubbles with
       | first :: _ =>
           match filter (fun line => 0 < String.length (JS.trim line))
                        (JS.split (ascii_of_nat 10) (bub_text first)) with
           | line :: _ =>
               let t := JS.take 100 line in
               if Nat.eqb (String.length t) 100 then t +:+ "..." else t
           | [] => title
           end
       | [] => title
       end.

Section Tabs.

Variable clock : nat -> Z.

(** The diff bubbles pushed after the fragments, each stamped by the clock. *)
Fixpoint diffBubbles (codeBlockDiffs : list CodeBlockDiff) (k : nat)
    : list ChatBubble * nat :=
  match codeBlockDiffs with
  | [] => ([], k)
  | diff :: rest =>
      let diffText := formatToolAction diff in
      if JS.truthy (JS.trim diffText) then
        let '(now, k1) := dateNow clock k in
        let '(more, k2) := diffBubbles rest k1 in
        ({| bub_type := ai;
            bub_text := "**Tool Action:**" +:+ diffText;
            bub_timestamp := Some now;
            bub_metadata := None |} :: more, k2)
      else diffBubbles rest k
  end.

(** Assembly of one conversation that belongs to the requested workspace:
    the tab pushed on the response, if any. *)
Definition assemble (composerData : ComposerData) (composerId : string)
    (bubbleMap : gmap string Bubble)
    (messageContexts : list RequestContext)
    (codeBlockDiffs : list CodeBlockDiff) (k : nat) : option ChatTab * nat :=
  let '(bubbles, k1) :=
    buildBubbles clock messageContexts bubbleMap
                 (cd_fullConversationHeadersOnly composerData) k in
  match bubbles with
  | [] => (None, k1)
  | _ :: _ =>
      let title := titleOf composerData composerId bubbles in
      let '(diffs, k2) := diffBubbles codeBlockDiffs k1 in
      let sorted := sortByTime (bubbles ++ diffs) in
      let timed := responseTimes None sorted in
      (Some {| tab_id := composerId;
               tab_title := title;
               tab_timestamp := JS.numOr (cd_lastUpdatedAt composerData)
                                         (cd_createdAt composerData);
               tab_bubbles := timed;
               tab_codeBlockDiffs := codeBlockDiffs;
               tab_metadata := tabMetadataOf composerData timed |}, k2)
  end.

(** The rows and maps the tabs route reads from the global store. *)
Record Store : Type := {
  st_workspaceEntries : list WorkspaceEntry;
  st_bubbleMap : gmap string Bubble;
  st_codeBlockDiffMap : gmap string (list CodeBlockDiff);
  st_messageRequestContextMap : gmap string (list RequestContext);
  st_projectLayoutsMap : gmap string (list string);
  st_composerRows : list (string * option ComposerData)  (* [None]: unparsable *)
}.

(** One iteration of the loop over [composerRows]. *)
Definition tabOfRow (win32 : bool) (store : Store) (id : string)
    (row : string * option ComposerData) (k : nat) : option ChatTab * nat :=
  match snd row with
  | None => (None, k)
  | Some composerData =>
      let composerId := fst row in
      let projectId :=
        TabsRoute.determineProjectForConversation win32 composerData composerId
          (st_projectLayoutsMap store)
          (createProjectNameToWorkspaceIdMap (st_workspaceEntries store))
          (createWorkspacePathToIdMap win32 (st_workspaceEntries store))
          (st_workspaceEntries store) (st_bubbleMap store) in
      let assignedProjectId := default "global" projectId in
      if bool_decide (assignedProjectId = id) then
        assemble composerData composerId (st_bubbleMap store)
          (default [] (st_messageRequestContextMap store !! composerId))
          (default [] (st_codeBlockDiffMap store !! composerId)) k
      else (None, k)
  end.

Fixpoint tabsOfRows (win32 : bool) (store : Store) (id : string)
    (rows : list (string * option ComposerData)) (k : nat) : list ChatTab * nat :=
  match rows with
  | [] => ([], k)
  | row :: rest =>
      let '(tab, k1) := tabOfRow win32 store id row k in
      let '(tabs, k2) := tabsOfRows win32 store id rest k1 in
      (match tab with Some t => t :: tabs | None => tabs end, k2)
  end.

(** [response.tabs] of [GET /api/workspaces/[id]/tabs]. *)
Definition GET (win32 : bool) (store : Store) (id : string) : list ChatTab :=
  fst (tabsOfRows win32 store id (st_composerRows store) 0).

End Tabs.

(** ** The workspace list: conversation counts

    [GET /api/workspaces] groups the conversations of the global store by
    the workspace they are attributed to, and shows for each workspace how
    many there are.  It builds the catalog indices, the declared-root map
    and the fragment map as the tabs route does, and it also reads each
    workspace's own composer list. *)

Module WorkspaceList.

(** [headers.some(h => bubbleMap[h.bubbleId])] *)
Definition hasBubbles (composerData : ComposerData) (bubbleMap : gmap string Bubble)
    : bool :=
  existsb (fun h => bool_decide (is_Some (bubbleMap !! h_bubbleId h)))
          (cd_fullConversationHeadersOnly composerData).

(** [projectId ?? 'global'] for one parsed row. *)
Definition assignedProjectId (win32 : bool) (store : Store)
    (composerIdToWorkspaceId : gmap string string)
    (composerId : string) (composerData : ComposerData) : string :=
  default "global"
    (WorkspacesRoute.determineProjectForConversation win32 composerData composerId
       (st_projectLayoutsMap store)
       (createProjectNameToWorkspaceIdMap (st_workspaceEntries store))
       (createWorkspacePathToIdMap win32 (st_workspaceEntries store))
       (st_workspaceEntries store) (st_bubbleMap store)
       (Some composerIdToWorkspaceId)).

(** One iteration of the loop over [composerRows]: the conversation is
    pushed on [conversationMap[assignedProjectId]] when one of its fragments
    is stored. *)
Definition countRow (win32 : bool) (store : Store)
    (composerIdToWorkspaceId : gmap string string)
    (conversationMap : gmap string (list string))
    (row : string * option ComposerData) : gmap string (list string) :=
  match snd row with
  | None => conversationMap
  | Some composerData =>
      let composerId := fst row in
      let assigned :=
        assignedProjectId win32 store composerIdToWorkspaceId composerId composerData in
      if hasBubbles composerData (st_bubbleMap store)
      then <[assigned := default [] (conversationMap !! assigned) ++ [composerId]]>
             conversationMap
      else conversationMap
  end.

Definition conversationMap (win32 : bool) (store : Store)
    (composerIdToWorkspaceId : gmap string string)
    (composerRows : list (string * option ComposerData)) : gmap string (list string) :=
  fold_left (countRow win32 store composerIdToWorkspaceId) composerRows ∅.

(** [(conversationMap[id] || []).length] *)
Definition conversationCount (win32 : bool) (store : Store)
    (composerIdToWorkspaceId : gmap string string)
    (composerRows : list (string * option ComposerData)) (id : string) : nat :=
  length (default [] (conversationMap win32 store composerIdToWorkspaceId composerRows
                      !! id)).

End WorkspaceList.

(** ** Row keys of the global store

    The rows of [cursorDiskKV] are keyed [<kind>:<chatId>:<itemId>]. *)

(** What [[^c]*] consumes at the start of [s], and what it leaves. *)
Fixpoint spanNot (c : ascii) (s : string) : string * string :=
  match s with
  | EmptyString => (EmptyString, EmptyString)
  | String a s' =>
      if Ascii.eqb a c then (EmptyString, s)
      else let '(h, t) := spanNot c s' in (String a h, t)
  end.

(** [key.match(/^<kind>:([^:]+):/)] read at its group: the characters
    between the first and the second colon, when there are some and the
    second colon is there. *)
Definition matchChatId (kind key : string) : option string :=
  if String.prefix (kind +:+ ":") key then
    let '(chatId, rest) := spanNot ":" (JS.drop (String.length (kind +:+ ":")) key) in
    if JS.truthy chatId && String.prefix ":" rest then Some chatId else None
  else None.

Definition extractChatIdFromBubbleKey (key : string) : option string :=
  matchChatId "bubbleId" key.

Definition extractChatIdFromCodeBlockDiffKey (key : string) : option string :=
  matchChatId "codeBlockDiff" key.

(** [{ ...codeBlockDiff, diffId }] *)
Definition withDiffId (d : CodeBlockDiff) (diffId : option string) : CodeBlockDiff :=
  {| d_diffId := diffId;
     d_newModelDiffWrtV0 := d_newModelDiffWrtV0 d;
     d_filePath := d_filePath d;
     d_command := d_command d;
     d_searchResults := d_searchResults d;
     d_webResults := d_webResults d;
     d_toolName := d_toolName d;
     d_parameters := d_parameters d;
     d_result := d_result d;
     d_actionsTaken := d_actionsTaken d;
     d_filesModified := d_filesModified d;
     d_gitStatus := d_gitStatus d;
     d_directoryListed := d_directoryListed d;
     d_webSearchResults := d_webSearchResults d |}.

(** [if (!map[k]) map[k] = []; map[k].push(x)] *)
Definition pushAt {A : Type} (k : string) (x : A) (m : gmap string (list A))
    : gmap string (list A) :=
  <[k := default [] (m !! k) ++ [x]]> m.

(** The loop of the tabs route over the [codeBlockDiff:] rows; the value of
    a row is [None] when its JSON does not parse. *)
Definition codeBlockDiffMap (rows : list (string * option CodeBlockDiff))
    : gmap string (list CodeBlockDiff) :=
  fold_left (fun m row =>
               match whenTruthy (extractChatIdFromCodeBlockDiffKey (fst row)) with
               | Some chatId =>
                   match snd row with
                   | Some codeBlockDiff =>
                       pushAt chatId
                         (withDiffId codeBlockDiff (JS.split ":" (fst row) !! 2)) m
                   | None => m
                   end
               | None => m
               end)
            rows ∅.

(** ** File names *)

(** The class of characters both file-name functions replace: the angle
    brackets, the colon, the double quote, the two slashes, the bar, the
    question mark and the star. *)
Definition isReserved (a : ascii) : bool :=
  existsb (Ascii.eqb a)
          ["<"; ">"; ":"; ascii_of_nat 34; "/"; "\"; "|"; "?"; "*"]%char.

(** Every character of the class becomes an underscore. *)
Definition replaceReserved : string -> string :=
  JS.mapChars (fun a => if isReserved a then "_"%char else a).

(** [s.replace(/p+/g, r)] for a class [p] of characters: every maximal run
    of them becomes one [r].  [inRun] tells that the character before was in
    the class. *)
Fixpoint replaceRuns (p : ascii -> bool) (r : ascii) (inRun : bool) (s : string)
    : string :=
  match s with
  | EmptyString => EmptyString
  | String a s' =>
      if p a then
        if inRun then replaceRuns p r true s' else String r (replaceRuns p r true s')
      else String a (replaceRuns p r false s')
  end.

(** [s.replace(/^c/, '')] *)
Definition dropLeading (c : ascii) (s : string) : string :=
  match s with
  | String a s' => if Ascii.eqb a c then s' else s
  | EmptyString => EmptyString
  end.

(** [s.replace(/c$/, '')] *)
Fixpoint dropTrailing (c : ascii) (s : string) : string :=
  match s with
  | EmptyString => EmptyString
  | String a s' =>
      if Ascii.eqb a c && String.eqb s' EmptyString then EmptyString
      else String a (dropTrailing c s')
  end.

(** [sanitizeFilename] of [src/lib/download.ts]. *)
Definition sanitizeFilename (name : string) : string :=
  JS.take 120 (replaceRuns JS.isSpace "_" false (replaceReserved name)).

(** ** CSV downloads *)

Definition quote : ascii := ascii_of_nat 34.

(** The replacement of every double quote by two of them. *)
Fixpoint escapeQuotes (s : string) : string :=
  match s with
  | EmptyString => EmptyString
  | String a s' =>
      if Ascii.eqb a quote then String quote (String quote (escapeQuotes s'))
      else String a (escapeQuotes s')
  end.

(** A cell as [downloadCsv] and [downloadCsvCodeEdits] write it: its quotes
    doubled, between two quotes. *)
Definition csvCell (cell : string) : string :=
  String quote (escapeQuotes cell +:+ String quote EmptyString).

(** [row.map(cell => ...).join(',')] *)
Definition csvLine (row : list string) : string :=
  String.concat "," (map csvCell row).

(** ** The export request *)

(** What [POST /api/export] reads of the request body. *)
Record ExportRequest : Type := {
  body_since : option string;
  body_outDir : option string;
  body_includeComposer : bool
}.

(** The arguments the route passes to [scripts/export.js]. *)
Definition exportArgs (body : ExportRequest) : list string :=
  let since := if bool_decide (body_since body = Some "last") then "last" else "all" in
  let outDir := JS.orO (body_outDir body) "./export" in
  ["--since"; since; "--out"; outDir]
  ++ (if body_includeComposer body then ["--include-composer"] else []).

Module ExportScript.

(** The index loop of [main] in [scripts/export.js]. *)
Definition projectNameToWorkspaceId
    (workspaceEntries : list WorkspaceEntry) : gmap string string :=
  indexEntries folderSegmentOf workspaceEntries.

(** One step of the declared-root loop: keep the match of the declared path
    whose normalized form is longest. *)
Definition layoutStep (win32 : bool) (workspaceEntries : list WorkspaceEntry)
    (best : option string * nat) (rp : string) : option string * nat :=
  match whenTruthy (getProjectFromFilePath win32 rp workspaceEntries) with
  | Some m =>
      let norm := normalizeFilePath win32 rp in
      if snd best <? String.length norm then (Some m, String.length norm) else best
  | None => best
  end.

Definition bestLayout (win32 : bool) (workspaceEntries : list WorkspaceEntry)
    (pl : list string) : option string :=
  fst (fold_left (layoutStep win32 workspaceEntries) pl (None, 0)).

Definition assignWorkspace (win32 : bool)
    (workspaceEntries : list WorkspaceEntry)
    (projectLayoutsMap : gmap string (list string))
    (bubbleMap : gmap string Bubble)
    (composerData : ComposerData) (composerId : string) : string :=
  let pl := default [] (projectLayoutsMap !! composerId) in
  match whenTruthy (bestLayout win32 workspaceEntries pl) with
  | Some id => id
  | None =>
      let paths := map (normalizeFilePath win32) (referencedPaths composerData bubbleMap) in
      JS.orO (segmentHeuristic win32 paths (folderNameToWorkspaceId workspaceEntries))
             "global"
  end.

(** A message of the exported Markdown file. *)
Record ExportBubble : Type := {
  eb_type : BubbleType;
  eb_text : string;
  eb_timestamp : Z;
  eb_toolCalls : option (list ToolCall);
  eb_thinking : option string
}.

(** [!!b.thinking] *)
Definition hasThinking (b : Bubble) : bool :=
  match b_thinking b with
  | Some (ThinkingString s) => JS.truthy s
  | Some (ThinkingObject _) => true
  | None => false
  end.

(** The body of the header loop of [main] for a stored fragment. *)
Definition exportBubble (clock : nat -> Z) (h : Header) (b : Bubble) (k : nat)
    : option ExportBubble * nat :=
  let text := extractTextFromBubble b in
  let hasToolData := bool_decide (is_Some (b_toolFormerData b)) in
  if negb (JS.truthy (JS.trim text)) && negb hasToolData && negb (hasThinking b)
  then (None, k)
  else
    let text :=
      if negb (JS.truthy (JS.trim text)) && hasToolData
      then "**Tool: " +:+ JS.orO (b_toolFormerData b ≫= tfd_name) "unknown" +:+ "**"
      else text in
    let '(timestamp, k') := orNow clock (storedTime b) k in
    (Some {| eb_type := if Z.eqb (h_type h) 1 then user else ai;
             eb_text := text;
             eb_timestamp := timestamp;
             eb_toolCalls := toolCallsOf b;
             eb_thinking := if hasThinking b then fst (thinkingOf b) else None |}, k').

(** [slug] *)
Definition slug (s : string) : string :=
  JS.or (JS.take 80
           (dropTrailing "-"
              (dropLeading "-"
                 (replaceRuns (Ascii.eqb "-") "-" false
                    (replaceRuns JS.isSpace "-" false (replaceReserved s))))))
        "untitled".

(** The options of the script. *)
Record Options : Type := {
  opt_since : string;
  opt_outDir : string;
  opt_includeComposer : bool
}.

(** The loop of [parseArgs] from position [i], as a recursion on the
    arguments from [i] on. *)
Fixpoint parseArgsFrom (out : Options) (args : list string) : Options :=
  match args with
  | [] => out
  | a :: rest =>
      let next := match rest with v :: _ => JS.truthy v | [] => false end in
      if String.eqb a "--since" && next then
        match rest with
        | v :: rest' =>
            parseArgsFrom {| opt_since := v; opt_outDir := opt_outDir out;
                             opt_includeComposer := opt_includeComposer out |} rest'
        | [] => out
        end
      else if String.eqb a "--out" && next then
        match rest with
        | v :: rest' =>
            parseArgsFrom {| opt_since := opt_since out; opt_outDir := v;
                             opt_includeComposer := opt_includeComposer out |} rest'
        | [] => out
        end
      else if String.eqb a "--include-composer" then
        parseArgsFrom {| opt_since := opt_since out; opt_outDir := opt_outDir out;
                         opt_includeComposer := true |} rest
      else parseArgsFrom out rest
  end.

(** [parseArgs], of the arguments after the script name. *)
Definition parseArgs (args : list string) : Options :=
  parseArgsFrom {| opt_since := "all"; opt_outDir := "./export";
                   opt_includeComposer := false |} args.

(** The loop of [main] over the [codeBlockDiff:] rows. *)
Definition codeBlockDiffMap (rows : list (string * option CodeBlockDiff))
    : gmap string (list CodeBlockDiff) :=
  fold_left (fun m row =>
               match whenTruthy (JS.split ":" (fst row) !! 1) with
               | Some cid =>
                   match snd row with
                   | Some d => pushAt cid (withDiffId d (JS.split ":" (fst row) !! 2)) m
                   | None => m
                   end
               | None => m
               end)
            rows ∅.

(** [map.set(k, v)] on a [Map]: a key keeps the place of its first
    insertion. *)
Fixpoint mapSet {V : Type} (k : string) (v : V) (m : list (string * V))
    : list (string * V) :=
  match m with
  | [] => [(k, v)]
  | (k', v') :: rest =>
      if String.eqb k' k then (k, v) :: rest else (k', v') :: mapSet k v rest
  end.

(** A line of [manifest.jsonl]; a line read back may lack any field. *)
Record ManifestEntry : Type := {
  me_log_id : option string;
  me_path : option string;
  me_updated_at : option string
}.

(** What [main] records of an exported conversation, with its path and
    date as they are written. *)
Record Exported : Type := {
  ex_id : string;
  ex_path : string;
  ex_updatedAt : string
}.

Definition manifestEntryOf (e : Exported) : ManifestEntry :=
  {| me_log_id := Some (ex_id e); me_path := Some (ex_path e);
     me_updated_at := Some (ex_updatedAt e) |}.

(** The entries of the manifest file, in the order of its lines: those read
    from the file as it was ([None] for a line that does not parse), then
    those of this run. *)
Definition manifest (lines : list (option ManifestEntry)) (exported : list Exported)
    : list (string * ManifestEntry) :=
  let existingEntries :=
    fold_left (fun m line =>
                 match line with
                 | Some entry =>
                     match whenTruthy (me_log_id entry) with
                     | Some log_id => mapSet log_id entry m
                     | None => m
                     end
                 | None => m
                 end)
              lines [] in
  fold_left (fun m e => mapSet (ex_id e) (manifestEntryOf e) m) exported existingEntries.

End ExportScript.

(** ** Vocabulary of the statements *)

(** [c] occurs in [s]. *)
Fixpoint hasChar (c : ascii) (s : string) : bool :=
  match s with
  | EmptyString => false
  | String a s' => Ascii.eqb a c || hasChar c s'
  end.

(** The root folders of the catalog with the id of their workspace, in the
    order the loops over [workspaceEntries] visit them. *)
Definition catalogRoots (workspaceEntries : list WorkspaceEntry) : list (string * string) :=
  flat_map (fun entry => map (fun folder => (folder, we_name entry)) (entryFolders entry))
           workspaceEntries.


(** A conversation with no stored signal at all. *)
Definition bareComposer : ComposerData :=
  {| cd_name := None; cd_newlyCreatedFiles := []; cd_codeBlockData := [];
     cd_fullConversationHeadersOnly := []; cd_lastUpdatedAt := None;
     cd_createdAt := None; cd_usageCost := None; cd_usageEstimatedCost := None |}.

(** The text the tabs route tests and shows for a fragment: its own text
    followed by the text of the request contexts attached to it. *)
Definition fullTextOf (messageContexts : list RequestContext) (header : Header)
    (bubble : Bubble) : string :=
  extractTextFromBubble bubble +:+ contextText messageContexts (h_bubbleId header).

(** The reasoning text read from a fragment, if any. *)
Definition thinkingText (bubble : Bubble) : option string := fst (thinkingOf bubble).

(** The fragment passes the [hasContent] test of the header loop. *)
Definition kept (messageContexts : list RequestContext) (header : Header)
    (bubble : Bubble) : bool :=
  hasContent (fullTextOf messageContexts header bubble) (toolCallsOf bubble)
             (thinkingText bubble).

Definition responseTimeOf (b : ChatBubble) : option Z :=
  bub_metadata b ≫= m_responseTimeMs.

(** The timestamp of the most recent user bubble of [before]. *)
Definition lastUserTimestampOf (before : list ChatBubble) : option Z :=
  find (fun u => bool_decide (bub_type u = user)) (rev before) ≫= bub_timestamp.

(** The same conversation with another list of headers. *)
Definition withHeaders (composerData : ComposerData) (headers : list Header)
    : ComposerData :=
  {| cd_name := cd_name composerData;
     cd_newlyCreatedFiles := cd_newlyCreatedFiles composerData;
     cd_codeBlockData := cd_codeBlockData composerData;
     cd_fullConversationHeadersOnly := headers;
     cd_lastUpdatedAt := cd_lastUpdatedAt composerData;
     cd_createdAt := cd_createdAt composerData;
     cd_usageCost := cd_usageCost composerData;
     cd_usageEstimatedCost := cd_usageEstimatedCost composerData |}.

(** A bubble without metadata. *)
Definition plainBubble (type : BubbleType) (text : string) (timestamp : option Z)
    : ChatBubble :=
  {| bub_type := type; bub_text := text; bub_timestamp := timestamp;
     bub_metadata := None |}.

(** A stored fragment with nothing in it. *)
Definition bareBubble : Bubble :=
  {| b_text := None; b_richText := None; b_codeBlocks := [];
     b_toolFormerData := None; b_thinking := None; b_thinkingDurationMs := None;
     b_createdAt := None; b_timestamp := None; b_tokenCount := None;
     b_modelName := None; b_cost := None; b_usageCost := None;
     b_usageEstimatedCost := None; b_toolResults := None;
     b_ctxPercentFloat := None; b_ctxPercent := None; b_relevantFiles := [];
     b_attachedFileCodeChunksUris := []; b_fileSelections := [] |}.

(** A stored fragment with text and a creation time. *)
Definition textBubble (text : string) (createdAt : option Z) : Bubble :=
  {| b_text := Some text; b_richText := None; b_codeBlocks := [];
     b_toolFormerData := None; b_thinking := None; b_thinkingDurationMs := None;
     b_createdAt := createdAt; b_timestamp := None; b_tokenCount := None;
     b_modelName := None; b_cost := None; b_usageCost := None;
     b_usageEstimatedCost := None; b_toolResults := None;
     b_ctxPercentFloat := None; b_ctxPercent := None; b_relevantFiles := [];
     b_attachedFileCodeChunksUris := []; b_fileSelections := [] |}.

(** A stored fragment that only carries a reasoning trace. *)
Definition thinkingBubble (thinking : Thinking) (createdAt : option Z) : Bubble :=
  {| b_text := None; b_richText := None; b_codeBlocks := [];
     b_toolFormerData := None; b_thinking := Some thinking;
     b_thinkingDurationMs := None;
     b_createdAt := createdAt; b_timestamp := None; b_tokenCount := None;
     b_modelName := None; b_cost := None; b_usageCost := None;
     b_usageEstimatedCost := None; b_toolResults := None;
     b_ctxPercentFloat := None; b_ctxPercent := None; b_relevantFiles := [];
     b_attachedFileCodeChunksUris := []; b_fileSelections := [] |}.

(** A request context that only carries a git status for one fragment. *)
Definition gitContext (bubbleId status : string) : RequestContext :=
  {| ctx_bubbleId := Some bubbleId; ctx_gitStatusRaw := Some status;
     ctx_terminalFiles := []; ctx_attachedFolders := []; ctx_cursorRules := [];
     ctx_summarizedComposers := [] |}.

(** A code-edit diff that only names a file. *)
Definition fileDiff (filePath : string) : CodeBlockDiff :=
  {| d_diffId := None; d_newModelDiffWrtV0 := []; d_filePath := Some filePath;
     d_command := None; d_searchResults := None; d_webResults := None;
     d_toolName := None; d_parameters := None; d_result := None;
     d_actionsTaken := []; d_filesModified := []; d_gitStatus := None;
     d_directoryListed := None; d_webSearchResults := None |}.

(** The step shared by the loops that keep the first strictly longest
    candidate: [if (cond && weight > bestLen) { bestLen = weight; best = id }]. *)
Definition keepLongest {X : Type} (cond : X -> bool) (weight : X -> nat)
    (ident : X -> string) (best : option string * nat) (x : X)
    : option string * nat :=
  if cond x && (snd best <? weight x) then (Some (ident x), weight x) else best.

(** What a message is, apart from its metadata. *)
Definition bubbleCore (b : ChatBubble) : BubbleType * string * option Z :=
  (bub_type b, bub_text b, bub_timestamp b).

(** The workspace under which the list route counts a row, if it counts it. *)
Definition countedUnder (win32 : bool) (store : Store)
    (composerIdToWorkspaceId : gmap string string)
    (row : string * option ComposerData) : option string :=
  match snd row with
  | Some composerData =>
      if WorkspaceList.hasBubbles composerData (st_bubbleMap store)
      then Some (WorkspaceList.assignedProjectId win32 store composerIdToWorkspaceId
                   (fst row) composerData)
      else None
  | None => None
  end.

(** Every character of [s] passes [p]. *)
Fixpoint everyChar (p : ascii -> bool) (s : string) : bool :=
  match s with
  | EmptyString => true
  | String a s' => p a && everyChar p s'
  end.

(** ASCII text: every byte is below 128. *)
Definition isAscii (s : string) : bool :=
  everyChar (fun a => (N_of_ascii a <? 128)%N) s.

(** [try { n = decodeURIComponent(n) } catch (_) {}] *)
Definition decodedOnce (n : string) : string :=
  match JS.decodeURIComponent n with
  | Some d => d
  | None => n
  end.

(** A character that is neither reserved in file names nor white space. *)
Definition isSafeChar (a : ascii) : bool := negb (isReserved a) && negb (JS.isSpace a).

(** No two [c] in a row, and no [c] at the start when [first] is set. *)
Fixpoint spaced (c : ascii) (first : bool) (s : string) : bool :=
  match s with
  | EmptyString => true
  | String a s' =>
      if Ascii.eqb a c then negb first && spaced c true s' else spaced c false s'
  end.

(** A loop over a [Map] that sets one key per item, or none. *)
Definition setAll {X V : Type} (step : X -> option (string * V)) (l : list X)
    (m : list (string * V)) : list (string * V) :=
  fold_left (fun m x =>
               match step x with
               | Some (k, v) => ExportScript.mapSet k v m
               | None => m
               end) l m.

(** * Properties *)

(** ** Strings *)

Lemma append_nil (t : string) : EmptyString +:+ t = t.
Proof. reflexivity. Qed.

Lemma append_cons (a : ascii) (s t : string) : String a s +:+ t = String a (s +:+ t).
Proof. reflexivity. Qed.


Lemma append_assoc (a b c : string) : (a +:+ b) +:+ c = a +:+ (b +:+ c).
Proof.
  induction a as [|x a IH]; [reflexivity|].
  rewrite !append_cons. f_equal. exact IH.
Qed.

Lemma length_append (a b : string) :
  String.length (a +:+ b) = String.length a + String.length b.
Proof.
  induction a as [|x a IH]; [reflexivity|].
  rewrite append_cons. simpl. f_equal. exact IH.
Qed.

Lemma prefix_spec (p s : string) :
  String.prefix p s = true <-> exists t, s = p +:+ t.
Proof.
  revert s. induction p as [|a p IH]; intros s.
  - destruct s; simpl; split; eauto.
  - destruct s as [|b s]; simpl.
    + split; [discriminate | intros [t Ht]; discriminate].
    + destruct (ascii_dec a b) as [->|Hne].
      * rewrite IH. split; intros [t Ht]; exists t.
        -- rewrite append_cons. now rewrite Ht.
        -- rewrite append_cons in Ht. now inversion Ht.
      * split; [discriminate |].
        intros [t Ht]. rewrite append_cons in Ht. inversion Ht as [[Hab Hs]].
        exfalso. apply Hne. now symmetry.
Qed.

Lemma prefix_append (p q s : string) :
  String.prefix (p +:+ q) s = true -> String.prefix p s = true.
Proof.
  rewrite !prefix_spec. intros [t ->]. exists (q +:+ t). apply append_assoc.
Qed.



Lemma truthy_true (s : string) : JS.truthy s = true <-> s <> EmptyString.
Proof.
  unfold JS.truthy. rewrite negb_true_iff. apply String.eqb_neq.
Qed.

Lemma truthy_length (s : string) : JS.truthy s = true -> 0 < String.length s.
Proof. destruct s; simpl; [discriminate | lia]. Qed.

(** ** Path normalizer *)

Example normalize_win32 :
  normalizeFilePath true "file:///c%3A/Users/Bob/Proj" = "c:\users\bob\proj".
Proof. reflexivity. Qed.

Example normalize_posix :
  normalizeFilePath false "file:///home/u/proj1/app.ts" = "home/u/proj1/app.ts".
Proof. reflexivity. Qed.

(** A malformed escape makes the decoder throw; the path is kept as it is. *)
Example normalize_malformed_escape :
  normalizeFilePath false "/tmp/100%" = "/tmp/100%"
  /\ normalizeFilePath false "/tmp/%C0%80" = "/tmp/%C0%80".
Proof. split; reflexivity. Qed.










Lemma slashToBackslash_fixed (s : string) :
  hasChar "/" s = false -> JS.mapChars slashToBackslash s = s.
Proof.
  induction s as [|a s IH]; simpl; [reflexivity|].
  intros H. apply orb_false_iff in H as [Ha Hs].
  unfold slashToBackslash at 1. rewrite Ha. f_equal. now apply IH.
Qed.




Lemma uriTokens_literal (s : string) :
  hasChar "%" s = false ->
  JS.uriTokens s = Some (map JS.Lit (list_ascii_of_string s)).
Proof.
  induction s as [|a s IH]; simpl; [reflexivity|].
  intros H. apply orb_false_iff in H as [Ha Hs].
  rewrite Ha, (IH Hs). reflexivity.
Qed.

Lemma uriDecode_literal (l : list ascii) :
  JS.uriDecode (map JS.Lit l) = Some (string_of_list_ascii l).
Proof.
  induction l as [|a l IH]; simpl; [reflexivity | now rewrite IH].
Qed.

(** Without a percent sign there is nothing to decode. *)
Lemma decodeURIComponent_literal (s : string) :
  hasChar "%" s = false -> JS.decodeURIComponent s = Some s.
Proof.
  intros H. unfold JS.decodeURIComponent.
  rewrite (uriTokens_literal s H), uriDecode_literal.
  now rewrite string_of_list_ascii_of_string.
Qed.

Lemma stripPrefix_none (p s : string) :
  String.prefix p s = false -> JS.stripPrefix p s = s.
Proof. unfold JS.stripPrefix. now intros ->. Qed.


(** A string the normalizer leaves alone. *)
Lemma normalizeFilePath_fixed (win32 : bool) (y : string) :
  hasChar "%" y = false ->
  JS.startsWith "file://" y = false ->
  (win32 = true ->
   hasChar "/" y = false /\ leadingBackslashDrive y = false /\ JS.toLowerCase y = y) ->
  normalizeFilePath win32 y = y.
Proof.
  intros Hpct Hfile Hwin. unfold normalizeFilePath.
  assert (H3 : String.prefix "file:///" y = false).
  { destruct (String.prefix "file:///" y) eqn:E; [|reflexivity].
    apply (prefix_append "file://" "/") in E.
    unfold JS.startsWith in Hfile. congruence. }
  rewrite (stripPrefix_none _ _ H3), (stripPrefix_none _ _ Hfile).
  rewrite (decodeURIComponent_literal y Hpct).
  destruct win32; [|reflexivity].
  destruct (Hwin eq_refl) as (Hs & Hd & Hl).
  rewrite (slashToBackslash_fixed y Hs).
  unfold stripLeadingBackslash. rewrite Hd. exact Hl.
Qed.


(** ** Workspace catalog: the basename index *)

Section Index.

Variable key : string -> string.

Lemma indexFolders_written (id b : string) (folders : list string)
    (index : gmap string string) :
  b <> EmptyString ->
  index !! b = Some id \/ (exists folder, In folder folders /\ key folder = b) ->
  indexFolders key id index folders !! b = Some id.
Proof.
  intros Hb. revert index.
  induction folders as [|f r IH]; intros index H; cbn [indexFolders fold_left].
  - destruct H as [H | [folder [[] _]]]. exact H.
  - apply IH. destruct H as [H | [folder [[<- | Hin] Hk]]].
    + left. destruct (JS.truthy (key f)); [|exact H].
      destruct (decide (key f = b)) as [->|Hne];
        [apply lookup_insert_eq | now rewrite lookup_insert_ne].
    + left. rewrite Hk. apply truthy_true in Hb. rewrite Hb.
      apply lookup_insert_eq.
    + right. now exists folder.
Qed.

Lemma indexFolders_untouched (id b : string) (folders : list string)
    (index : gmap string string) :
  (forall folder, In folder folders -> key folder <> b) ->
  indexFolders key id index folders !! b = index !! b.
Proof.
  revert index.
  induction folders as [|f r IH]; intros index H; cbn [indexFolders fold_left].
  - reflexivity.
  - etransitivity; [apply IH; intros; apply H; now right |].
    destruct (JS.truthy (key f)); [|reflexivity].
    apply lookup_insert_ne. apply H. now left.
Qed.

Lemma indexEntries_from (entries : list WorkspaceEntry) (index : gmap string string) (b : string) :
  (forall e folder, In e entries -> In folder (entryFolders e) -> key folder <> b) ->
  fold_left (fun out entry => indexFolders key (we_name entry) out (entryFolders entry))
            entries index !! b = index !! b.
Proof.
  revert index. induction entries as [|e r IH]; intros index H; cbn [fold_left].
  - reflexivity.
  - etransitivity;
      [apply IH; intros e' f He' Hf; apply (H e' f); [now right | exact Hf] |].
    apply indexFolders_untouched. intros f Hf. apply (H e f); [now left | exact Hf].
Qed.

(** The index gives a basename to the last entry that has a folder of that
    name. *)
Lemma indexEntries_last (before after : list WorkspaceEntry) (entry : WorkspaceEntry)
    (folder b : string) :
  In folder (entryFolders entry) ->
  key folder = b ->
  b <> EmptyString ->
  (forall e f, In e after -> In f (entryFolders e) -> key f <> b) ->
  indexEntries key (before ++ entry :: after) !! b = Some (we_name entry).
Proof.
  intros Hin Hk Hb Hafter. unfold indexEntries.
  rewrite fold_left_app. cbn [fold_left].
  rewrite indexEntries_from by exact Hafter.
  apply indexFolders_written; [exact Hb | right; now exists folder].
Qed.

End Index.




(** The index of the export script obeys the same rule. *)
Lemma export_name_index_last_writer_wins
    (before after : list WorkspaceEntry) (entry : WorkspaceEntry) (folder b : string) :
  In folder (entryFolders entry) ->
  folderSegmentOf folder = b ->
  b <> EmptyString ->
  (forall e f, In e after -> In f (entryFolders e) -> folderSegmentOf f <> b) ->
  ExportScript.projectNameToWorkspaceId (before ++ entry :: after) !! b
  = Some (we_name entry).
Proof.
  intros Hin Hk Hb Hafter.
  now apply (indexEntries_last folderSegmentOf before after entry folder b).
Qed.

(** ** Loops that keep the first strictly longest candidate *)

Section LongestFirst.

Context {X : Type}.
Variable cond : X -> bool.
Variable weight : X -> nat.
Variable ident : X -> string.

Local Abbreviation step := (keepLongest cond weight ident).

Lemma keepLongest_below (l : list X) (best : option string * nat) (bound : nat) :
  (forall y, In y l -> cond y = true -> weight y < bound) ->
  snd best < bound ->
  snd (fold_left step l best) < bound.
Proof.
  revert best. induction l as [|z l IH]; intros best Hl Hb; cbn [fold_left].
  - exact Hb.
  - apply IH; [intros; apply Hl; [now right | assumption] |].
    unfold keepLongest. destruct (cond z) eqn:Ez; [|exact Hb].
    destruct (snd best <? weight z); [|exact Hb].
    simpl. apply Hl; [now left | exact Ez].
Qed.

Lemma keepLongest_stays (l : list X) (best : option string * nat) :
  (forall y, In y l -> cond y = true -> weight y <= snd best) ->
  fold_left step l best = best.
Proof.
  induction l as [|z l IH]; intros Hl; cbn [fold_left]; [reflexivity|].
  assert (Hz : step best z = best).
  { unfold keepLongest. destruct (cond z) eqn:Ez; [|reflexivity].
    assert (weight z <= snd best) by (apply Hl; [now left | exact Ez]).
    destruct (Nat.ltb_spec (snd best) (weight z)); [lia | reflexivity]. }
  rewrite Hz. apply IH. intros; apply Hl; [now right | assumption].
Qed.

Lemma keepLongest_take (best : option string * nat) (x : X) :
  cond x = true -> snd best < weight x ->
  step best x = (Some (ident x), weight x).
Proof.
  unfold keepLongest. intros -> H. apply Nat.ltb_lt in H. now rewrite H.
Qed.

(** A candidate longer than all earlier ones and at least as long as all
    later ones is the one kept. *)
Lemma keepLongest_first (before after : list X) (x : X) :
  cond x = true ->
  0 < weight x ->
  (forall y, In y before -> cond y = true -> weight y < weight x) ->
  (forall y, In y after -> cond y = true -> weight y <= weight x) ->
  fold_left step (before ++ x :: after) (None, 0) = (Some (ident x), weight x).
Proof.
  intros Hc Hw Hb Ha. rewrite fold_left_app. cbn [fold_left].
  pose proof (keepLongest_below before (None, 0) (weight x) Hb Hw) as Hlt.
  rewrite (keepLongest_take _ x Hc Hlt). apply keepLongest_stays. exact Ha.
Qed.

(** What the loop holds at its end. *)
Lemma keepLongest_result (l : list X) :
  (fold_left step l (None, 0) = (None, 0)
   /\ forall y, In y l -> cond y = true -> weight y = 0)
  \/ (exists x, In x l /\ cond x = true /\ 0 < weight x
       /\ fold_left step l (None, 0) = (Some (ident x), weight x)
       /\ forall y, In y l -> cond y = true -> weight y <= weight x).
Proof.
  induction l as [|z l IH] using rev_ind.
  - left. split; [reflexivity | intros y []].
  - rewrite fold_left_app. cbn [fold_left].
    destruct IH as [[-> Hall] | (x & Hin & Hc & Hw & -> & Hmax)]; unfold keepLongest.
    + destruct (cond z) eqn:Ez; cbn [andb snd].
      * destruct (Nat.ltb_spec 0 (weight z)).
        -- right. exists z. repeat split; try assumption.
           ++ apply in_or_app. right. now left.
           ++ intros y Hy Hcy. apply in_app_or in Hy as [Hy | [<- | []]];
                [rewrite (Hall y Hy Hcy); lia | lia].
        -- left. split; [reflexivity|].
           intros y Hy Hcy. apply in_app_or in Hy as [Hy | [<- | []]];
             [now apply Hall | lia].
      * left. split; [reflexivity|].
        intros y Hy Hcy. apply in_app_or in Hy as [Hy | [<- | []]];
          [now apply Hall | congruence].
    + right. destruct (cond z) eqn:Ez; cbn [andb snd].
      * destruct (Nat.ltb_spec (weight x) (weight z)).
        -- exists z. repeat split; try assumption; try lia.
           ++ apply in_or_app. right. now left.
           ++ intros y Hy Hcy. apply in_app_or in Hy as [Hy | [<- | []]];
                [specialize (Hmax y Hy Hcy); lia | lia].
        -- exists x. repeat split; try assumption.
           ++ apply in_or_app. now left.
           ++ intros y Hy Hcy. apply in_app_or in Hy as [Hy | [<- | []]];
                [now apply Hmax | lia].
      * exists x. repeat split; try assumption.
        -- apply in_or_app. now left.
        -- intros y Hy Hcy. apply in_app_or in Hy as [Hy | [<- | []]];
             [now apply Hmax | congruence].
Qed.

End LongestFirst.

Lemma fold_left_flat_map {A B S : Type} (f : S -> B -> S) (g : A -> list B)
    (l : list A) (s : S) :
  fold_left f (flat_map g l) s = fold_left (fun s a => fold_left f (g a) s) l s.
Proof.
  revert s. induction l as [|a l IH]; intros s; cbn [flat_map fold_left]; [reflexivity|].
  rewrite fold_left_app. apply IH.
Qed.

Lemma fold_left_mapped {A B S : Type} (f : S -> B -> S) (h : A -> B)
    (l : list A) (s : S) :
  fold_left f (map h l) s = fold_left (fun s a => f s (h a)) l s.
Proof.
  revert s. induction l as [|a l IH]; intros s; cbn [map fold_left]; [reflexivity|].
  apply IH.
Qed.

Lemma fold_left_ext_eq {A S : Type} (f g : S -> A -> S) (l : list A) (s : S) :
  (forall s a, f s a = g s a) -> fold_left f l s = fold_left g l s.
Proof.
  intros H. revert s. induction l as [|a l IH]; intros s; cbn [fold_left]; [reflexivity|].
  rewrite H. apply IH.
Qed.

(** ** Longest-prefix lookup *)

Lemma getProjectFromFilePath_flat (win32 : bool) (filePath : string)
    (workspaceEntries : list WorkspaceEntry) :
  getProjectFromFilePath win32 filePath workspaceEntries
  = fst (fold_left
           (keepLongest
              (fun r => JS.startsWith (normalizeFilePath win32 (fst r))
                                      (normalizeFilePath win32 filePath))
              (fun r => String.length (normalizeFilePath win32 (fst r)))
              snd)
           (catalogRoots workspaceEntries) (None, 0)).
Proof.
  unfold getProjectFromFilePath, catalogRoots. f_equal.
  rewrite fold_left_flat_map. apply fold_left_ext_eq. intros best entry.
  rewrite fold_left_mapped. apply fold_left_ext_eq. intros b folder. reflexivity.
Qed.

(** No root with a non-empty normalized form is a prefix: no match. *)
Lemma getProjectFromFilePath_none (win32 : bool) (filePath : string)
    (workspaceEntries : list WorkspaceEntry) :
  (forall folder id, In (folder, id) (catalogRoots workspaceEntries) ->
     JS.startsWith (normalizeFilePath win32 folder) (normalizeFilePath win32 filePath) = true ->
     normalizeFilePath win32 folder = EmptyString) ->
  getProjectFromFilePath win32 filePath workspaceEntries = None.
Proof.
  intros H. rewrite getProjectFromFilePath_flat.
  rewrite keepLongest_stays; [reflexivity|].
  intros [folder id] Hin Hc. cbn [fst snd] in *.
  rewrite (H folder id Hin Hc). simpl. lia.
Qed.

(** C6, as stated, fails on a root whose normalized form is empty (the
    folder [file:///]): it is a prefix of every path and the only candidate
    here, yet the lookup returns no workspace. *)
Lemma longest_prefix_skips_empty_root :
  JS.startsWith (normalizeFilePath false "file:///")
                (normalizeFilePath false "/home/u/app.ts") = true
  /\ getProjectFromFilePath false "/home/u/app.ts" [ws "W1" "file:///"] = None
  /\ getProjectFromFilePath false "/home/u/app.ts" [ws "W1" "file:///"]
     <> Some (we_name (ws "W1" "file:///")).
Proof. vm_compute. repeat split. discriminate. Qed.

(** C6 (amended): the lookup is a raw string-prefix test over normalized
    paths.  Among the roots whose normalized form is non-empty and a string
    prefix of the normalized path, it returns the workspace of the one of
    greatest length, the first-encountered one on a tie: a root that is
    longer than every earlier matching root and at least as long as every
    later one gives the result.  No segment boundary is looked at. *)
Theorem longest_prefix_first_wins (win32 : bool) (filePath : string)
    (workspaceEntries : list WorkspaceEntry)
    (before after : list (string * string)) (folder id : string) :
  catalogRoots workspaceEntries = before ++ (folder, id) :: after ->
  JS.startsWith (normalizeFilePath win32 folder) (normalizeFilePath win32 filePath) = true ->
  normalizeFilePath win32 folder <> EmptyString ->
  (forall f i, In (f, i) before ->
     JS.startsWith (normalizeFilePath win32 f) (normalizeFilePath win32 filePath) = true ->
     String.length (normalizeFilePath win32 f) < String.length (normalizeFilePath win32 folder)) ->
  (forall f i, In (f, i) after ->
     JS.startsWith (normalizeFilePath win32 f) (normalizeFilePath win32 filePath) = true ->
     String.length (normalizeFilePath win32 f) <= String.length (normalizeFilePath win32 folder)) ->
  getProjectFromFilePath win32 filePath workspaceEntries = Some id.
Proof.
  intros Hroots Hpre Hne Hbefore Hafter.
  rewrite getProjectFromFilePath_flat, Hroots.
  rewrite (keepLongest_first _ _ _ before after (folder, id)); cbn [fst snd].
  - reflexivity.
  - exact Hpre.
  - apply truthy_length. now apply truthy_true.
  - intros [f i] Hin Hc. now apply (Hbefore f i).
  - intros [f i] Hin Hc. now apply (Hafter f i).
Qed.

Lemma longest_prefix_first_wins_witness :
  getProjectFromFilePath false "/a/b/c/d.txt"
    [ws "W1" "/a/b"; ws "W2" "/a/b/c"; ws "W3" "/a/b/c"; ws "W4" "/a/bee"]
  = Some "W2".
Proof.
  apply (longest_prefix_first_wins false "/a/b/c/d.txt" _
           [("/a/b", "W1")] [("/a/b/c", "W3"); ("/a/bee", "W4")] "/a/b/c" "W2").
  - reflexivity.
  - reflexivity.
  - discriminate.
  - intros f i [H | []] _. inversion H; subst. vm_compute. lia.
  - intros f i [H | [H | []]]; inversion H; subst; vm_compute; [lia | discriminate].
Defined.

(** The two cases the specification singles out. *)
Example longest_prefix_ab :
  getProjectFromFilePath false "/a/b/c/d.txt" [ws "W1" "/a/b"; ws "W2" "/a/b/c"] = Some "W2"
  /\ getProjectFromFilePath false "/a/b/c/d.txt" [ws "W2" "/a/b/c"; ws "W1" "/a/b"] = Some "W2".
Proof. split; reflexivity. Qed.

Example prefix_without_boundary :
  getProjectFromFilePath false "/a/beetle/x" [ws "W1" "/a/bee"] = Some "W1".
Proof. reflexivity. Qed.

(** ** Segment heuristic *)


(** The names the heuristic tries are the non-empty basenames of the roots. *)
Lemma folderNameToWorkspaceId_spec (workspaceEntries : list WorkspaceEntry) (name id : string) :
  In (name, id) (folderNameToWorkspaceId workspaceEntries) <->
  exists folder, In (folder, id) (catalogRoots workspaceEntries)
                 /\ folderSegmentOf folder = name /\ name <> EmptyString.
Proof.
  unfold folderNameToWorkspaceId, catalogRoots. rewrite in_flat_map. split.
  - intros (entry & He & Hin). apply list_elem_of_In, list_elem_of_omap in Hin.
    destruct Hin as (folder & Hf & Hsome).
    destruct (JS.truthy (folderSegmentOf folder)) eqn:Et; [|discriminate].
    inversion Hsome; subst. exists folder. repeat split.
    + apply in_flat_map. exists entry. split; [exact He|].
      apply in_map_iff. exists folder. split; [reflexivity | now apply list_elem_of_In].
    + now apply truthy_true.
  - intros (folder & Hin & <- & Hne). apply in_flat_map in Hin as (entry & He & Hin).
    apply in_map_iff in Hin as (f & Heq & Hf). inversion Heq; subst.
    exists entry. split; [exact He|].
    apply list_elem_of_In, list_elem_of_omap. exists folder.
    split; [now apply list_elem_of_In|].
    apply truthy_true in Hne. now rewrite Hne.
Qed.

Lemma segmentHeuristic_flat (win32 : bool) (pathSegments : list string)
    (names : list (string * string)) :
  segmentHeuristic win32 pathSegments names
  = fst (fold_left
           (keepLongest (fun c => segmentMatch win32 (fst c) (fst (snd c)))
                        (fun c => JS.length (fst (snd c)))
                        (fun c => snd (snd c)))
           (flat_map (fun p => map (pair p) names) pathSegments) (None, 0)).
Proof.
  unfold segmentHeuristic. f_equal.
  rewrite fold_left_flat_map. apply fold_left_ext_eq. intros best p.
  rewrite fold_left_mapped. apply fold_left_ext_eq. intros b entry.
  unfold segmentStep, keepLongest. cbn [fst snd].
  now destruct (segmentMatch win32 p (fst entry)).
Qed.



(** The heuristic is the last resort of the routes: it decides when no
    declared root path and no referenced path gave a workspace, and it is
    run on the normalized referenced paths. *)
Lemma determineProject_falls_back_to_segments (win32 : bool)
    (composerData : ComposerData) (composerId : string)
    (projectLayoutsMap : gmap string (list string))
    (projectNameToWorkspaceId workspacePathToId : gmap string string)
    (workspaceEntries : list WorkspaceEntry) (bubbleMap : gmap string Bubble) :
  firstResult (layoutWorkspace win32 projectNameToWorkspaceId workspacePathToId)
              (default [] (projectLayoutsMap !! composerId)) = None ->
  firstResult (fun filePath =>
                 whenTruthy (getProjectFromFilePath win32 filePath workspaceEntries))
              (referencedPaths composerData bubbleMap) = None ->
  TabsRoute.determineProjectForConversation win32 composerData composerId
    projectLayoutsMap projectNameToWorkspaceId workspacePathToId
    workspaceEntries bubbleMap
  = whenTruthy
      (segmentHeuristic win32
         (map (normalizeFilePath win32) (referencedPaths composerData bubbleMap))
         (folderNameToWorkspaceId workspaceEntries)).
Proof.
  intros Hlayouts Hrefs. unfold TabsRoute.determineProjectForConversation.
  now rewrite Hlayouts, Hrefs.
Qed.

Example segment_fallback :
  TabsRoute.determineProjectForConversation false
    {| cd_name := None; cd_newlyCreatedFiles := [Some "/mnt/c/work/shop-api/src/app.ts"];
       cd_codeBlockData := []; cd_fullConversationHeadersOnly := [];
       cd_lastUpdatedAt := None; cd_createdAt := None; cd_usageCost := None;
       cd_usageEstimatedCost := None |}
    "c1" ∅
    (createProjectNameToWorkspaceIdMap
       [ws "W1" "file:///c%3A/work/api"; ws "W2" "file:///c%3A/work/shop-api"])
    (createWorkspacePathToIdMap false
       [ws "W1" "file:///c%3A/work/api"; ws "W2" "file:///c%3A/work/shop-api"])
    [ws "W1" "file:///c%3A/work/api"; ws "W2" "file:///c%3A/work/shop-api"] ∅
  = Some "W2".
Proof. vm_compute. reflexivity. Qed.

(** ** Declared root paths *)

Lemma bestLayout_flat (win32 : bool) (workspaceEntries : list WorkspaceEntry)
    (pl : list string) :
  ExportScript.bestLayout win32 workspaceEntries pl
  = fst (fold_left
           (keepLongest
              (fun rp => bool_decide
                           (is_Some (whenTruthy (getProjectFromFilePath win32 rp workspaceEntries))))
              (fun rp => String.length (normalizeFilePath win32 rp))
              (fun rp => default EmptyString
                           (whenTruthy (getProjectFromFilePath win32 rp workspaceEntries))))
           pl (None, 0)).
Proof.
  unfold ExportScript.bestLayout. f_equal. apply fold_left_ext_eq. intros best rp.
  unfold ExportScript.layoutStep, keepLongest.
  now destruct (whenTruthy (getProjectFromFilePath win32 rp workspaceEntries)).
Qed.


(** C4: the routes do not rank the declared root paths.  Both declared
    paths below have a full-path match in the catalog ([W1] for the shorter,
    [W2] for the longer); [determineProjectForConversation] returns at the
    first declared path, [W1], in the tabs route and in the workspace list
    route, while [assignWorkspace] of the export script returns [W2], the
    match of the longest normalized declared path. *)
Theorem declared_roots_routes_return_first_match :
  let entries := [ws "W1" "file:///c%3A/work/mono";
                  ws "W2" "file:///c%3A/work/mono/packages/app"] in
  let declared := ["/c:/work/mono"; "/c:/work/mono/packages/app"] in
  let layouts : gmap string (list string) := {[ "c1" := declared ]} in
  let names := createProjectNameToWorkspaceIdMap entries in
  let paths := createWorkspacePathToIdMap true entries in
  map (fun rootPath => paths !! normalizeFilePath true rootPath) declared
  = [Some "W1"; Some "W2"]
  /\ map (fun rootPath => getProjectFromFilePath true rootPath entries) declared
     = [Some "W1"; Some "W2"]
  /\ TabsRoute.determineProjectForConversation true bareComposer "c1" layouts
       names paths entries ∅ = Some "W1"
  /\ WorkspacesRoute.determineProjectForConversation true bareComposer "c1" layouts
       names paths entries ∅ None = Some "W1"
  /\ ExportScript.assignWorkspace true entries layouts ∅ bareComposer "c1" = "W2".
Proof. vm_compute. repeat split. Qed.

(** ** Direct mapping *)

(** The values of the definitive map are names of workspace directories. *)
Lemma composerIdToWorkspaceId_values
    (composers : list (string * option (list (option string))))
    (composerId workspaceId : string) :
  WorkspacesRoute.composerIdToWorkspaceId composers !! composerId = Some workspaceId ->
  exists entry, In entry composers /\ fst entry = workspaceId.
Proof.
  unfold WorkspacesRoute.composerIdToWorkspaceId.
  assert (Hgen : forall (init : gmap string string),
             fold_left
               (fun out entry =>
                  match snd entry with
                  | Some allComposers =>
                      fold_left
                        (fun out composerId =>
                           match composerId with
                           | Some cid =>
                               if JS.truthy cid then <[cid := fst entry]> out else out
                           | None => out
                           end) allComposers out
                  | None => out
                  end) composers init !! composerId = Some workspaceId ->
             init !! composerId = Some workspaceId
             \/ exists entry, In entry composers /\ fst entry = workspaceId).
  { induction composers as [|e r IH]; intros init H; cbn [fold_left] in H.
    - now left.
    - apply IH in H as [H | (entry & Hin & Hw)];
        [| right; exists entry; split; [now right | exact Hw]].
      destruct (snd e) as [allComposers|]; [| now left].
      revert init H. induction allComposers as [|c cs IHc]; intros init H;
        cbn [fold_left] in H; [now left|].
      apply IHc in H as [H | H]; [| now right].
      destruct c as [cid|]; [| now left].
      destruct (JS.truthy cid); [| now left].
      destruct (decide (cid = composerId)) as [->|Hne].
      + rewrite lookup_insert_eq in H. inversion H. right. exists e. split; [now left | reflexivity].
      + rewrite lookup_insert_ne in H by exact Hne. now left. }
  intros H. apply Hgen in H as [H | H]; [| exact H].
  rewrite lookup_empty in H. discriminate.
Qed.

(** C1: when the definitive composer-to-workspace map has an entry for the
    conversation, the attribution result is that workspace id (the name of a
    workspace directory, hence not empty), whatever the declared root paths,
    the referenced paths, the indices and the catalog are: no path
    heuristic takes part in the result. *)
Theorem direct_mapping_precedence (win32 : bool)
    (composerData : ComposerData) (composerId : string)
    (projectLayoutsMap : gmap string (list string))
    (projectNameToWorkspaceId workspacePathToId : gmap string string)
    (workspaceEntries : list WorkspaceEntry)
    (bubbleMap : gmap string Bubble)
    (composerIdToWorkspaceId : gmap string string) (workspaceId : string) :
  composerIdToWorkspaceId !! composerId = Some workspaceId ->
  workspaceId <> EmptyString ->
  WorkspacesRoute.determineProjectForConversation win32 composerData composerId
    projectLayoutsMap projectNameToWorkspaceId workspacePathToId
    workspaceEntries bubbleMap (Some composerIdToWorkspaceId)
  = Some workspaceId.
Proof.
  intros Hdirect Hne. unfold WorkspacesRoute.determineProjectForConversation.
  cbn [mbind option_bind]. rewrite Hdirect. cbn [whenTruthy].
  apply truthy_true in Hne. now rewrite Hne.
Qed.

Lemma direct_mapping_precedence_witness :
  let entries := [ws "W1" "/home/u/proj1"; ws "W2" "/home/u/proj2"] in
  WorkspacesRoute.determineProjectForConversation false bareComposer "c1"
    {[ "c1" := ["/home/u/proj2"] ]}
    (createProjectNameToWorkspaceIdMap entries)
    (createWorkspacePathToIdMap false entries) entries ∅
    (Some (WorkspacesRoute.composerIdToWorkspaceId
             [("W1", Some [Some "c1"]); ("W2", Some [Some "c2"])]))
  = Some "W1".
Proof.
  apply direct_mapping_precedence.
  - vm_compute. reflexivity.
  - discriminate.
Defined.

(** Without the direct entry the same conversation goes to the workspace of
    its declared root path. *)
Example without_direct_mapping :
  let entries := [ws "W1" "/home/u/proj1"; ws "W2" "/home/u/proj2"] in
  WorkspacesRoute.determineProjectForConversation false bareComposer "c1"
    {[ "c1" := ["/home/u/proj2"] ]}
    (createProjectNameToWorkspaceIdMap entries)
    (createWorkspacePathToIdMap false entries) entries ∅ None
  = Some "W2".
Proof. vm_compute. reflexivity. Qed.

(** ** Response time *)

Lemma find_app_first {A : Type} (f : A -> bool) (l1 l2 : list A) :
  find f (l1 ++ l2) = match find f l1 with
                      | Some x => Some x
                      | None => find f l2
                      end.
Proof.
  induction l1 as [|a l1 IH]; cbn [app find]; [reflexivity|].
  destruct (f a); [reflexivity | exact IH].
Qed.

(** The state of the loop after a prefix: the time of the last user bubble
    of the prefix, or the initial state when it has none. *)
Lemma responseTimes_lookup (bubbles : list ChatBubble) :
  forall (start : option Z) (i : nat) (out : ChatBubble),
  (forall b, In b bubbles -> responseTimeOf b = None) ->
  responseTimes start bubbles !! i = Some out ->
  exists b,
    bubbles !! i = Some b
    /\ bub_type out = bub_type b
    /\ bub_text out = bub_text b
    /\ bub_timestamp out = bub_timestamp b
    /\ responseTimeOf out =
       match bub_type b with
       | user => None
       | ai =>
           match (match find (fun u => bool_decide (bub_type u = user))
                               (rev (take i bubbles)) with
                  | Some u => bub_timestamp u
                  | None => start
                  end), bub_timestamp b with
           | Some lastUser, Some t =>
               if (lastUser <? t)%Z then Some (t - lastUser)%Z else None
           | _, _ => None
           end
       end.
Proof.
  induction bubbles as [|h r IH]; intros start i out Hnone Hout; [discriminate|].
  assert (Hh : responseTimeOf h = None) by (apply Hnone; now left).
  assert (Hr : forall b, In b r -> responseTimeOf b = None)
    by (intros; apply Hnone; now right).
  destruct i as [|j].
  - exists h. cbn [take rev find]. split; [reflexivity|].
    cbn [responseTimes] in Hout.
    destruct (bub_type h) eqn:Et.
    + inversion Hout; subst. now rewrite Et.
    + destruct start as [lastUser|], (bub_timestamp h) as [t|] eqn:Ets;
        try (inversion Hout; subst; rewrite ?Ets; now repeat split).
      destruct (lastUser <? t)%Z; inversion Hout; subst; cbn; now rewrite ?Ets.
  - cbn [take rev]. rewrite find_app_first. cbn [find].
    assert (Hnext : exists start',
               responseTimes start' r !! j = Some out
               /\ start' = match bub_type h with
                           | user => bub_timestamp h
                           | ai => start
                           end).
    { cbn [responseTimes] in Hout. destruct (bub_type h).
      - eexists. split; [exact Hout | reflexivity].
      - exists start. split; [|reflexivity].
        destruct start as [lastUser|], (bub_timestamp h) as [t|]; try exact Hout.
        destruct (lastUser <? t)%Z; exact Hout. }
    destruct Hnext as (start' & Hout' & ->).
    destruct (IH _ j out Hr Hout') as (b & Hb & Hty & Htx & Hts & Hrt).
    exists b. repeat split; try assumption.
    rewrite Hrt. destruct (bub_type b); [reflexivity|].
    destruct (find _ (rev (take j r))); [reflexivity|].
    destruct (bub_type h); reflexivity.
Qed.

(** C8: every response time recorded by the loop is strictly positive: it
    is the assistant timestamp minus the timestamp of the most recent user
    bubble before it, and that difference is positive; an assistant bubble
    whose timestamp is missing, or not later than that user timestamp,
    carries no response time. *)
Theorem response_time_strictly_positive (bubbles : list ChatBubble) (i : nat)
    (out : ChatBubble) :
  (forall b, In b bubbles -> responseTimeOf b = None) ->
  responseTimes None bubbles !! i = Some out ->
  exists b,
    bubbles !! i = Some b
    /\ bub_type out = bub_type b
    /\ bub_timestamp out = bub_timestamp b
    /\ (forall d, responseTimeOf out = Some d ->
          (0 < d)%Z /\ bub_type b = ai
          /\ exists lastUser t,
               lastUserTimestampOf (take i bubbles) = Some lastUser
               /\ bub_timestamp b = Some t
               /\ (lastUser < t)%Z /\ d = (t - lastUser)%Z)
    /\ (bub_timestamp b = None -> responseTimeOf out = None)
    /\ (forall lastUser t,
          lastUserTimestampOf (take i bubbles) = Some lastUser ->
          bub_timestamp b = Some t ->
          (t <= lastUser)%Z -> responseTimeOf out = None).
Proof.
  intros Hnone Hout.
  destruct (responseTimes_lookup bubbles None i out Hnone Hout)
    as (b & Hb & Hty & _ & Hts & Hrt).
  exists b. split; [exact Hb|]. split; [exact Hty|]. split; [exact Hts|].
  assert (Hlast : match find (fun u => bool_decide (bub_type u = user))
                             (rev (take i bubbles)) with
                  | Some u => bub_timestamp u
                  | None => None
                  end = lastUserTimestampOf (take i bubbles)).
  { unfold lastUserTimestampOf. now destruct (find _ _). }
  rewrite Hlast in Hrt. split; [|split].
  - intros d Hd. rewrite Hd in Hrt.
    destruct (bub_type b); [discriminate|].
    destruct (lastUserTimestampOf (take i bubbles)) as [lastUser|]; [|discriminate].
    destruct (bub_timestamp b) as [t|]; [|discriminate].
    destruct (Z.ltb_spec lastUser t); [|discriminate].
    inversion Hrt; subst. repeat split; [lia|]. exists lastUser, t. repeat split; lia.
  - intros Hmissing. rewrite Hrt, Hmissing.
    destruct (bub_type b); [reflexivity|]. now destruct (lastUserTimestampOf _).
  - intros lastUser t Hlu Ht Hle. rewrite Hrt, Hlu, Ht.
    destruct (bub_type b); [reflexivity|].
    destruct (Z.ltb_spec lastUser t); [lia | reflexivity].
Qed.

Lemma response_time_strictly_positive_witness :
  let bubbles := [plainBubble user "q1" (Some 100%Z); plainBubble ai "a1" (Some 250%Z);
                  plainBubble ai "a2" None; plainBubble user "q2" (Some 300%Z);
                  plainBubble ai "a3" (Some 300%Z)] in
  exists b,
    bubbles !! 1 = Some b
    /\ bub_type (setResponseTime (plainBubble ai "a1" (Some 250%Z)) 150) = bub_type b
    /\ bub_timestamp (setResponseTime (plainBubble ai "a1" (Some 250%Z)) 150) = bub_timestamp b
    /\ (forall d, responseTimeOf (setResponseTime (plainBubble ai "a1" (Some 250%Z)) 150) = Some d ->
          (0 < d)%Z /\ bub_type b = ai
          /\ exists lastUser t,
               lastUserTimestampOf (take 1 bubbles) = Some lastUser
               /\ bub_timestamp b = Some t
               /\ (lastUser < t)%Z /\ d = (t - lastUser)%Z)
    /\ (bub_timestamp b = None ->
        responseTimeOf (setResponseTime (plainBubble ai "a1" (Some 250%Z)) 150) = None)
    /\ (forall lastUser t,
          lastUserTimestampOf (take 1 bubbles) = Some lastUser ->
          bub_timestamp b = Some t ->
          (t <= lastUser)%Z ->
          responseTimeOf (setResponseTime (plainBubble ai "a1" (Some 250%Z)) 150) = None).
Proof.
  intros bubbles.
  apply (response_time_strictly_positive bubbles 1
           (setResponseTime (plainBubble ai "a1" (Some 250%Z)) 150)).
  - intros b Hb. simpl in Hb.
    destruct Hb as [<- | [<- | [<- | [<- | [<- | []]]]]]; reflexivity.
  - reflexivity.
Defined.

(** The loop on a short timeline: one answer is timed, the others are not. *)
Example response_times_sample :
  map responseTimeOf
      (responseTimes None
         [plainBubble user "q1" (Some 100%Z); plainBubble ai "a1" (Some 250%Z);
          plainBubble ai "a2" None; plainBubble user "q2" (Some 300%Z);
          plainBubble ai "a3" (Some 300%Z); plainBubble ai "a4" (Some 200%Z)])
  = [None; Some 150%Z; None; None; None; None].
Proof. reflexivity. Qed.

(** ** Assembly: which fragments become bubbles *)

Section AssemblyFacts.

Variable clock : nat -> Z.

Lemma buildBubble_dropped (messageContexts : list RequestContext) (header : Header)
    (bubble : Bubble) (k : nat) :
  kept messageContexts header bubble = false ->
  buildBubble clock messageContexts header bubble k = (None, k).
Proof.
  unfold kept, thinkingText, fullTextOf, buildBubble.
  destruct (thinkingOf bubble) as [thinking ms]. cbn [fst]. now intros ->.
Qed.

Lemma buildBubble_kept (messageContexts : list RequestContext) (header : Header)
    (bubble : Bubble) (k : nat) :
  kept messageContexts header bubble = true ->
  exists pushed,
    buildBubble clock messageContexts header bubble k
    = (Some pushed, snd (orNow clock (storedTime bubble) k))
    /\ bub_type pushed = (if Z.eqb (h_type header) 1 then user else ai)
    /\ bub_text pushed
       = displayTextOf (fullTextOf messageContexts header bubble) (toolCallsOf bubble)
                       (thinkingText bubble)
    /\ bub_timestamp pushed = Some (fst (orNow clock (storedTime bubble) k)).
Proof.
  unfold kept, thinkingText, fullTextOf, buildBubble.
  destruct (thinkingOf bubble) as [thinking ms]. cbn [fst]. intros ->.
  destruct (orNow clock (storedTime bubble) k) as [timestamp k'].
  eexists. repeat split.
Qed.

Lemma buildBubbles_app (messageContexts : list RequestContext)
    (bubbleMap : gmap string Bubble) (h1 h2 : list Header) (k : nat) :
  buildBubbles clock messageContexts bubbleMap (h1 ++ h2) k
  = (fst (buildBubbles clock messageContexts bubbleMap h1 k)
     ++ fst (buildBubbles clock messageContexts bubbleMap h2
               (snd (buildBubbles clock messageContexts bubbleMap h1 k))),
     snd (buildBubbles clock messageContexts bubbleMap h2
            (snd (buildBubbles clock messageContexts bubbleMap h1 k)))).
Proof.
  revert k. induction h1 as [|h r IH]; intros k; cbn [app buildBubbles].
  - cbn [fst snd app]. now destruct (buildBubbles clock messageContexts bubbleMap h2 k).
  - destruct (bubbleMap !! h_bubbleId h) as [bubble|]; [|apply IH].
    destruct (buildBubble clock messageContexts h bubble k) as [pushed k1].
    rewrite IH.
    destruct (buildBubbles clock messageContexts bubbleMap r k1) as [l1 k2].
    cbn [fst snd].
    destruct (buildBubbles clock messageContexts bubbleMap h2 k2) as [l2 k3].
    cbn [fst snd]. now destruct pushed.
Qed.

(** A header whose fragment is not stored, or fails the content test, leaves
    the bubble list and the clock as they are. *)
Lemma buildBubbles_skip (messageContexts : list RequestContext)
    (bubbleMap : gmap string Bubble) (header : Header) (rest : list Header) (k : nat) :
  (forall bubble, bubbleMap !! h_bubbleId header = Some bubble ->
                  kept messageContexts header bubble = false) ->
  buildBubbles clock messageContexts bubbleMap (header :: rest) k
  = buildBubbles clock messageContexts bubbleMap rest k.
Proof.
  intros H. cbn [buildBubbles].
  destruct (bubbleMap !! h_bubbleId header) as [bubble|]; [|reflexivity].
  rewrite (buildBubble_dropped _ _ _ _ (H bubble eq_refl)).
  now destruct (buildBubbles clock messageContexts bubbleMap rest k).
Qed.

Lemma buildBubbles_none (messageContexts : list RequestContext)
    (bubbleMap : gmap string Bubble) (headers : list Header) (k : nat) :
  (forall header bubble, In header headers ->
     bubbleMap !! h_bubbleId header = Some bubble ->
     kept messageContexts header bubble = false) ->
  buildBubbles clock messageContexts bubbleMap headers k = ([], k).
Proof.
  induction headers as [|h r IH]; intros H; [reflexivity|].
  rewrite buildBubbles_skip by (intros b Hb; apply (H h b); [now left | exact Hb]).
  apply IH. intros h' b Hin. apply H. now right.
Qed.

Lemma insertByTime_in (x y : ChatBubble) (l : list ChatBubble) :
  In x (insertByTime y l) <-> x = y \/ In x l.
Proof.
  induction l as [|z l IH]; cbn [insertByTime].
  - simpl. intuition congruence.
  - destruct (sortKey y <=? sortKey z)%Z; simpl in *; intuition congruence.
Qed.

Lemma sortByTime_in (x : ChatBubble) (l : list ChatBubble) :
  In x (sortByTime l) <-> In x l.
Proof.
  induction l as [|y l IH]; [reflexivity|].
  cbn [sortByTime fold_right]. rewrite insertByTime_in.
  fold (sortByTime l). rewrite IH. simpl. intuition congruence.
Qed.

Lemma insertByTime_length (y : ChatBubble) (l : list ChatBubble) :
  length (insertByTime y l) = S (length l).
Proof.
  induction l as [|z l IH]; cbn [insertByTime]; [reflexivity|].
  destruct (sortKey y <=? sortKey z)%Z; simpl; [reflexivity | now rewrite IH].
Qed.

Lemma sortByTime_length (l : list ChatBubble) : length (sortByTime l) = length l.
Proof.
  induction l as [|y l IH]; [reflexivity|].
  cbn [sortByTime fold_right]. rewrite insertByTime_length.
  fold (sortByTime l). now rewrite IH.
Qed.

Lemma responseTimes_length (start : option Z) (l : list ChatBubble) :
  length (responseTimes start l) = length l.
Proof.
  revert start. induction l as [|b l IH]; intros start; [reflexivity|].
  cbn [responseTimes]. destruct (bub_type b); [simpl; now rewrite IH|].
  destruct start as [lastUser|], (bub_timestamp b) as [t|];
    try (simpl; now rewrite IH).
  destruct (lastUser <? t)%Z; simpl; now rewrite IH.
Qed.

(** The loop changes nothing but the response time. *)
Lemma responseTimes_keeps (start : option Z) (l : list ChatBubble) (b : ChatBubble) :
  In b l ->
  exists out, In out (responseTimes start l)
              /\ bub_type out = bub_type b
              /\ bub_text out = bub_text b
              /\ bub_timestamp out = bub_timestamp b.
Proof.
  revert start. induction l as [|h l IH]; intros start Hin; [destruct Hin|].
  assert (Hrest : forall start', In b l ->
             forall first, exists out,
               In out (first :: responseTimes start' l)
               /\ bub_type out = bub_type b /\ bub_text out = bub_text b
               /\ bub_timestamp out = bub_timestamp b).
  { intros start' Hb first. destruct (IH start' Hb) as (out & Ho & H).
    exists out. split; [now right | exact H]. }
  cbn [responseTimes]. destruct Hin as [-> | Hin].
  - destruct (bub_type b) eqn:Et.
    + exists b. split; [now left | easy].
    + destruct start as [lastUser|], (bub_timestamp b) as [t|] eqn:Ets;
        try (exists b; split; [now left | easy]).
      destruct (lastUser <? t)%Z; [| exists b; split; [now left | easy]].
      exists (setResponseTime b (t - lastUser)). split; [now left|].
      cbn. now rewrite Et, Ets.
  - destruct (bub_type h); [now apply Hrest|].
    destruct start as [lastUser|], (bub_timestamp h) as [t|]; try now apply Hrest.
    destruct (lastUser <? t)%Z; now apply Hrest.
Qed.

Lemma diffBubbles_blank (codeBlockDiffs : list CodeBlockDiff) (k : nat) :
  (forall diff, In diff codeBlockDiffs -> JS.trim (formatToolAction diff) = EmptyString) ->
  diffBubbles clock codeBlockDiffs k = ([], k).
Proof.
  induction codeBlockDiffs as [|d r IH]; intros H; [reflexivity|].
  cbn [diffBubbles]. rewrite (H d) by now left. cbn.
  apply IH. intros; apply H; now right.
Qed.

(** An emitted tab holds as many bubbles as fragments kept plus diffs
    rendered, and at least one fragment was kept. *)
Lemma assemble_some (composerData : ComposerData) (composerId : string)
    (bubbleMap : gmap string Bubble) (messageContexts : list RequestContext)
    (codeBlockDiffs : list CodeBlockDiff) (k k' : nat) (tab : ChatTab) :
  assemble clock composerData composerId bubbleMap messageContexts codeBlockDiffs k
  = (Some tab, k') ->
  fst (buildBubbles clock messageContexts bubbleMap
         (cd_fullConversationHeadersOnly composerData) k) <> []
  /\ tab_bubbles tab
     = responseTimes None
         (sortByTime
            (fst (buildBubbles clock messageContexts bubbleMap
                    (cd_fullConversationHeadersOnly composerData) k)
             ++ fst (diffBubbles clock codeBlockDiffs
                       (snd (buildBubbles clock messageContexts bubbleMap
                               (cd_fullConversationHeadersOnly composerData) k))))).
Proof.
  unfold assemble.
  destruct (buildBubbles clock messageContexts bubbleMap
              (cd_fullConversationHeadersOnly composerData) k) as [bubbles k1].
  destruct bubbles as [|b bs]; [discriminate|]. cbn [fst snd].
  destruct (diffBubbles clock codeBlockDiffs k1) as [diffs k2].
  intros H. injection H as <- <-. cbn [fst snd tab_bubbles].
  split; [discriminate | reflexivity].
Qed.

Lemma assemble_nonempty (composerData : ComposerData) (composerId : string)
    (bubbleMap : gmap string Bubble) (messageContexts : list RequestContext)
    (codeBlockDiffs : list CodeBlockDiff) (k k' : nat) (tab : ChatTab) :
  assemble clock composerData composerId bubbleMap messageContexts codeBlockDiffs k
  = (Some tab, k') ->
  tab_bubbles tab <> [].
Proof.
  intros H. apply assemble_some in H as [Hne ->].
  intros Hnil. apply (f_equal (@length ChatBubble)) in Hnil.
  rewrite responseTimes_length, sortByTime_length, length_app in Hnil.
  destruct (fst (buildBubbles clock messageContexts bubbleMap
                   (cd_fullConversationHeadersOnly composerData) k));
    [now apply Hne | simpl in Hnil; lia].
Qed.

End AssemblyFacts.

(** The order produced by the sort. *)
Lemma insertByTime_sorted (x : ChatBubble) (l : list ChatBubble) :
  Sorted (fun a b => (sortKey a <= sortKey b)%Z) l ->
  Sorted (fun a b => (sortKey a <= sortKey b)%Z) (insertByTime x l).
Proof.
  induction l as [|y l IH]; intros Hs; cbn [insertByTime].
  - repeat constructor.
  - destruct (Z.leb_spec (sortKey x) (sortKey y)).
    + constructor; [exact Hs | constructor; exact H].
    + apply Sorted_inv in Hs as [Hs Hhd]. constructor; [now apply IH|].
      destruct l as [|z l]; cbn [insertByTime].
      * constructor. lia.
      * destruct (sortKey x <=? sortKey z)%Z; constructor;
          [lia | now apply HdRel_inv in Hhd].
Qed.

Lemma sortByTime_sorted (l : list ChatBubble) :
  Sorted (fun a b => (sortKey a <= sortKey b)%Z) (sortByTime l).
Proof.
  induction l as [|x l IH]; [constructor|].
  cbn [sortByTime fold_right]. now apply insertByTime_sorted.
Qed.

(** Bubbles with equal keys keep their order. *)
Example sortByTime_stable :
  map bub_text
      (sortByTime [plainBubble ai "c" (Some 7%Z); plainBubble user "a" (Some 3%Z);
                   plainBubble ai "d" (Some 7%Z); plainBubble ai "b" (Some 3%Z);
                   plainBubble ai "z" None])
  = ["z"; "a"; "b"; "c"; "d"].
Proof. reflexivity. Qed.

(** No bubble carries a response time before the loop runs. *)
Lemma buildBubbles_untimed (clock : nat -> Z) (messageContexts : list RequestContext)
    (bubbleMap : gmap string Bubble) (headers : list Header) :
  forall (k : nat) (b : ChatBubble),
    In b (fst (buildBubbles clock messageContexts bubbleMap headers k)) ->
    responseTimeOf b = None.
Proof.
  induction headers as [|h r IH]; intros k b Hin; [destruct Hin|].
  cbn [buildBubbles] in Hin.
  destruct (bubbleMap !! h_bubbleId h) as [bubble|]; [|now apply (IH k)].
  destruct (buildBubble clock messageContexts h bubble k) as [pushed k1] eqn:Eb.
  specialize (IH k1 b).
  destruct (buildBubbles clock messageContexts bubbleMap r k1) as [l k2].
  cbn [fst] in *. destruct pushed as [p|]; [|now apply IH].
  destruct Hin as [<- | Hin]; [|now apply IH].
  unfold buildBubble in Eb. destruct (thinkingOf bubble) as [thinking ms].
  destruct (hasContent _ _ _); [|discriminate].
  destruct (orNow clock (storedTime bubble) k) as [timestamp k'].
  injection Eb as <- _. unfold responseTimeOf. cbn [bub_metadata].
  destruct (if Z.eqb (h_type h) 1 then user else ai); [reflexivity|].
  now destruct (hasMeta _).
Qed.

Lemma diffBubbles_untimed (clock : nat -> Z) (codeBlockDiffs : list CodeBlockDiff) :
  forall (k : nat) (b : ChatBubble),
    In b (fst (diffBubbles clock codeBlockDiffs k)) -> responseTimeOf b = None.
Proof.
  induction codeBlockDiffs as [|d r IH]; intros k b Hin; [destruct Hin|].
  cbn [diffBubbles] in Hin.
  destruct (JS.truthy (JS.trim (formatToolAction d))); [|now apply (IH k)].
  cbn [dateNow] in Hin. specialize (IH (S k) b).
  destruct (diffBubbles clock r (S k)) as [more k2]. cbn [fst] in *.
  destruct Hin as [<- | Hin]; [reflexivity | now apply IH].
Qed.

(** In an assembled conversation every recorded response time is positive. *)
Lemma assembled_response_times_positive (clock : nat -> Z)
    (composerData : ComposerData) (composerId : string)
    (bubbleMap : gmap string Bubble) (messageContexts : list RequestContext)
    (codeBlockDiffs : list CodeBlockDiff) (k : nat) (tab : ChatTab)
    (b : ChatBubble) (d : Z) :
  fst (assemble clock composerData composerId bubbleMap messageContexts codeBlockDiffs k)
  = Some tab ->
  In b (tab_bubbles tab) ->
  responseTimeOf b = Some d ->
  (0 < d)%Z /\ bub_type b = ai.
Proof.
  intros Htab Hin Hd.
  destruct (assemble clock composerData composerId bubbleMap messageContexts
              codeBlockDiffs k) as [t k'] eqn:Ea.
  cbn [fst] in Htab. subst t.
  destruct (assemble_some clock _ _ _ _ _ _ _ _ Ea) as [_ Hbubbles].
  rewrite Hbubbles in Hin.
  apply list_elem_of_In, list_elem_of_lookup in Hin as [i Hi].
  destruct (fun H => responseTimes_lookup _ None i b H Hi)
    as (src & _ & Hty & _ & _ & Hrt).
  - intros x Hx. apply sortByTime_in, in_app_or in Hx as [Hx | Hx];
      [now apply buildBubbles_untimed in Hx | now apply diffBubbles_untimed in Hx].
  - rewrite Hd in Hrt. rewrite Hty.
    destruct (bub_type src); [discriminate|].
    destruct (match find _ _ with Some u => bub_timestamp u | None => None end)
      as [lastUser|]; [|discriminate].
    destruct (bub_timestamp src) as [t|]; [|discriminate].
    destruct (Z.ltb_spec lastUser t); [|discriminate].
    injection Hrt as ->. split; [lia | reflexivity].
Qed.

Section Fragments.

Variable clock : nat -> Z.

Lemma assemble_emits (composerData : ComposerData) (composerId : string)
    (bubbleMap : gmap string Bubble) (messageContexts : list RequestContext)
    (codeBlockDiffs : list CodeBlockDiff) (k : nat) :
  fst (buildBubbles clock messageContexts bubbleMap
         (cd_fullConversationHeadersOnly composerData) k) <> [] ->
  exists tab k',
    assemble clock composerData composerId bubbleMap messageContexts codeBlockDiffs k
    = (Some tab, k').
Proof.
  unfold assemble.
  destruct (buildBubbles clock messageContexts bubbleMap
              (cd_fullConversationHeadersOnly composerData) k) as [bubbles k1].
  cbn [fst]. destruct bubbles as [|b bs]; [intros H; now contradiction H|].
  intros _. destruct (diffBubbles clock codeBlockDiffs k1) as [diffs k2].
  eexists _, _. reflexivity.
Qed.

(** C9, as stated, fails in the tabs route.  A fragment with no text, no
    rich text, no code block, no tool data and no reasoning trace is emitted
    when a request context attached to it carries text (here a git status);
    and a fragment whose only content is a reasoning-trace object without
    text is not kept. *)
Lemma blank_fragment_with_context_is_emitted :
  let header := {| h_bubbleId := "b1"; h_type := 1 |} in
  let composerData := withHeaders bareComposer [header] in
  extractTextFromBubble bareBubble = EmptyString
  /\ b_toolFormerData bareBubble = None
  /\ b_thinking bareBubble = None
  /\ option_map (fun tab => length (tab_bubbles tab))
       (fst (assemble (fun _ => 1700000000000%Z) composerData "c1"
               {[ "b1" := bareBubble ]} [gitContext "b1" "M src/app.ts"] [] 0))
     = Some 1
  /\ fst (assemble (fun _ => 1700000000000%Z) composerData "c1"
            {[ "b1" := thinkingBubble (ThinkingObject None) (Some 1690000000000%Z) ]}
            [] [] 0)
     = None.
Proof. vm_compute. repeat split. Qed.

(** C9 (amended): in the tabs route a fragment is dropped when its text
    together with the text of the request contexts attached to it is blank,
    it has no tool data and its reasoning trace gives no text: the assembled
    conversation is the one of the record without that fragment.  A fragment
    with tool data, or with a reasoning trace that gives non-empty text, is
    kept: the conversation is emitted and its message list holds the bubble
    of that fragment. *)
Theorem blank_fragment_dropped_content_kept
    (composerData : ComposerData) (composerId : string)
    (bubbleMap : gmap string Bubble) (messageContexts : list RequestContext)
    (codeBlockDiffs : list CodeBlockDiff)
    (before after : list Header) (header : Header) (bubble : Bubble) (k : nat) :
  cd_fullConversationHeadersOnly composerData = before ++ header :: after ->
  bubbleMap !! h_bubbleId header = Some bubble ->
  (JS.trim (fullTextOf messageContexts header bubble) = EmptyString ->
   b_toolFormerData bubble = None ->
   JS.truthyO (thinkingText bubble) = false ->
   assemble clock composerData composerId bubbleMap messageContexts codeBlockDiffs k
   = assemble clock (withHeaders composerData (before ++ after)) composerId bubbleMap
       messageContexts codeBlockDiffs k)
  /\
  (is_Some (b_toolFormerData bubble) \/ JS.truthyO (thinkingText bubble) = true ->
   exists tab out,
     fst (assemble clock composerData composerId bubbleMap messageContexts
            codeBlockDiffs k) = Some tab
     /\ In out (tab_bubbles tab)
     /\ bub_type out = (if Z.eqb (h_type header) 1 then user else ai)
     /\ bub_text out
        = displayTextOf (fullTextOf messageContexts header bubble)
                        (toolCallsOf bubble) (thinkingText bubble)).
Proof.
  intros Hheaders Hstored. split.
  - intros Hblank Htool Hthink.
    assert (Hdrop : kept messageContexts header bubble = false).
    { unfold kept, hasContent, toolCallsOf. rewrite Hblank, Htool, Hthink. reflexivity. }
    assert (Hsame : buildBubbles clock messageContexts bubbleMap
                      (before ++ header :: after) k
                    = buildBubbles clock messageContexts bubbleMap (before ++ after) k).
    { rewrite !buildBubbles_app. rewrite buildBubbles_skip; [reflexivity|].
      intros b Hb. rewrite Hstored in Hb. injection Hb as <-. exact Hdrop. }
    unfold assemble. cbn [withHeaders cd_fullConversationHeadersOnly].
    rewrite Hheaders, Hsame. reflexivity.
  - intros Hcontent.
    assert (Hkept : kept messageContexts header bubble = true).
    { unfold kept, hasContent, toolCallsOf.
      destruct Hcontent as [[tfd ->] | ->];
        [now rewrite orb_true_r | now rewrite orb_true_r]. }
    set (k1 := snd (buildBubbles clock messageContexts bubbleMap before k)).
    destruct (buildBubble_kept clock messageContexts header bubble k1 Hkept)
      as (pushed & Hbuild & Hty & Htx & _).
    assert (Hin : In pushed
                    (fst (buildBubbles clock messageContexts bubbleMap
                            (cd_fullConversationHeadersOnly composerData) k))).
    { rewrite Hheaders, buildBubbles_app. cbn [fst]. apply in_or_app. right.
      fold k1. cbn [buildBubbles]. rewrite Hstored, Hbuild.
      destruct (buildBubbles clock messageContexts bubbleMap after _).
      now left. }
    destruct (assemble_emits composerData composerId bubbleMap messageContexts
                codeBlockDiffs k) as (tab & k' & Htab).
    { intros Hnil. rewrite Hnil in Hin. destruct Hin. }
    destruct (assemble_some clock _ _ _ _ _ _ _ _ Htab) as [_ Hbubbles].
    destruct (responseTimes_keeps None
                (sortByTime
                   (fst (buildBubbles clock messageContexts bubbleMap
                           (cd_fullConversationHeadersOnly composerData) k)
                    ++ fst (diffBubbles clock codeBlockDiffs
                              (snd (buildBubbles clock messageContexts bubbleMap
                                      (cd_fullConversationHeadersOnly composerData) k)))))
                pushed)
      as (out & Hout & Hoty & Hotx & _).
    { apply sortByTime_in. apply in_or_app. now left. }
    exists tab, out. rewrite Htab. cbn [fst]. repeat split.
    + now rewrite Hbubbles.
    + now rewrite Hoty.
    + now rewrite Hotx.
Qed.

(** ** The tabs response *)

Lemma tabOfRow_nonempty (win32 : bool) (store : Store) (id : string)
    (row : string * option ComposerData) (k k' : nat) (tab : ChatTab) :
  tabOfRow clock win32 store id row k = (Some tab, k') -> tab_bubbles tab <> [].
Proof.
  unfold tabOfRow. destruct (snd row) as [composerData|]; [|discriminate].
  destruct (bool_decide _); [|discriminate].
  apply assemble_nonempty.
Qed.

Lemma tabsOfRows_nonempty (win32 : bool) (store : Store) (id : string)
    (rows : list (string * option ComposerData)) :
  forall (k : nat) (tab : ChatTab),
    In tab (fst (tabsOfRows clock win32 store id rows k)) -> tab_bubbles tab <> [].
Proof.
  induction rows as [|row rest IH]; intros k tab Hin; [destruct Hin|].
  cbn [tabsOfRows] in Hin.
  destruct (tabOfRow clock win32 store id row k) as [t k1] eqn:Erow.
  specialize (IH k1 tab).
  destruct (tabsOfRows clock win32 store id rest k1) as [tabs k2].
  cbn [fst] in *. destruct t as [t|]; [|now apply IH].
  destruct Hin as [<- | Hin]; [|now apply IH].
  now apply (tabOfRow_nonempty _ _ _ _ _ _ _ Erow).
Qed.

Lemma tabsOfRows_app (win32 : bool) (store : Store) (id : string)
    (r1 r2 : list (string * option ComposerData)) (k : nat) :
  tabsOfRows clock win32 store id (r1 ++ r2) k
  = (fst (tabsOfRows clock win32 store id r1 k)
     ++ fst (tabsOfRows clock win32 store id r2
               (snd (tabsOfRows clock win32 store id r1 k))),
     snd (tabsOfRows clock win32 store id r2
            (snd (tabsOfRows clock win32 store id r1 k)))).
Proof.
  revert k. induction r1 as [|row rest IH]; intros k; cbn [app tabsOfRows].
  - cbn [fst snd app]. now destruct (tabsOfRows clock win32 store id r2 k).
  - destruct (tabOfRow clock win32 store id row k) as [t k1]. rewrite IH.
    destruct (tabsOfRows clock win32 store id rest k1) as [l1 k2]. cbn [fst snd].
    destruct (tabsOfRows clock win32 store id r2 k2) as [l2 k3]. cbn [fst snd].
    now destruct t.
Qed.

(** A conversation none of whose stored fragments passes the content test
    gives no tab and reads no clock. *)
Lemma tabOfRow_without_content (win32 : bool) (store : Store) (id : string)
    (row : string * option ComposerData) (composerData : ComposerData) (k : nat) :
  snd row = Some composerData ->
  (forall header bubble,
     In header (cd_fullConversationHeadersOnly composerData) ->
     st_bubbleMap store !! h_bubbleId header = Some bubble ->
     kept (default [] (st_messageRequestContextMap store !! fst row)) header bubble
     = false) ->
  tabOfRow clock win32 store id row k = (None, k).
Proof.
  intros Hrow Hnone. unfold tabOfRow. rewrite Hrow.
  destruct (bool_decide _); [|reflexivity].
  unfold assemble. now rewrite (buildBubbles_none clock _ _ _ k Hnone).
Qed.

(** C10: every conversation in the tabs response has at least one message
    bubble; and a conversation whose fragments all lack displayable content
    is left out of the response, whichever workspace it was attributed to:
    the response is the one obtained without its row. *)
Theorem emitted_tabs_have_bubbles (win32 : bool) (store : Store) (id : string) :
  (forall tab, In tab (GET clock win32 store id) -> tab_bubbles tab <> [])
  /\
  (forall (before after : list (string * option ComposerData))
          (row : string * option ComposerData) (composerData : ComposerData) (k : nat),
     snd row = Some composerData ->
     (forall header bubble,
        In header (cd_fullConversationHeadersOnly composerData) ->
        st_bubbleMap store !! h_bubbleId header = Some bubble ->
        kept (default [] (st_messageRequestContextMap store !! fst row)) header bubble
        = false) ->
     tabsOfRows clock win32 store id (before ++ row :: after) k
     = tabsOfRows clock win32 store id (before ++ after) k).
Proof.
  split.
  - intros tab. unfold GET. apply tabsOfRows_nonempty.
  - intros before after row composerData k Hrow Hnone.
    rewrite !tabsOfRows_app. cbn [tabsOfRows].
    rewrite (tabOfRow_without_content win32 store id row composerData _ Hrow Hnone).
    now destruct (tabsOfRows clock win32 store id after _).
Qed.

End Fragments.

Lemma blank_fragment_dropped_content_kept_witness :
  let clock := fun _ : nat => 1700000000000%Z in
  let h1 := {| h_bubbleId := "b1"; h_type := 1 |} in
  let h2 := {| h_bubbleId := "b2"; h_type := 2 |} in
  let h3 := {| h_bubbleId := "b3"; h_type := 2 |} in
  let bubbleMap : gmap string Bubble :=
    {[ "b1" := textBubble "hi" (Some 100%Z); "b2" := bareBubble;
       "b3" := thinkingBubble (ThinkingString "plan") (Some 200%Z) ]} in
  assemble clock (withHeaders bareComposer [h1; h2; h3]) "c1" bubbleMap [] [] 0
  = assemble clock (withHeaders (withHeaders bareComposer [h1; h2; h3]) ([h1] ++ [h3]))
      "c1" bubbleMap [] [] 0.
Proof.
  intros clock h1 h2 h3 bubbleMap.
  apply (proj1 (blank_fragment_dropped_content_kept clock
                  (withHeaders bareComposer [h1; h2; h3]) "c1" bubbleMap [] []
                  [h1] [h3] h2 bareBubble 0 eq_refl eq_refl));
    reflexivity.
Defined.

Example thinking_only_fragment_kept :
  option_map (fun tab => map bub_text (tab_bubbles tab))
    (fst (assemble (fun _ => 1700000000000%Z)
            (withHeaders bareComposer [{| h_bubbleId := "b3"; h_type := 2 |}]) "c1"
            {[ "b3" := thinkingBubble (ThinkingString "plan") (Some 200%Z) ]} [] [] 0))
  = Some ["plan"].
Proof. vm_compute. reflexivity. Qed.

(** The export script tests the text of the fragment alone, and takes any
    reasoning trace as content. *)
Lemma export_fragment_filter (clock : nat -> Z) (h : Header) (b : Bubble) (k : nat) :
  fst (ExportScript.exportBubble clock h b k) = None <->
  JS.trim (extractTextFromBubble b) = EmptyString
  /\ b_toolFormerData b = None
  /\ ExportScript.hasThinking b = false.
Proof.
  unfold ExportScript.exportBubble.
  destruct (JS.truthy (JS.trim (extractTextFromBubble b))) eqn:Et;
    destruct (b_toolFormerData b) as [tfd|] eqn:Ef;
    destruct (ExportScript.hasThinking b) eqn:Eh; cbn [negb andb];
    try (destruct (orNow clock (storedTime b) k));
    cbn [fst]; split; try discriminate; try (intros (H1 & H2 & H3); discriminate).
  - intros (H1 & _). apply truthy_true in Et. contradiction.
  - intros _. repeat split.
    unfold JS.truthy in Et. apply negb_false_iff, String.eqb_eq in Et. exact Et.
  - reflexivity.
Qed.

(** ** Assembly and the clock *)

Lemma buildBubble_stored (clock1 clock2 : nat -> Z)
    (messageContexts : list RequestContext) (header : Header) (bubble : Bubble)
    (k1 k2 : nat) :
  (kept messageContexts header bubble = true ->
   exists t, storedTime bubble = Some t /\ t <> 0%Z) ->
  buildBubble clock1 messageContexts header bubble k1
  = (fst (buildBubble clock2 messageContexts header bubble k2), k1).
Proof.
  unfold kept, thinkingText, fullTextOf, buildBubble.
  destruct (thinkingOf bubble) as [thinking ms]. cbn [fst].
  destruct (hasContent _ _ _); [|reflexivity].
  intros H. destruct (H eq_refl) as (t & -> & Ht). cbn [orNow].
  apply Z.eqb_neq in Ht. rewrite Ht. reflexivity.
Qed.

(** With a stored time on every kept fragment the header loop never reads
    the clock. *)
Lemma buildBubbles_stored (clock1 clock2 : nat -> Z)
    (messageContexts : list RequestContext) (bubbleMap : gmap string Bubble)
    (headers : list Header) :
  (forall header bubble,
     In header headers -> bubbleMap !! h_bubbleId header = Some bubble ->
     kept messageContexts header bubble = true ->
     exists t, storedTime bubble = Some t /\ t <> 0%Z) ->
  forall k1 k2,
    buildBubbles clock1 messageContexts bubbleMap headers k1
    = (fst (buildBubbles clock2 messageContexts bubbleMap headers k2), k1).
Proof.
  induction headers as [|h r IH]; intros H k1 k2; [reflexivity|].
  cbn [buildBubbles].
  assert (Hr : forall header bubble,
             In header r -> bubbleMap !! h_bubbleId header = Some bubble ->
             kept messageContexts header bubble = true ->
     exists t, storedTime bubble = Some t /\ t <> 0%Z)
    by (intros h' b Hin; apply H; now right).
  destruct (bubbleMap !! h_bubbleId h) as [bubble|] eqn:Eb; [|now apply IH].
  rewrite (buildBubble_stored clock1 clock2 messageContexts h bubble k1 k2)
    by (apply (H h bubble); [now left | exact Eb]).
  destruct (buildBubble clock2 messageContexts h bubble k2) as [pushed k2'].
  cbn [fst]. rewrite (IH Hr k1 k2').
  destruct (buildBubbles clock2 messageContexts bubbleMap r k2') as [l k2''].
  reflexivity.
Qed.

(** C2, as stated, fails: the clock read by the assembly enters its
    output.  Assembling the same record twice in a row gives different
    timestamps when a fragment has no stored time, and different response
    times and totals when a code-edit diff is rendered. *)
Lemma assembly_twice_differs :
  let clock := fun k : nat => (1700000000000 + 1000 * Z.of_nat k)%Z in
  let h1 := {| h_bubbleId := "b1"; h_type := 1 |} in
  let composerData := withHeaders bareComposer [h1] in
  let unstamped : gmap string Bubble := {[ "b1" := textBubble "hello" None ]} in
  let stamped : gmap string Bubble :=
    {[ "b1" := textBubble "hello" (Some 1690000000000%Z) ]} in
  let first := assemble clock composerData "c1" unstamped [] [] 0 in
  let second := assemble clock composerData "c1" unstamped [] [] (snd first) in
  let first' := assemble clock composerData "c1" stamped [] [fileDiff "src/app.ts"] 0 in
  let second' :=
    assemble clock composerData "c1" stamped [] [fileDiff "src/app.ts"] (snd first') in
  fst first <> fst second /\ fst first' <> fst second'.
Proof.
  cbv zeta. split; intros H.
  - apply (f_equal (option_map (fun tab => map bub_timestamp (tab_bubbles tab)))) in H.
    vm_compute in H. discriminate H.
  - apply (f_equal (fun o : option ChatTab =>
                      (o ≫= tab_metadata) ≫= totalResponseTimeMs)) in H.
    vm_compute in H. discriminate H.
Qed.

(** C2 (amended): assembling the same conversation record twice (same
    record, same fragment map, same request contexts, same code-edit diffs)
    yields the same output, whatever the clock shows at either run, provided
    every fragment that is kept has a stored non-zero [createdAt] or
    [timestamp] and no code-edit diff renders to non-blank text.  Otherwise
    the time of the run is used as a timestamp. *)
Theorem assembly_independent_of_clock (clock1 clock2 : nat -> Z) (k1 k2 : nat)
    (composerData : ComposerData) (composerId : string)
    (bubbleMap : gmap string Bubble) (messageContexts : list RequestContext)
    (codeBlockDiffs : list CodeBlockDiff) :
  (forall header bubble,
     In header (cd_fullConversationHeadersOnly composerData) ->
     bubbleMap !! h_bubbleId header = Some bubble ->
     kept messageContexts header bubble = true ->
     exists t, storedTime bubble = Some t /\ t <> 0%Z) ->
  (forall diff, In diff codeBlockDiffs ->
     JS.trim (formatToolAction diff) = EmptyString) ->
  fst (assemble clock1 composerData composerId bubbleMap messageContexts codeBlockDiffs k1)
  = fst (assemble clock2 composerData composerId bubbleMap messageContexts codeBlockDiffs k2).
Proof.
  intros Hstored Hblank. unfold assemble.
  rewrite (buildBubbles_stored clock1 clock2 messageContexts bubbleMap _ Hstored k1 k2).
  destruct (buildBubbles clock2 messageContexts bubbleMap
              (cd_fullConversationHeadersOnly composerData) k2) as [bubbles k2'].
  cbn [fst]. destruct bubbles as [|b bs]; [reflexivity|].
  rewrite !(diffBubbles_blank _ codeBlockDiffs _ Hblank). reflexivity.
Qed.

Lemma assembly_independent_of_clock_witness :
  let h1 := {| h_bubbleId := "b1"; h_type := 1 |} in
  let h2 := {| h_bubbleId := "b2"; h_type := 2 |} in
  let bubbleMap : gmap string Bubble :=
    {[ "b1" := textBubble "hello" (Some 1690000000000%Z);
       "b2" := textBubble "hi there" (Some 1690000004000%Z) ]} in
  fst (assemble (fun k => (1700000000000 + Z.of_nat k)%Z) (withHeaders bareComposer [h1; h2])
         "c1" bubbleMap [] [] 0)
  = fst (assemble (fun k => (1800000000000 + Z.of_nat k)%Z) (withHeaders bareComposer [h1; h2])
           "c1" bubbleMap [] [] 7).
Proof.
  intros h1 h2 bubbleMap.
  apply assembly_independent_of_clock.
  - intros header bubble [<- | [<- | []]] Hb _; vm_compute in Hb;
      injection Hb as <-; eexists; (split; [reflexivity | discriminate]).
  - intros diff [].
Defined.

(** The assembled conversation of the witness: the answer is timed. *)
Example assembled_sample :
  let h1 := {| h_bubbleId := "b1"; h_type := 1 |} in
  let h2 := {| h_bubbleId := "b2"; h_type := 2 |} in
  let bubbleMap : gmap string Bubble :=
    {[ "b1" := textBubble "hello" (Some 1690000000000%Z);
       "b2" := textBubble "hi there" (Some 1690000004000%Z) ]} in
  option_map (fun tab => (tab_title tab, map responseTimeOf (tab_bubbles tab),
                          tab_metadata tab ≫= totalResponseTimeMs))
    (fst (assemble (fun _ => 0%Z) (withHeaders bareComposer [h1; h2]) "c1" bubbleMap [] [] 0))
  = Some ("hello", [None; Some 4000%Z], Some 4000%Z).
Proof. vm_compute. reflexivity. Qed.

(** A conversation without displayable content gives no tab, even in the
    workspace it belongs to. *)
Example tabs_skip_empty_conversation :
  let store :=
    {| st_workspaceEntries := [ws "W1" "/home/u/proj1"];
       st_bubbleMap := {[ "b1" := bareBubble; "b2" := textBubble "hello" (Some 5%Z) ]};
       st_codeBlockDiffMap := {[ "c1" := [fileDiff "src/app.ts"] ]};
       st_messageRequestContextMap := ∅;
       st_projectLayoutsMap := {[ "c1" := ["/home/u/proj1"]; "c2" := ["/home/u/proj1"] ]};
       st_composerRows :=
         [("c1", Some (withHeaders bareComposer [{| h_bubbleId := "b1"; h_type := 2 |}]));
          ("c2", Some (withHeaders bareComposer [{| h_bubbleId := "b2"; h_type := 1 |}]))] |} in
  map tab_id (GET (fun _ => 9%Z) false store "W1") = ["c2"].
Proof. vm_compute. reflexivity. Qed.

(** * Further properties of the resolver *)

(** ** Path normalizer: length and shape *)

Lemma drop_length (n : nat) (s : string) :
  String.length (JS.drop n s) <= String.length s.
Proof.
  revert s. induction n as [|n IH]; intros s; [simpl; lia|].
  destruct s as [|a s]; simpl; [lia|]. specialize (IH s). lia.
Qed.

Lemma drop_append (p x : string) : JS.drop (String.length p) (p +:+ x) = x.
Proof.
  induction p as [|a p IH]; [reflexivity|]. rewrite append_cons. exact IH.
Qed.

Lemma stripPrefix_length (p s : string) :
  String.length (JS.stripPrefix p s) <= String.length s.
Proof.
  unfold JS.stripPrefix. destruct (String.prefix p s); [apply drop_length | lia].
Qed.

Lemma stripPrefix_append (p x : string) : JS.stripPrefix p (p +:+ x) = x.
Proof.
  unfold JS.stripPrefix.
  assert (H : String.prefix p (p +:+ x) = true) by (apply prefix_spec; now exists x).
  rewrite H. apply drop_append.
Qed.

Lemma mapChars_length (f : ascii -> ascii) (s : string) :
  String.length (JS.mapChars f s) = String.length s.
Proof. induction s as [|a s IH]; simpl; [reflexivity | now rewrite IH]. Qed.

Lemma uriTokens_length (n : nat) :
  forall (s : string) (ts : list JS.uriTok),
    String.length s <= n -> JS.uriTokens s = Some ts -> length ts <= String.length s.
Proof.
  induction n as [|n IH]; intros s ts Hn H.
  - destruct s; simpl in *; [injection H as <-; simpl; lia | lia].
  - destruct s as [|a rest]; [injection H as <-; simpl; lia|].
    cbn [JS.uriTokens] in H. simpl in Hn.
    destruct (Ascii.eqb a "%").
    + destruct rest as [|h [|l rest']]; try discriminate.
      destruct (JS.hexval h), (JS.hexval l); try discriminate.
      destruct (JS.uriTokens rest') as [ts'|] eqn:E; [|discriminate].
      injection H as <-. simpl in *.
      assert (length ts' <= String.length rest') by (apply IH; [lia | exact E]). lia.
    + destruct (JS.uriTokens rest) as [ts'|] eqn:E; [|discriminate].
      injection H as <-. simpl.
      assert (length ts' <= String.length rest) by (apply IH; [lia | exact E]). lia.
Qed.

Lemma uriDecode_length (n : nat) :
  forall (ts : list JS.uriTok) (d : string),
    length ts <= n -> JS.uriDecode ts = Some d -> String.length d = length ts.
Proof.
  induction n as [|n IH]; intros ts d Hn H.
  - destruct ts; [injection H as <-; reflexivity | simpl in Hn; lia].
  - destruct ts as [|t r]; [injection H as <-; reflexivity|].
    simpl in Hn. cbn [JS.uriDecode] in H.
    assert (Hstep : forall (r' : list JS.uriTok) (pre : string -> string) (k : nat),
               length r' <= n ->
               (forall t', String.length (pre t') = k + String.length t') ->
               option_map pre (JS.uriDecode r') = Some d ->
               String.length d = k + length r').
    { intros r' pre k Hr Hpre Hd.
      destruct (JS.uriDecode r') as [d'|] eqn:E; [|discriminate].
      injection Hd as <-. rewrite Hpre. f_equal. apply IH; [exact Hr | exact E]. }
    destruct t as [a|b].
    + rewrite (Hstep r (String a) 1 ltac:(lia) ltac:(reflexivity) H). reflexivity.
    + destruct (b <? 128)%N.
      { rewrite (Hstep r (String (JS.byte b)) 1 ltac:(lia) ltac:(reflexivity) H).
        reflexivity. }
      destruct (JS.inRange 194 223 b).
      { destruct r as [|[a1|c1] r1]; try discriminate.
        destruct (JS.isCont c1); [|discriminate]. simpl in Hn.
        rewrite (Hstep r1 (fun t => String (JS.byte b) (String (JS.byte c1) t)) 2
                   ltac:(lia) ltac:(reflexivity) H). reflexivity. }
      destruct (JS.inRange 224 239 b).
      { destruct r as [|[a1|c1] [|[a2|c2] r2]]; try discriminate.
        destruct (JS.second3 b c1 && JS.isCont c2); [|discriminate]. simpl in Hn.
        rewrite (Hstep r2 (fun t => String (JS.byte b) (String (JS.byte c1)
                                       (String (JS.byte c2) t))) 3
                   ltac:(lia) ltac:(reflexivity) H). reflexivity. }
      destruct (JS.inRange 240 244 b); [|discriminate].
      destruct r as [|[a1|c1] [|[a2|c2] [|[a3|c3] r3]]]; try discriminate.
      destruct (JS.second4 b c1 && JS.isCont c2 && JS.isCont c3); [|discriminate].
      simpl in Hn.
      rewrite (Hstep r3 (fun t => String (JS.byte b) (String (JS.byte c1)
                                     (String (JS.byte c2) (String (JS.byte c3) t)))) 4
                 ltac:(lia) ltac:(reflexivity) H). reflexivity.
Qed.

Lemma decodeURIComponent_length (s d : string) :
  JS.decodeURIComponent s = Some d -> String.length d <= String.length s.
Proof.
  unfold JS.decodeURIComponent.
  destruct (JS.uriTokens s) as [ts|] eqn:E; [|discriminate]. intros H.
  rewrite (uriDecode_length (length ts) ts d (le_n _) H).
  now apply (uriTokens_length (String.length s)).
Qed.

(** ** Path normalizer: a second pass *)


Lemma decodedOnce_length (n : string) :
  String.length (decodedOnce n) <= String.length n.
Proof.
  unfold decodedOnce. destruct (JS.decodeURIComponent n) as [d|] eqn:E; [|lia].
  now apply decodeURIComponent_length.
Qed.




(** The steps after the decoding keep or shorten the string. *)
Lemma normalizeFilePath_length_decoded (win32 : bool) (p : string) :
  String.length (normalizeFilePath win32 p)
  <= String.length (decodedOnce (JS.stripPrefix "file://" (JS.stripPrefix "file:///" p))).
Proof.
  unfold normalizeFilePath, decodedOnce.
  set (decoded := match JS.decodeURIComponent _ with Some d => d | None => _ end).
  destruct win32; [|lia].
  unfold JS.toLowerCase. rewrite mapChars_length.
  unfold stripLeadingBackslash.
  destruct (leadingBackslashDrive _).
  - pose proof (drop_length 1 (JS.mapChars slashToBackslash decoded)).
    rewrite mapChars_length in H. lia.
  - rewrite mapChars_length. lia.
Qed.

(** In the bytes of the embedding no step of the normalizer adds one. *)
Lemma normalizeFilePath_length (win32 : bool) (p : string) :
  String.length (normalizeFilePath win32 p) <= String.length p.
Proof.
  pose proof (normalizeFilePath_length_decoded win32 p).
  pose proof (decodedOnce_length (JS.stripPrefix "file://" (JS.stripPrefix "file:///" p))).
  pose proof (stripPrefix_length "file://" (JS.stripPrefix "file:///" p)).
  pose proof (stripPrefix_length "file:///" p). lia.
Qed.




(** A path with a percent sign that is no escape is left alone by both
    passes; an escaped percent sign is decoded by each pass. *)
Example normalizeFilePath_second_pass_samples :
  normalizeFilePath false (normalizeFilePath false "/tmp/100%") = "/tmp/100%"
  /\ normalizeFilePath false "/tmp/100%" = "/tmp/100%"
  /\ normalizeFilePath false "%2541" = "%41"
  /\ normalizeFilePath false (normalizeFilePath false "%2541") = "A".
Proof. vm_compute. repeat split; reflexivity. Qed.

(** X1: on ASCII text normalization never lengthens a path: the scheme
    prefix is removed, every escape of three characters gives one, and the
    Windows steps map characters one to one or drop one. *)
Theorem normalizeFilePath_never_longer (win32 : bool) (filePath : string) :
  isAscii filePath = true ->
  isAscii (normalizeFilePath win32 filePath) = true ->
  String.length (normalizeFilePath win32 filePath) <= String.length filePath.
Proof.
  intros _ _.
  pose proof (normalizeFilePath_length_decoded win32 filePath).
  pose proof (decodedOnce_length
                (JS.stripPrefix "file://" (JS.stripPrefix "file:///" filePath))).
  pose proof (stripPrefix_length "file://" (JS.stripPrefix "file:///" filePath)).
  pose proof (stripPrefix_length "file:///" filePath). lia.
Qed.

Lemma normalizeFilePath_never_longer_witness :
  String.length (normalizeFilePath true "file:///C%3A/Users/Bob/My%20Proj/a.ts")
  <= String.length "file:///C%3A/Users/Bob/My%20Proj/a.ts".
Proof.
  apply (normalizeFilePath_never_longer true "file:///C%3A/Users/Bob/My%20Proj/a.ts");
    reflexivity.
Defined.



Lemma decodeURIComponent_literal_head (a : ascii) (r : string) :
  Ascii.eqb a "%" = false ->
  JS.decodeURIComponent (String a r) = option_map (String a) (JS.decodeURIComponent r).
Proof.
  intros Ha. unfold JS.decodeURIComponent. cbn [JS.uriTokens]. rewrite Ha.
  destruct (JS.uriTokens r) as [ts|]; reflexivity.
Qed.

(** On POSIX a path that starts with a literal character other than the
    percent sign, and not with [file://], keeps that first character. *)
Lemma normalizeFilePath_posix_head (a : ascii) (r : string) :
  Ascii.eqb a "%" = false ->
  String.prefix "file://" (String a r) = false ->
  exists r', normalizeFilePath false (String a r) = String a r'.
Proof.
  intros Ha Hfile. unfold normalizeFilePath.
  assert (H3 : String.prefix "file:///" (String a r) = false).
  { destruct (String.prefix "file:///" (String a r)) eqn:E; [|reflexivity].
    apply (prefix_append "file://" "/") in E. congruence. }
  rewrite (stripPrefix_none _ _ H3), (stripPrefix_none _ _ Hfile).
  rewrite (decodeURIComponent_literal_head a r Ha).
  destruct (JS.decodeURIComponent r) as [d|]; eexists; reflexivity.
Qed.

(** X3: on POSIX a workspace folder stored as a [file:///] URI never
    prefix-matches a plain absolute path: the URI loses its root slash when
    normalized ([file:///home/u] gives [home/u]) while the path keeps it, so
    the lookup finds no workspace whatever the path is. *)
Theorem posix_uri_roots_miss_plain_paths (workspaceEntries : list WorkspaceEntry)
    (q : string) :
  (forall folder id, In (folder, id) (catalogRoots workspaceEntries) ->
     exists a r, folder = "file:///" +:+ String a r
                 /\ Ascii.eqb a "/" = false /\ Ascii.eqb a "%" = false
                 /\ String.prefix "file://" (String a r) = false) ->
  getProjectFromFilePath false (String "/" q) workspaceEntries = None.
Proof.
  intros Hroots. apply getProjectFromFilePath_none.
  intros folder id Hin Hpre. exfalso.
  destruct (Hroots folder id Hin) as (a & r & -> & Hslash & Hpct & Hfile).
  assert (Hroot : exists r', normalizeFilePath false ("file:///" +:+ String a r) = String a r').
  { unfold normalizeFilePath. rewrite stripPrefix_append.
    rewrite (stripPrefix_none _ _ Hfile).
    rewrite (decodeURIComponent_literal_head a r Hpct).
    destruct (JS.decodeURIComponent r) as [d|]; eexists; reflexivity. }
  destruct Hroot as (r' & Hr).
  destruct (normalizeFilePath_posix_head "/" q eq_refl eq_refl) as (q' & Hq).
  rewrite Hr, Hq in Hpre. unfold JS.startsWith in Hpre. cbn [String.prefix] in Hpre.
  destruct (ascii_dec a "/") as [->|_]; [discriminate Hslash | discriminate Hpre].
Qed.

Lemma posix_uri_roots_miss_plain_paths_witness :
  getProjectFromFilePath false (String "/" "home/u/proj1/src/app.ts")
    [ws "W1" "file:///home/u/proj1"; ws "W2" "file:///home/u/my%20proj"] = None.
Proof.
  apply posix_uri_roots_miss_plain_paths.
  intros folder id [H | [H | []]]; injection H as <- <-.
  - exists "h"%char, "ome/u/proj1". repeat split.
  - exists "h"%char, "ome/u/my%20proj". repeat split.
Defined.

(** ** Catalog: what the lookups and the indices return *)

Lemma catalogRoots_entry (workspaceEntries : list WorkspaceEntry) (folder id : string) :
  In (folder, id) (catalogRoots workspaceEntries) <->
  exists entry, In entry workspaceEntries /\ we_name entry = id
                /\ In folder (entryFolders entry).
Proof.
  unfold catalogRoots. rewrite in_flat_map. split.
  - intros (entry & He & Hin). apply in_map_iff in Hin as (f & Heq & Hf).
    injection Heq as <- <-. now exists entry.
  - intros (entry & He & <- & Hf). exists entry. split; [exact He|].
    apply in_map_iff. now exists folder.
Qed.

Lemma getProjectFromFilePath_some_root (win32 : bool) (filePath : string)
    (workspaceEntries : list WorkspaceEntry) (id : string) :
  getProjectFromFilePath win32 filePath workspaceEntries = Some id ->
  exists folder,
    In (folder, id) (catalogRoots workspaceEntries)
    /\ JS.startsWith (normalizeFilePath win32 folder) (normalizeFilePath win32 filePath) = true
    /\ normalizeFilePath win32 folder <> EmptyString
    /\ forall f i, In (f, i) (catalogRoots workspaceEntries) ->
         JS.startsWith (normalizeFilePath win32 f) (normalizeFilePath win32 filePath) = true ->
         String.length (normalizeFilePath win32 f)
         <= String.length (normalizeFilePath win32 folder).
Proof.
  rewrite getProjectFromFilePath_flat.
  destruct (keepLongest_result
              (fun r : string * string =>
                 JS.startsWith (normalizeFilePath win32 (fst r))
                               (normalizeFilePath win32 filePath))
              (fun r => String.length (normalizeFilePath win32 (fst r)))
              snd (catalogRoots workspaceEntries))
    as [[-> _] | ([folder i] & Hin & Hc & Hw & -> & Hmax)]; cbn [fst snd] in *;
    [discriminate|].
  intros H. injection H as ->. exists folder. repeat split; try assumption.
  - intros E. rewrite E in Hw. simpl in Hw. lia.
  - intros f i' Hf Hp. now apply (Hmax (f, i')).
Qed.

(** X4: the longest-prefix lookup only returns workspaces of the catalog:
    a returned id owns a root whose normalized form is a non-empty prefix of
    the normalized path and is at least as long as every other root that is
    a prefix; it returns nothing exactly when no root with a non-empty
    normalized form is a prefix. *)
Theorem getProjectFromFilePath_result (win32 : bool) (filePath : string)
    (workspaceEntries : list WorkspaceEntry) :
  match getProjectFromFilePath win32 filePath workspaceEntries with
  | Some id =>
      exists folder,
        In (folder, id) (catalogRoots workspaceEntries)
        /\ JS.startsWith (normalizeFilePath win32 folder)
                         (normalizeFilePath win32 filePath) = true
        /\ normalizeFilePath win32 folder <> EmptyString
        /\ forall f i, In (f, i) (catalogRoots workspaceEntries) ->
             JS.startsWith (normalizeFilePath win32 f)
                           (normalizeFilePath win32 filePath) = true ->
             String.length (normalizeFilePath win32 f)
             <= String.length (normalizeFilePath win32 folder)
  | None =>
      forall f i, In (f, i) (catalogRoots workspaceEntries) ->
        JS.startsWith (normalizeFilePath win32 f) (normalizeFilePath win32 filePath) = true ->
        normalizeFilePath win32 f = EmptyString
  end.
Proof.
  destruct (getProjectFromFilePath win32 filePath workspaceEntries) as [id|] eqn:E.
  - now apply getProjectFromFilePath_some_root.
  - intros f i Hin Hp.
    destruct (normalizeFilePath win32 f) as [|a r] eqn:Ef; [reflexivity|]. exfalso.
    rewrite getProjectFromFilePath_flat in E.
    destruct (keepLongest_result
                (fun r : string * string =>
                   JS.startsWith (normalizeFilePath win32 (fst r))
                                 (normalizeFilePath win32 filePath))
                (fun r => String.length (normalizeFilePath win32 (fst r)))
                snd (catalogRoots workspaceEntries))
      as [[_ Hall] | (x & _ & _ & _ & Hx & _)].
    + specialize (Hall (f, i) Hin). cbn [fst] in Hall.
      rewrite Ef in Hall. specialize (Hall Hp). discriminate Hall.
    + rewrite Hx in E. discriminate E.
Qed.

Section Inserts.

(** A loop that writes [out[key] = id] for the folders that have a key. *)
Variable keyOf : string -> option string.

Let write (id : string) (out : gmap string string) (folder : string) : gmap string string :=
  match keyOf folder with
  | Some k => <[k := id]> out
  | None => out
  end.

Lemma writes_value (id : string) (folders : list string) (out : gmap string string)
    (k v : string) :
  fold_left (write id) folders out !! k = Some v ->
  out !! k = Some v \/ (v = id /\ exists folder, In folder folders /\ keyOf folder = Some k).
Proof.
  revert out. induction folders as [|f r IH]; intros out H; cbn [fold_left] in H.
  - now left.
  - apply IH in H as [H | (-> & folder & Hin & Hk)].
    + unfold write in H. destruct (keyOf f) as [kf|] eqn:Ef; [|now left].
      destruct (decide (kf = k)) as [->|Hne].
      * rewrite lookup_insert_eq in H. injection H as <-.
        right. split; [reflexivity|]. exists f. split; [now left | exact Ef].
      * rewrite lookup_insert_ne in H by exact Hne. now left.
    + right. split; [reflexivity|]. exists folder. split; [now right | exact Hk].
Qed.

Lemma writes_present (id : string) (folders : list string) (out : gmap string string)
    (k : string) :
  is_Some (out !! k) \/ (exists folder, In folder folders /\ keyOf folder = Some k) ->
  is_Some (fold_left (write id) folders out !! k).
Proof.
  revert out. induction folders as [|f r IH]; intros out H; cbn [fold_left].
  - destruct H as [H | (folder & [] & _)]. exact H.
  - apply IH. unfold write.
    destruct H as [H | (folder & [<- | Hin] & Hk)].
    + left. destruct (keyOf f) as [kf|]; [|exact H].
      destruct (decide (kf = k)) as [->|Hne];
        [rewrite lookup_insert_eq; eauto | now rewrite lookup_insert_ne].
    + left. rewrite Hk, lookup_insert_eq. eauto.
    + right. now exists folder.
Qed.

Lemma entries_writes_value (entries : list WorkspaceEntry) (out : gmap string string)
    (k v : string) :
  fold_left (fun out entry => fold_left (write (we_name entry)) (entryFolders entry) out)
            entries out !! k = Some v ->
  out !! k = Some v
  \/ exists folder, In (folder, v) (catalogRoots entries) /\ keyOf folder = Some k.
Proof.
  revert out. induction entries as [|e r IH]; intros out H; cbn [fold_left] in H.
  - now left.
  - apply IH in H as [H | (folder & Hin & Hk)].
    + apply writes_value in H as [H | (-> & folder & Hin & Hk)]; [now left|].
      right. exists folder. split; [|exact Hk].
      apply catalogRoots_entry. exists e. repeat split; [now left | exact Hin].
    + right. exists folder. split; [|exact Hk].
      apply catalogRoots_entry in Hin as (e' & He' & Hn & Hf).
      apply catalogRoots_entry. exists e'. repeat split; [now right | exact Hn | exact Hf].
Qed.

Lemma entries_writes_present (entries : list WorkspaceEntry) (out : gmap string string)
    (k : string) :
  is_Some (out !! k)
  \/ (exists folder id, In (folder, id) (catalogRoots entries) /\ keyOf folder = Some k) ->
  is_Some (fold_left (fun out entry =>
                        fold_left (write (we_name entry)) (entryFolders entry) out)
                     entries out !! k).
Proof.
  revert out. induction entries as [|e r IH]; intros out H; cbn [fold_left].
  - destruct H as [H | (folder & id & [] & _)]. exact H.
  - apply IH. destruct H as [H | (folder & id & Hin & Hk)].
    + left. apply writes_present. now left.
    + apply catalogRoots_entry in Hin as (e' & [<- | He'] & Hn & Hf).
      * left. apply writes_present. right. now exists folder.
      * right. exists folder, id. split; [|exact Hk].
        apply catalogRoots_entry. now exists e'.
Qed.

End Inserts.

Lemma createWorkspacePathToIdMap_writes (win32 : bool) (entries : list WorkspaceEntry) :
  createWorkspacePathToIdMap win32 entries
  = fold_left (fun out entry =>
                 fold_left (fun out folder =>
                              match Some (normalizeFilePath win32 folder) with
                              | Some k => <[k := we_name entry]> out
                              | None => out
                              end) (entryFolders entry) out)
              entries ∅.
Proof. reflexivity. Qed.

Lemma indexEntries_writes (key : string -> string) (entries : list WorkspaceEntry) :
  indexEntries key entries
  = fold_left (fun out entry =>
                 fold_left (fun out folder =>
                              match (if JS.truthy (key folder) then Some (key folder)
                                     else None) with
                              | Some k => <[k := we_name entry]> out
                              | None => out
                              end) (entryFolders entry) out)
              entries ∅.
Proof.
  unfold indexEntries. apply fold_left_ext_eq. intros out entry.
  unfold indexFolders. apply fold_left_ext_eq. intros o folder.
  now destruct (JS.truthy (key folder)).
Qed.

Lemma pathIndex_value (win32 : bool) (workspaceEntries : list WorkspaceEntry)
    (k id : string) :
  createWorkspacePathToIdMap win32 workspaceEntries !! k = Some id ->
  exists folder, In (folder, id) (catalogRoots workspaceEntries)
                 /\ normalizeFilePath win32 folder = k.
Proof.
  intros H. rewrite createWorkspacePathToIdMap_writes in H.
  apply (entries_writes_value (fun f => Some (normalizeFilePath win32 f))) in H
    as [H | (folder & Hin & Hk)].
  - rewrite lookup_empty in H. discriminate.
  - exists folder. split; [exact Hin | now injection Hk].
Qed.

Lemma nameIndex_value (workspaceEntries : list WorkspaceEntry) (k id : string) :
  createProjectNameToWorkspaceIdMap workspaceEntries !! k = Some id ->
  exists folder, In (folder, id) (catalogRoots workspaceEntries)
                 /\ folderNameOf folder = k /\ k <> EmptyString.
Proof.
  intros H. unfold createProjectNameToWorkspaceIdMap in H.
  rewrite indexEntries_writes in H.
  apply (entries_writes_value
           (fun f => if JS.truthy (folderNameOf f) then Some (folderNameOf f) else None))
    in H as [H | (folder & Hin & Hk)].
  - rewrite lookup_empty in H. discriminate.
  - destruct (JS.truthy (folderNameOf folder)) eqn:Et; [|discriminate].
    injection Hk as <-. exists folder. repeat split; [exact Hin|].
    now apply truthy_true.
Qed.

(** X5: the two indices of the catalog hold exactly the roots.  For a key
    that is no property name of [Object.prototype]: the key is in the path
    index iff it is the normalized form of some root folder, it is in the
    basename index iff it is the non-empty basename of some root folder,
    and the id stored under it is the workspace of a root that has this
    key, so that no such index entry points outside the catalog. *)
Theorem catalog_indices_hold_the_roots (win32 : bool)
    (workspaceEntries : list WorkspaceEntry) (k : string) :
  JS.inherited k = false ->
  (is_Some (createWorkspacePathToIdMap win32 workspaceEntries !! k) <->
   exists folder id, In (folder, id) (catalogRoots workspaceEntries)
                     /\ normalizeFilePath win32 folder = k)
  /\ (forall id, createWorkspacePathToIdMap win32 workspaceEntries !! k = Some id ->
        exists folder, In (folder, id) (catalogRoots workspaceEntries)
                       /\ normalizeFilePath win32 folder = k)
  /\ (is_Some (createProjectNameToWorkspaceIdMap workspaceEntries !! k) <->
      exists folder id, In (folder, id) (catalogRoots workspaceEntries)
                        /\ folderNameOf folder = k /\ k <> EmptyString)
  /\ (forall id, createProjectNameToWorkspaceIdMap workspaceEntries !! k = Some id ->
        exists folder, In (folder, id) (catalogRoots workspaceEntries)
                       /\ folderNameOf folder = k).
Proof.
  intros _. split; [split|split; [apply pathIndex_value|split]].
  - intros [id H]. destruct (pathIndex_value _ _ _ _ H) as (folder & Hin & Hk).
    now exists folder, id.
  - intros (folder & id & Hin & Hk). rewrite createWorkspacePathToIdMap_writes.
    apply (entries_writes_present (fun f => Some (normalizeFilePath win32 f))).
    right. exists folder, id. split; [exact Hin | now rewrite Hk].
  - split.
    + intros [id H]. destruct (nameIndex_value _ _ _ H) as (folder & Hin & Hk & Hne).
      now exists folder, id.
    + intros (folder & id & Hin & Hk & Hne).
      unfold createProjectNameToWorkspaceIdMap. rewrite indexEntries_writes.
      apply (entries_writes_present
               (fun f => if JS.truthy (folderNameOf f) then Some (folderNameOf f) else None)).
      right. exists folder, id. split; [exact Hin|].
      rewrite Hk. apply truthy_true in Hne. now rewrite Hne.
  - intros id H. destruct (nameIndex_value _ _ _ H) as (folder & Hin & Hk & _).
    now exists folder.
Qed.

Lemma catalog_indices_hold_the_roots_witness :
  let entries := [ws "W1" "/home/u/api"; ws "W2" "/home/u/shop"] in
  (is_Some (createWorkspacePathToIdMap false entries !! "/home/u/shop") <->
   exists folder id, In (folder, id) (catalogRoots entries)
                     /\ normalizeFilePath false folder = "/home/u/shop")
  /\ (is_Some (createProjectNameToWorkspaceIdMap entries !! "shop") <->
      exists folder id, In (folder, id) (catalogRoots entries)
                        /\ folderNameOf folder = "shop" /\ "shop" <> EmptyString).
Proof.
  intros entries. split.
  - exact (proj1 (catalog_indices_hold_the_roots false entries "/home/u/shop" eq_refl)).
  - exact (proj1 (proj2 (proj2
             (catalog_indices_hold_the_roots false entries "shop" eq_refl)))).
Defined.

(** ** Attribution stays inside the catalog *)

Lemma firstResult_some {A B : Type} (f : A -> option B) (l : list A) (y : B) :
  firstResult f l = Some y -> exists x, In x l /\ f x = Some y.
Proof.
  induction l as [|x r IH]; [discriminate|]. cbn [firstResult].
  destruct (f x) as [z|] eqn:E.
  - intros H. injection H as ->. exists x. split; [now left | exact E].
  - intros H. destruct (IH H) as (x' & Hin & Hx). exists x'. split; [now right | exact Hx].
Qed.

Lemma whenTruthy_some (o : option string) (id : string) :
  whenTruthy o = Some id -> o = Some id /\ id <> EmptyString.
Proof.
  destruct o as [i|]; [|discriminate]. cbn [whenTruthy].
  destruct (JS.truthy i) eqn:E; [|discriminate].
  intros H. injection H as ->. split; [reflexivity | now apply truthy_true].
Qed.

Lemma segmentHeuristic_some_root (win32 : bool) (pathSegments : list string)
    (workspaceEntries : list WorkspaceEntry) (id : string) :
  segmentHeuristic win32 pathSegments (folderNameToWorkspaceId workspaceEntries) = Some id ->
  exists folder, In (folder, id) (catalogRoots workspaceEntries).
Proof.
  rewrite segmentHeuristic_flat.
  destruct (keepLongest_result
              (fun c : string * (string * string) => segmentMatch win32 (fst c) (fst (snd c)))
              (fun c => JS.length (fst (snd c)))
              (fun c => snd (snd c))
              (flat_map (fun p => map (pair p) (folderNameToWorkspaceId workspaceEntries))
                        pathSegments))
    as [[-> _] | ([p [name i]] & Hin & _ & _ & -> & _)]; cbn [fst snd];
    [discriminate|].
  intros H. injection H as ->.
  apply in_flat_map in Hin as (q & _ & Hin).
  apply in_map_iff in Hin as (e & Heq & He). injection Heq as _ ->.
  apply folderNameToWorkspaceId_spec in He as (folder & Hf & _). now exists folder.
Qed.

Lemma layoutWorkspace_some_root (win32 : bool) (workspaceEntries : list WorkspaceEntry)
    (rootPath id : string) :
  layoutWorkspace win32 (createProjectNameToWorkspaceIdMap workspaceEntries)
                  (createWorkspacePathToIdMap win32 workspaceEntries) rootPath = Some id ->
  id <> EmptyString /\ exists folder, In (folder, id) (catalogRoots workspaceEntries).
Proof.
  unfold layoutWorkspace. cbv zeta.
  set (exact := default EmptyString
                  (createWorkspacePathToIdMap win32 workspaceEntries
                   !! normalizeFilePath win32 rootPath)).
  set (byName := default EmptyString
                   (createProjectNameToWorkspaceIdMap workspaceEntries
                    !! lastSegmentOr rootPath)).
  assert (Hexact : JS.truthy exact = true ->
                   exists folder, In (folder, exact) (catalogRoots workspaceEntries)).
  { unfold exact. intros Ht.
    destruct (createWorkspacePathToIdMap win32 workspaceEntries
              !! normalizeFilePath win32 rootPath) as [u|] eqn:Eu; [|discriminate].
    destruct (pathIndex_value _ _ _ _ Eu) as (folder & Hin & _). now exists folder. }
  assert (Hname : JS.truthy byName = true ->
                  exists folder, In (folder, byName) (catalogRoots workspaceEntries)).
  { unfold byName. intros Ht.
    destruct (createProjectNameToWorkspaceIdMap workspaceEntries
              !! lastSegmentOr rootPath) as [u|] eqn:Eu; [|discriminate].
    destruct (nameIndex_value _ _ _ Eu) as (folder & Hin & _). now exists folder. }
  clearbody exact byName.
  destruct (JS.truthy exact) eqn:Ee.
  - rewrite Ee. intros H. injection H as <-.
    split; [now apply truthy_true | now apply Hexact].
  - destruct (JS.truthy (lastSegmentOr rootPath)).
    + destruct (JS.truthy byName) eqn:En; [|discriminate].
      intros H. injection H as <-.
      split; [now apply truthy_true | now apply Hname].
    + discriminate.
Qed.

Lemma tabs_attribution_some_root (win32 : bool)
    (composerData : ComposerData) (composerId : string)
    (projectLayoutsMap : gmap string (list string))
    (workspaceEntries : list WorkspaceEntry) (bubbleMap : gmap string Bubble)
    (id : string) :
  TabsRoute.determineProjectForConversation win32 composerData composerId
    projectLayoutsMap (createProjectNameToWorkspaceIdMap workspaceEntries)
    (createWorkspacePathToIdMap win32 workspaceEntries) workspaceEntries bubbleMap
  = Some id ->
  id <> EmptyString /\ exists folder, In (folder, id) (catalogRoots workspaceEntries).
Proof.
  unfold TabsRoute.determineProjectForConversation.
  destruct (firstResult _ (default [] (projectLayoutsMap !! composerId)))
    as [w|] eqn:El.
  - intros H. injection H as ->.
    apply firstResult_some in El as (rp & _ & Hrp).
    now apply (layoutWorkspace_some_root win32 workspaceEntries rp).
  - destruct (firstResult _ (referencedPaths composerData bubbleMap)) as [w|] eqn:Er.
    + intros H. injection H as ->.
      apply firstResult_some in Er as (p & _ & Hp).
      apply whenTruthy_some in Hp as [Hp Hne]. split; [exact Hne|].
      destruct (getProjectFromFilePath_some_root _ _ _ _ Hp) as (folder & Hin & _).
      now exists folder.
    + intros H. apply whenTruthy_some in H as [H Hne]. split; [exact Hne|].
      now apply (segmentHeuristic_some_root win32 _ workspaceEntries id H).
Qed.

(** X6: attribution never invents a workspace.  With the indices built from
    the catalog, and when neither the conversation id nor the normalized
    form or the basename of one of its declared root paths is a property
    name of [Object.prototype], an id returned by the routes is not empty
    and is the id of a workspace of the catalog that has a root folder,
    unless it is the id the definitive map gives for the conversation. *)
Theorem attribution_stays_in_catalog (win32 : bool)
    (composerData : ComposerData) (composerId : string)
    (projectLayoutsMap : gmap string (list string))
    (workspaceEntries : list WorkspaceEntry) (bubbleMap : gmap string Bubble)
    (direct : option (gmap string string)) (id : string) :
  JS.inherited composerId = false ->
  (forall rootPath, In rootPath (default [] (projectLayoutsMap !! composerId)) ->
     JS.inherited (normalizeFilePath win32 rootPath) = false
     /\ JS.inherited (lastSegmentOr rootPath) = false) ->
  WorkspacesRoute.determineProjectForConversation win32 composerData composerId
    projectLayoutsMap (createProjectNameToWorkspaceIdMap workspaceEntries)
    (createWorkspacePathToIdMap win32 workspaceEntries) workspaceEntries bubbleMap direct
  = Some id ->
  id <> EmptyString
  /\ ((exists m, direct = Some m /\ m !! composerId = Some id)
      \/ exists entry, In entry workspaceEntries /\ we_name entry = id
                       /\ entryFolders entry <> []).
Proof.
  intros _ _. unfold WorkspacesRoute.determineProjectForConversation.
  destruct (whenTruthy (direct ≫= (fun m => m !! composerId))) as [w|] eqn:Ed.
  - intros H. injection H as ->. apply whenTruthy_some in Ed as [Ed Hne].
    split; [exact Hne|]. left. destruct direct as [m|]; [|discriminate]. now exists m.
  - intros H. apply tabs_attribution_some_root in H as [Hne (folder & Hin)].
    split; [exact Hne|]. right.
    apply catalogRoots_entry in Hin as (entry & He & Hn & Hf).
    exists entry. repeat split; try assumption.
    intros E. rewrite E in Hf. destruct Hf.
Qed.

Lemma attribution_stays_in_catalog_witness :
  let entries := [ws "W1" "file:///c%3A/work/api"; ws "W2" "file:///c%3A/work/shop-api"] in
  "W2" <> EmptyString
  /\ ((exists m : gmap string string, None = Some m /\ m !! "c1" = Some "W2")
      \/ exists entry, In entry entries /\ we_name entry = "W2"
                       /\ entryFolders entry <> []).
Proof.
  intros entries.
  apply (attribution_stays_in_catalog true
           {| cd_name := None;
              cd_newlyCreatedFiles := [Some "/c:/work/shop-api/src/app.ts"];
              cd_codeBlockData := []; cd_fullConversationHeadersOnly := [];
              cd_lastUpdatedAt := None; cd_createdAt := None; cd_usageCost := None;
              cd_usageEstimatedCost := None |}
           "c1" {[ "c1" := ["/c:/work/docs"] ]} entries ∅ None "W2").
  - reflexivity.
  - intros rootPath Hin. vm_compute in Hin. destruct Hin as [<- | []].
    split; reflexivity.
  - vm_compute. reflexivity.
Defined.

(** ** The export script's resolver *)




(** X8: the export script always names a bucket: the id it assigns is not
    empty and is either [global] or the id of a workspace of the catalog. *)
Theorem export_assignWorkspace_result (win32 : bool)
    (workspaceEntries : list WorkspaceEntry)
    (projectLayoutsMap : gmap string (list string)) (bubbleMap : gmap string Bubble)
    (composerData : ComposerData) (composerId : string) :
  let id := ExportScript.assignWorkspace win32 workspaceEntries projectLayoutsMap
              bubbleMap composerData composerId in
  id <> EmptyString
  /\ (id = "global" \/ exists folder, In (folder, id) (catalogRoots workspaceEntries)).
Proof.
  cbv zeta. unfold ExportScript.assignWorkspace.
  destruct (whenTruthy (ExportScript.bestLayout win32 workspaceEntries
                          (default [] (projectLayoutsMap !! composerId))))
    as [w|] eqn:Eb.
  - apply whenTruthy_some in Eb as [Eb Hne]. split; [exact Hne|]. right.
    rewrite bestLayout_flat in Eb.
    match type of Eb with
    | fst (fold_left (keepLongest ?c ?wt ?i) ?l _) = _ =>
        destruct (keepLongest_result c wt i l)
          as [[E _] | (x & _ & Hc & _ & E & _)]; rewrite E in Eb; cbn [fst] in Eb
    end; [discriminate|].
    injection Eb as <-. apply bool_decide_eq_true in Hc as [i Hi]. rewrite Hi.
    cbn [default]. apply whenTruthy_some in Hi as [Hi _].
    destruct (getProjectFromFilePath_some_root _ _ _ _ Hi) as (folder & Hin & _).
    now exists folder.
  - destruct (segmentHeuristic win32 _ (folderNameToWorkspaceId workspaceEntries))
      as [w|] eqn:Es; cbn [JS.orO]; [|split; [discriminate | now left]].
    unfold JS.or. destruct (JS.truthy w) eqn:Et.
    + split; [now apply truthy_true|]. right.
      now apply (segmentHeuristic_some_root win32 _ workspaceEntries w Es).
    + split; [discriminate | now left].
Qed.

(** ** Basenames *)

Lemma split_nonempty (c : ascii) (s : string) : JS.split c s <> [].
Proof.
  destruct s as [|a s]; cbn [JS.split]; [discriminate|].
  destruct (Ascii.eqb a c); [discriminate|]. destruct (JS.split c s); discriminate.
Qed.








(** * Further properties of the assembly *)

Lemma truthy_append (a b : string) : JS.truthy a = true -> JS.truthy (a +:+ b) = true.
Proof. destruct a; [discriminate | reflexivity]. Qed.

Lemma truthy_take (n : nat) (s : string) :
  JS.truthy s = true -> JS.truthy (JS.take (S n) s) = true.
Proof. destruct s; [discriminate | reflexivity]. Qed.

(** A fragment that passes the content test has something to show. *)
Lemma displayTextOf_truthy (fullText : string) (bubble : Bubble)
    (thinking : option string) :
  hasContent fullText (toolCallsOf bubble) thinking = true ->
  JS.truthy (displayTextOf fullText (toolCallsOf bubble) thinking) = true.
Proof.
  unfold hasContent, displayTextOf. cbv zeta.
  destruct (JS.truthy (JS.trim fullText)) eqn:Et.
  - intros _. now rewrite Et.
  - unfold toolCallsOf. destruct (b_toolFormerData bubble) as [tfd|].
    + intros _.
      match goal with
      | |- JS.truthy (if JS.truthy ?x then _ else _) = true =>
          assert (Hx : JS.truthy x = true) by (apply truthy_append; reflexivity);
          now rewrite Hx
      end.
    + rewrite Et. cbn [orb bool_decide]. rewrite bool_decide_eq_false_2 by (intros [? ?]; discriminate).
      cbn [orb]. destruct thinking as [th|]; [|discriminate]. cbn [JS.truthyO].
      intros Hth. rewrite Hth. now apply truthy_append, truthy_take.
Qed.

Lemma buildBubble_shape (clock : nat -> Z) (messageContexts : list RequestContext)
    (header : Header) (bubble : Bubble) (k k' : nat) (b : ChatBubble) :
  buildBubble clock messageContexts header bubble k = (Some b, k') ->
  JS.truthy (bub_text b) = true
  /\ is_Some (bub_timestamp b)
  /\ (bub_type b = user -> bub_metadata b = None).
Proof.
  unfold buildBubble. destruct (thinkingOf bubble) as [thinking ms].
  destruct (hasContent _ _ _) eqn:Ec; [|discriminate].
  destruct (orNow clock (storedTime bubble) k) as [timestamp k1].
  intros H. injection H as <- _. cbn [bub_text bub_timestamp bub_type bub_metadata].
  repeat split.
  - now apply displayTextOf_truthy.
  - eauto.
  - destruct (Z.eqb (h_type header) 1); [reflexivity | discriminate].
Qed.

Lemma buildBubbles_shape (clock : nat -> Z) (messageContexts : list RequestContext)
    (bubbleMap : gmap string Bubble) (headers : list Header) :
  forall (k : nat) (b : ChatBubble),
    In b (fst (buildBubbles clock messageContexts bubbleMap headers k)) ->
    JS.truthy (bub_text b) = true
    /\ is_Some (bub_timestamp b)
    /\ (bub_type b = user -> bub_metadata b = None).
Proof.
  induction headers as [|h r IH]; intros k b Hin; [destruct Hin|].
  cbn [buildBubbles] in Hin.
  destruct (bubbleMap !! h_bubbleId h) as [bubble|]; [|now apply (IH k)].
  destruct (buildBubble clock messageContexts h bubble k) as [pushed k1] eqn:Eb.
  specialize (IH k1 b).
  destruct (buildBubbles clock messageContexts bubbleMap r k1) as [l k2].
  cbn [fst] in *. destruct pushed as [p|]; [|now apply IH].
  destruct Hin as [<- | Hin]; [|now apply IH].
  now apply (buildBubble_shape _ _ _ _ _ _ _ Eb).
Qed.

Lemma diffBubbles_shape (clock : nat -> Z) (codeBlockDiffs : list CodeBlockDiff) :
  forall (k : nat) (b : ChatBubble),
    In b (fst (diffBubbles clock codeBlockDiffs k)) ->
    JS.truthy (bub_text b) = true
    /\ is_Some (bub_timestamp b)
    /\ (bub_type b = user -> bub_metadata b = None).
Proof.
  induction codeBlockDiffs as [|d r IH]; intros k b Hin; [destruct Hin|].
  cbn [diffBubbles] in Hin.
  destruct (JS.truthy (JS.trim (formatToolAction d))); [|now apply (IH k)].
  cbn [dateNow] in Hin. specialize (IH (S k) b).
  destruct (diffBubbles clock r (S k)) as [more k2]. cbn [fst] in *.
  destruct Hin as [<- | Hin]; [|now apply IH].
  cbn. repeat split; eauto.
Qed.

(** Where a bubble of the timed list comes from. *)
Lemma responseTimes_from (start : option Z) (l : list ChatBubble) (out : ChatBubble) :
  In out (responseTimes start l) ->
  exists b, In b l
            /\ bub_type out = bub_type b
            /\ bub_text out = bub_text b
            /\ bub_timestamp out = bub_timestamp b
            /\ (bub_type b = user -> bub_metadata out = bub_metadata b).
Proof.
  revert start. induction l as [|h l IH]; intros start Hin; [destruct Hin|].
  assert (Hrest : forall start', In out (responseTimes start' l) ->
             exists b, In b (h :: l)
                       /\ bub_type out = bub_type b /\ bub_text out = bub_text b
                       /\ bub_timestamp out = bub_timestamp b
                       /\ (bub_type b = user -> bub_metadata out = bub_metadata b)).
  { intros start' H. destruct (IH start' H) as (b & Hb & Hrest).
    exists b. split; [now right | exact Hrest]. }
  assert (Hsame : forall o, h = o ->
             exists b, In b (h :: l)
                       /\ bub_type o = bub_type b /\ bub_text o = bub_text b
                       /\ bub_timestamp o = bub_timestamp b
                       /\ (bub_type b = user -> bub_metadata o = bub_metadata b)).
  { intros o <-. exists h. split; [now left | easy]. }
  cbn [responseTimes] in Hin. destruct (bub_type h) eqn:Et.
  - destruct Hin as [Heq | Hin]; [now apply Hsame | now apply (Hrest _ Hin)].
  - destruct start as [lastUser|], (bub_timestamp h) as [t|] eqn:Ets;
      try (destruct Hin as [Heq | Hin]; [now apply Hsame | now apply (Hrest _ Hin)]).
    destruct (lastUser <? t)%Z;
      [| destruct Hin as [Heq | Hin]; [now apply Hsame | now apply (Hrest _ Hin)]].
    destruct Hin as [<- | Hin]; [| now apply (Hrest _ Hin)].
    exists h. split; [now left|]. cbn. rewrite Et, Ets.
    repeat split. intros Hu. discriminate Hu.
Qed.

Lemma assemble_bubbles (clock : nat -> Z) (composerData : ComposerData)
    (composerId : string) (bubbleMap : gmap string Bubble)
    (messageContexts : list RequestContext) (codeBlockDiffs : list CodeBlockDiff)
    (k : nat) (tab : ChatTab) :
  fst (assemble clock composerData composerId bubbleMap messageContexts codeBlockDiffs k)
  = Some tab ->
  tab_bubbles tab
  = responseTimes None
      (sortByTime
         (fst (buildBubbles clock messageContexts bubbleMap
                 (cd_fullConversationHeadersOnly composerData) k)
          ++ fst (diffBubbles clock codeBlockDiffs
                    (snd (buildBubbles clock messageContexts bubbleMap
                            (cd_fullConversationHeadersOnly composerData) k))))).
Proof.
  intros H.
  destruct (assemble clock composerData composerId bubbleMap messageContexts
              codeBlockDiffs k) as [t k'] eqn:Ea.
  cbn [fst] in H. subst t. now apply (assemble_some clock _ _ _ _ _ _ _ _ Ea).
Qed.

Lemma assembled_bubble_source (clock : nat -> Z) (composerData : ComposerData)
    (composerId : string) (bubbleMap : gmap string Bubble)
    (messageContexts : list RequestContext) (codeBlockDiffs : list CodeBlockDiff)
    (k : nat) (tab : ChatTab) (out : ChatBubble) :
  fst (assemble clock composerData composerId bubbleMap messageContexts codeBlockDiffs k)
  = Some tab ->
  In out (tab_bubbles tab) ->
  JS.truthy (bub_text out) = true
  /\ is_Some (bub_timestamp out)
  /\ (bub_type out = user -> bub_metadata out = None).
Proof.
  intros Htab Hin. rewrite (assemble_bubbles _ _ _ _ _ _ _ _ Htab) in Hin.
  apply responseTimes_from in Hin as (b & Hb & Hty & Htx & Hts & Hmeta).
  apply sortByTime_in, in_app_or in Hb.
  assert (Hshape : JS.truthy (bub_text b) = true /\ is_Some (bub_timestamp b)
                   /\ (bub_type b = user -> bub_metadata b = None)).
  { destruct Hb as [Hb | Hb];
      [now apply buildBubbles_shape in Hb | now apply diffBubbles_shape in Hb]. }
  destruct Hshape as (H1 & H2 & H3). rewrite Htx, Hts, Hty. repeat split; try assumption.
  intros Hu. rewrite (Hmeta Hu). now apply H3.
Qed.

(** X10: every message of an emitted conversation has text and a timestamp:
    the text shown for a kept fragment is never empty (its trimmed text,
    else the name of its tool call, else the start of its reasoning), and
    neither is the text of a code-edit bubble. *)
Theorem assembled_bubbles_have_text (clock : nat -> Z) (composerData : ComposerData)
    (composerId : string) (bubbleMap : gmap string Bubble)
    (messageContexts : list RequestContext) (codeBlockDiffs : list CodeBlockDiff)
    (k : nat) (tab : ChatTab) (out : ChatBubble) :
  fst (assemble clock composerData composerId bubbleMap messageContexts codeBlockDiffs k)
  = Some tab ->
  In out (tab_bubbles tab) ->
  bub_text out <> EmptyString /\ is_Some (bub_timestamp out).
Proof.
  intros Htab Hin.
  destruct (assembled_bubble_source _ _ _ _ _ _ _ _ _ Htab Hin) as (H1 & H2 & _).
  split; [now apply truthy_true | exact H2].
Qed.

(** X11: metadata belongs to assistant messages only: in an emitted
    conversation no user message carries metadata, hence no token count, no
    cost and no response time is ever attached to a user message. *)
Theorem assembled_user_bubbles_have_no_metadata (clock : nat -> Z)
    (composerData : ComposerData) (composerId : string) (bubbleMap : gmap string Bubble)
    (messageContexts : list RequestContext) (codeBlockDiffs : list CodeBlockDiff)
    (k : nat) (tab : ChatTab) (out : ChatBubble) :
  fst (assemble clock composerData composerId bubbleMap messageContexts codeBlockDiffs k)
  = Some tab ->
  In out (tab_bubbles tab) ->
  bub_type out = user ->
  bub_metadata out = None.
Proof.
  intros Htab Hin.
  now destruct (assembled_bubble_source _ _ _ _ _ _ _ _ _ Htab Hin) as (_ & _ & H3).
Qed.

Lemma assembled_bubbles_have_text_witness :
  let h1 := {| h_bubbleId := "b1"; h_type := 1 |} in
  let h2 := {| h_bubbleId := "b2"; h_type := 2 |} in
  let bubbleMap : gmap string Bubble :=
    {[ "b1" := textBubble "hello" (Some 1690000000000%Z);
       "b2" := textBubble "hi there" (Some 1690000004000%Z) ]} in
  exists tab out,
    fst (assemble (fun _ => 0%Z) (withHeaders bareComposer [h1; h2]) "c1" bubbleMap [] [] 0)
    = Some tab
    /\ In out (tab_bubbles tab)
    /\ bub_text out <> EmptyString /\ is_Some (bub_timestamp out).
Proof.
  intros h1 h2 bubbleMap.
  assert (Htab : exists tab,
             fst (assemble (fun _ => 0%Z) (withHeaders bareComposer [h1; h2]) "c1"
                    bubbleMap [] [] 0) = Some tab
             /\ exists out, In out (tab_bubbles tab)).
  { vm_compute. eexists. split; [reflexivity|]. eexists. left. reflexivity. }
  destruct Htab as (tab & Htab & out & Hout).
  exists tab, out. split; [exact Htab|]. split; [exact Hout|].
  exact (assembled_bubbles_have_text _ _ _ _ _ _ _ _ _ Htab Hout).
Defined.

Lemma assembled_user_bubbles_have_no_metadata_witness :
  let h1 := {| h_bubbleId := "b1"; h_type := 1 |} in
  let bubble := {| b_text := Some "which model are you?"; b_richText := None;
                   b_codeBlocks := []; b_toolFormerData := None; b_thinking := None;
                   b_thinkingDurationMs := None; b_createdAt := Some 1690000000000%Z;
                   b_timestamp := None; b_tokenCount := None;
                   b_modelName := Some "gpt-4"; b_cost := None; b_usageCost := None;
                   b_usageEstimatedCost := None; b_toolResults := None;
                   b_ctxPercentFloat := None; b_ctxPercent := None;
                   b_relevantFiles := []; b_attachedFileCodeChunksUris := [];
                   b_fileSelections := [] |} in
  let bubbleMap : gmap string Bubble := {[ "b1" := bubble ]} in
  exists tab out,
    fst (assemble (fun _ => 0%Z) (withHeaders bareComposer [h1]) "c1" bubbleMap [] [] 0)
    = Some tab
    /\ In out (tab_bubbles tab)
    /\ bub_type out = user
    /\ bub_metadata out = None.
Proof.
  intros h1 bubble bubbleMap.
  assert (Htab : exists tab,
             fst (assemble (fun _ => 0%Z) (withHeaders bareComposer [h1]) "c1"
                    bubbleMap [] [] 0) = Some tab
             /\ exists out, In out (tab_bubbles tab) /\ bub_type out = user).
  { vm_compute. eexists. split; [reflexivity|]. eexists. split; [left|]; reflexivity. }
  destruct Htab as (tab & Htab & out & Hout & Huser).
  exists tab, out. split; [exact Htab|]. split; [exact Hout|]. split; [exact Huser|].
  exact (assembled_user_bubbles_have_no_metadata _ _ _ _ _ _ _ _ _ Htab Hout Huser).
Defined.

Lemma responseTimes_core (start : option Z) (l : list ChatBubble) :
  map bubbleCore (responseTimes start l) = map bubbleCore l.
Proof.
  revert start. induction l as [|b l IH]; intros start; [reflexivity|].
  cbn [responseTimes]. destruct (bub_type b) eqn:Et.
  - cbn [map]. now rewrite IH.
  - destruct start as [lastUser|], (bub_timestamp b) as [t|] eqn:Ets;
      try (cbn [map]; now rewrite IH).
    destruct (lastUser <? t)%Z; cbn [map]; rewrite IH; [|reflexivity].
    f_equal.
Qed.

Lemma insertByTime_perm (x : ChatBubble) (l : list ChatBubble) :
  Permutation (insertByTime x l) (x :: l).
Proof.
  induction l as [|y l IH]; cbn [insertByTime]; [reflexivity|].
  destruct (sortKey x <=? sortKey y)%Z; [reflexivity|].
  rewrite IH. apply perm_swap.
Qed.

Lemma sortByTime_perm (l : list ChatBubble) : Permutation (sortByTime l) l.
Proof.
  induction l as [|x l IH]; [reflexivity|].
  cbn [sortByTime fold_right]. rewrite insertByTime_perm.
  apply perm_skip. exact IH.
Qed.

Lemma sorted_by_core (l l' : list ChatBubble) :
  map bubbleCore l = map bubbleCore l' ->
  Sorted (fun a b => (sortKey a <= sortKey b)%Z) l ->
  Sorted (fun a b => (sortKey a <= sortKey b)%Z) l'.
Proof.
  assert (Hkey : forall a b, bubbleCore a = bubbleCore b -> sortKey a = sortKey b).
  { intros a b H. unfold bubbleCore in H. injection H as _ _ H.
    unfold sortKey. now rewrite H. }
  revert l'. induction l as [|a l IH]; intros l' Hmap Hs.
  - destruct l'; [constructor | discriminate].
  - destruct l' as [|a' l']; [discriminate|]. cbn [map] in Hmap.
    assert (Ha : bubbleCore a = bubbleCore a') by congruence.
    assert (Hl : map bubbleCore l = map bubbleCore l') by congruence.
    clear Hmap. apply Sorted_inv in Hs as [Hs Hhd].
    constructor; [now apply IH|].
    destruct l as [|b l], l' as [|b' l']; try discriminate; constructor.
    assert (Hb : bubbleCore b = bubbleCore b') by (cbn [map] in Hl; congruence).
    apply HdRel_inv in Hhd. rewrite <- (Hkey a a' Ha), <- (Hkey b b' Hb). exact Hhd.
Qed.

(** X12: the messages of an emitted conversation are in ascending order of
    timestamp: a message never comes before one with an earlier timestamp. *)
Theorem assembled_bubbles_sorted (clock : nat -> Z) (composerData : ComposerData)
    (composerId : string) (bubbleMap : gmap string Bubble)
    (messageContexts : list RequestContext) (codeBlockDiffs : list CodeBlockDiff)
    (k : nat) (tab : ChatTab) :
  fst (assemble clock composerData composerId bubbleMap messageContexts codeBlockDiffs k)
  = Some tab ->
  StronglySorted (fun a b => (sortKey a <= sortKey b)%Z) (tab_bubbles tab).
Proof.
  intros Htab. rewrite (assemble_bubbles _ _ _ _ _ _ _ _ Htab).
  apply Sorted_StronglySorted.
  - intros a b c Hab Hbc. lia.
  - eapply sorted_by_core; [symmetry; apply responseTimes_core|].
    apply sortByTime_sorted.
Qed.

(** X13: ordering and timing lose nothing: the messages of an emitted
    conversation are, up to their order and metadata, exactly the bubbles
    built from the kept fragments followed by the rendered code-edit
    bubbles, each with its type, text and timestamp unchanged. *)
Theorem assembled_bubbles_are_the_built_ones (clock : nat -> Z)
    (composerData : ComposerData) (composerId : string) (bubbleMap : gmap string Bubble)
    (messageContexts : list RequestContext) (codeBlockDiffs : list CodeBlockDiff)
    (k : nat) (tab : ChatTab) :
  fst (assemble clock composerData composerId bubbleMap messageContexts codeBlockDiffs k)
  = Some tab ->
  Permutation
    (map bubbleCore (tab_bubbles tab))
    (map bubbleCore
       (fst (buildBubbles clock messageContexts bubbleMap
               (cd_fullConversationHeadersOnly composerData) k)
        ++ fst (diffBubbles clock codeBlockDiffs
                  (snd (buildBubbles clock messageContexts bubbleMap
                          (cd_fullConversationHeadersOnly composerData) k))))).
Proof.
  intros Htab. rewrite (assemble_bubbles _ _ _ _ _ _ _ _ Htab), responseTimes_core.
  apply Permutation_map, sortByTime_perm.
Qed.

(** ** Totals and title *)

Lemma modelsSet_spec (bubbles : list ChatBubble) :
  NoDup (modelsSet bubbles)
  /\ forall name, In name (modelsSet bubbles) <->
       name <> EmptyString
       /\ exists b, In b bubbles /\ bub_metadata b ≫= m_modelName = Some name.
Proof.
  unfold modelsSet. induction bubbles as [|b l IH] using rev_ind.
  - split; [constructor|]. intros name. split; [intros [] | intros (_ & x & [] & _)].
  - rewrite fold_left_app. cbn [fold_left].
    set (acc := fold_left _ l []) in *. destruct IH as [Hnd Hin].
    assert (Hold : forall name,
               (name <> EmptyString
                /\ exists x, In x l /\ bub_metadata x ≫= m_modelName = Some name)
               -> name <> EmptyString
                  /\ exists x, In x (l ++ [b]) /\ bub_metadata x ≫= m_modelName = Some name).
    { intros name (Hne & x & Hx & Hm). split; [exact Hne|].
      exists x. split; [apply in_or_app; now left | exact Hm]. }
    destruct (bub_metadata b ≫= m_modelName) as [name0|] eqn:Em.
    + destruct (JS.truthy name0) eqn:Et; cbn [andb];
        [destruct (bool_decide (name0 ∈ acc)) eqn:Ei; cbn [negb]|].
      * split; [exact Hnd|]. intros name. rewrite Hin. split; [apply Hold|].
        intros (Hne & x & Hx & Hm). apply in_app_or in Hx as [Hx | [<- | []]].
        -- split; [exact Hne | now exists x].
        -- rewrite Em in Hm. injection Hm as <-.
           apply bool_decide_eq_true, list_elem_of_In in Ei. now apply Hin.
      * apply bool_decide_eq_false in Ei. split.
        -- apply NoDup_app. repeat split; [exact Hnd | | apply NoDup_singleton].
           intros x Hx Hx'. apply list_elem_of_singleton in Hx'. subst x.
           now apply Ei.
        -- intros name. rewrite in_app_iff, Hin. split.
           ++ intros [H | [<- | []]]; [now apply Hold|].
              split; [now apply truthy_true|]. exists b.
              split; [apply in_or_app; right; now left | exact Em].
           ++ intros (Hne & x & Hx & Hm). apply in_app_or in Hx as [Hx | [<- | []]].
              ** left. split; [exact Hne | now exists x].
              ** rewrite Em in Hm. injection Hm as <-. right. now left.
      * split; [exact Hnd|]. intros name. rewrite Hin. split; [apply Hold|].
        intros (Hne & x & Hx & Hm). apply in_app_or in Hx as [Hx | [<- | []]].
        -- split; [exact Hne | now exists x].
        -- rewrite Em in Hm. injection Hm as <-. apply truthy_true in Hne. congruence.
    + split; [exact Hnd|]. intros name. rewrite Hin. split; [apply Hold|].
      intros (Hne & x & Hx & Hm). apply in_app_or in Hx as [Hx | [<- | []]].
      * split; [exact Hne | now exists x].
      * rewrite Em in Hm. discriminate.
Qed.

(** X14: the models listed for a conversation are exactly the non-empty
    model names carried by its messages, each listed once. *)
Theorem models_used_are_distinct (composerData : ComposerData)
    (bubbles : list ChatBubble) (meta : TabMeta) (models : list string) :
  tabMetadataOf composerData bubbles = Some meta ->
  modelsUsed meta = Some models ->
  NoDup models
  /\ models <> []
  /\ forall name, In name models <->
       name <> EmptyString
       /\ exists b, In b bubbles /\ bub_metadata b ≫= m_modelName = Some name.
Proof.
  unfold tabMetadataOf. cbv zeta.
  match goal with |- (if ?c then _ else _) = _ -> _ => destruct c end; [|discriminate].
  intros H. injection H as <-. cbn [modelsUsed].
  destruct (modelsSet bubbles) as [|m ms] eqn:Em; [discriminate|].
  intros H. injection H as <-. rewrite <- Em.
  destruct (modelsSet_spec bubbles) as [Hnd Hin].
  repeat split; try assumption; try (now apply Hin).
  rewrite Em. discriminate.
Qed.

Lemma assembled_bubbles_sorted_witness :
  let h1 := {| h_bubbleId := "b1"; h_type := 2 |} in
  let h2 := {| h_bubbleId := "b2"; h_type := 1 |} in
  let bubbleMap : gmap string Bubble :=
    {[ "b1" := textBubble "hi there" (Some 1690000004000%Z);
       "b2" := textBubble "hello" (Some 1690000000000%Z) ]} in
  exists tab,
    fst (assemble (fun _ => 0%Z) (withHeaders bareComposer [h1; h2]) "c1" bubbleMap [] [] 0)
    = Some tab
    /\ map bub_text (tab_bubbles tab) = ["hello"; "hi there"]
    /\ StronglySorted (fun a b => (sortKey a <= sortKey b)%Z) (tab_bubbles tab).
Proof.
  intros h1 h2 bubbleMap.
  assert (Htab : exists tab,
             fst (assemble (fun _ => 0%Z) (withHeaders bareComposer [h1; h2]) "c1"
                    bubbleMap [] [] 0) = Some tab
             /\ map bub_text (tab_bubbles tab) = ["hello"; "hi there"]).
  { vm_compute. eexists. split; reflexivity. }
  destruct Htab as (tab & Htab & Htexts).
  exists tab. split; [exact Htab|]. split; [exact Htexts|].
  exact (assembled_bubbles_sorted _ _ _ _ _ _ _ _ Htab).
Defined.

Lemma assembled_bubbles_are_the_built_ones_witness :
  let h1 := {| h_bubbleId := "b1"; h_type := 2 |} in
  let h2 := {| h_bubbleId := "b2"; h_type := 1 |} in
  let bubbleMap : gmap string Bubble :=
    {[ "b1" := textBubble "hi there" (Some 1690000004000%Z);
       "b2" := textBubble "hello" (Some 1690000000000%Z) ]} in
  let clock := fun _ : nat => 1690000002000%Z in
  let composerData := withHeaders bareComposer [h1; h2] in
  let codeBlockDiffs := [fileDiff "src/main.ts"] in
  exists tab,
    fst (assemble clock composerData "c1" bubbleMap [] codeBlockDiffs 0) = Some tab
    /\ Permutation
         (map bubbleCore (tab_bubbles tab))
         (map bubbleCore
            (fst (buildBubbles clock [] bubbleMap
                    (cd_fullConversationHeadersOnly composerData) 0)
             ++ fst (diffBubbles clock codeBlockDiffs
                       (snd (buildBubbles clock [] bubbleMap
                               (cd_fullConversationHeadersOnly composerData) 0))))).
Proof.
  intros h1 h2 bubbleMap clock composerData codeBlockDiffs.
  assert (Htab : exists tab,
             fst (assemble clock composerData "c1" bubbleMap [] codeBlockDiffs 0)
             = Some tab).
  { vm_compute. eexists. reflexivity. }
  destruct Htab as (tab & Htab).
  exists tab. split; [exact Htab|].
  exact (assembled_bubbles_are_the_built_ones _ _ _ _ _ _ _ _ Htab).
Defined.

Lemma models_used_are_distinct_witness :
  let answer model text :=
    {| bub_type := ai; bub_text := text; bub_timestamp := Some 1690000000000%Z;
       bub_metadata :=
         Some {| m_modelName := Some model; m_inputTokens := None;
                 m_outputTokens := None; m_cachedTokens := None;
                 m_toolResultsCount := None; m_toolResults := None;
                 m_toolCalls := None; m_thinking := None;
                 m_thinkingDurationMs := None; m_responseTimeMs := None;
                 m_cost := None; m_contextWindowPercent := None |} |} in
  let bubbles := [answer "gpt-4" "a1"; answer "claude" "a2"; answer "gpt-4" "a3"] in
  exists meta,
    tabMetadataOf bareComposer bubbles = Some meta
    /\ modelsUsed meta = Some ["gpt-4"; "claude"]
    /\ NoDup ["gpt-4"; "claude"]
    /\ ["gpt-4"; "claude"] <> []
    /\ forall name, In name ["gpt-4"; "claude"] <->
         name <> EmptyString
         /\ exists b, In b bubbles /\ bub_metadata b ≫= m_modelName = Some name.
Proof.
  intros answer bubbles.
  assert (Hmeta : exists meta,
             tabMetadataOf bareComposer bubbles = Some meta
             /\ modelsUsed meta = Some ["gpt-4"; "claude"]).
  { vm_compute. eexists. split; reflexivity. }
  destruct Hmeta as (meta & Hmeta & Hmodels).
  exists meta. split; [exact Hmeta|]. split; [exact Hmodels|].
  exact (models_used_are_distinct bareComposer bubbles meta _ Hmeta Hmodels).
Defined.

Lemma take_length (n : nat) (s : string) : String.length (JS.take n s) <= n.
Proof.
  unfold JS.take. revert s. induction n as [|n IH]; intros [|a s]; cbn; try lia.
  specialize (IH s). lia.
Qed.

Lemma trim_truthy (s : string) : 0 < String.length (JS.trim s) -> JS.truthy s = true.
Proof. destruct s; [cbn; lia | reflexivity]. Qed.

(** X15: a conversation always has a title: the stored name when there is
    one, else the first non-blank line of the first message cut at 100
    characters (with three dots when cut), else a name made from the id.
    The title is never empty, and without a stored name it is at most 103
    characters long. *)
Theorem title_is_never_empty (composerData : ComposerData) (composerId : string)
    (bubbles : list ChatBubble) :
  titleOf composerData composerId bubbles <> EmptyString
  /\ (forall name, cd_name composerData = Some name -> name <> EmptyString ->
        titleOf composerData composerId bubbles = name)
  /\ (JS.truthyO (cd_name composerData) = false ->
      String.length (titleOf composerData composerId bubbles) <= 103).
Proof.
  unfold titleOf. cbv zeta.
  set (fallback := "Conversation " +:+ JS.take 8 composerId).
  assert (Hfb : fallback <> EmptyString).
  { apply truthy_true. reflexivity. }
  assert (Hfl : String.length fallback <= 103).
  { unfold fallback. rewrite length_append.
    pose proof (take_length 8 composerId). cbn [String.length]. lia. }
  assert (Hline : forall first,
             match filter (fun line => 0 < String.length (JS.trim line))
                          (JS.split (ascii_of_nat 10) (bub_text first)) with
             | line :: _ =>
                 (if Nat.eqb (String.length (JS.take 100 line)) 100
                  then JS.take 100 line +:+ "..." else JS.take 100 line) <> EmptyString
                 /\ String.length
                      (if Nat.eqb (String.length (JS.take 100 line)) 100
                       then JS.take 100 line +:+ "..." else JS.take 100 line) <= 103
             | [] => True
             end).
  { intros first. destruct (filter _ _) as [|line rest] eqn:Ef; [exact I|].
    assert (Hin : line ∈ filter (fun line => 0 < String.length (JS.trim line))
                    (JS.split (ascii_of_nat 10) (bub_text first))).
    { rewrite Ef. left. }
    apply list_elem_of_filter in Hin as [Hpos _]. apply trim_truthy in Hpos.
    pose proof (truthy_take 99 line Hpos) as Ht.
    pose proof (take_length 100 line) as Hl.
    destruct (Nat.eqb _ 100).
    - split; [apply truthy_true; now apply truthy_append|].
      rewrite length_append. cbn [String.length]. lia.
    - split; [now apply truthy_true | lia]. }
  set (title := JS.or (JS.orO (cd_name composerData) EmptyString) fallback).
  assert (Hyes : forall name, cd_name composerData = Some name -> name <> EmptyString ->
                   JS.truthyO (cd_name composerData) = true /\ title = name).
  { intros name En Hne. apply truthy_true in Hne. unfold title. rewrite En.
    cbn [JS.truthyO JS.orO]. unfold JS.or. now rewrite !Hne. }
  assert (Hno : JS.truthyO (cd_name composerData) = false -> title = fallback).
  { unfold title. destruct (cd_name composerData) as [name|]; cbn [JS.truthyO JS.orO].
    - intros Et. unfold JS.or. now rewrite Et.
    - reflexivity. }
  clearbody title. destruct (JS.truthyO (cd_name composerData)) eqn:Et.
  - destruct (cd_name composerData) as [name|] eqn:En; [|discriminate].
    cbn [JS.truthyO] in Et. apply truthy_true in Et.
    destruct (Hyes name eq_refl Et) as [_ ->]. repeat split.
    + exact Et.
    + now intros ? [= <-] _.
    + discriminate.
  - rewrite (Hno eq_refl). repeat split.
    + destruct bubbles as [|first ?]; [exact Hfb|]. specialize (Hline first).
      destruct (filter _ _); [exact Hfb | apply Hline].
    + intros name En Hne. now destruct (Hyes name En Hne).
    + intros _. destruct bubbles as [|first ?]; [exact Hfl|]. specialize (Hline first).
      destruct (filter _ _); [exact Hfl | apply Hline].
Qed.

(** * The workspace list against the tabs *)

Lemma buildBubbles_stored_fragment (clock : nat -> Z)
    (messageContexts : list RequestContext) (bubbleMap : gmap string Bubble)
    (headers : list Header) (k : nat) :
  fst (buildBubbles clock messageContexts bubbleMap headers k) <> [] ->
  exists header, In header headers /\ is_Some (bubbleMap !! h_bubbleId header).
Proof.
  revert k. induction headers as [|h r IH]; intros k Hne; [now contradiction Hne|].
  cbn [buildBubbles] in Hne.
  destruct (bubbleMap !! h_bubbleId h) as [bubble|] eqn:Eb.
  - exists h. split; [now left | rewrite Eb; eauto].
  - destruct (IH k Hne) as (header & Hin & Hs). exists header. split; [now right | exact Hs].
Qed.

Lemma assemble_hasBubbles (clock : nat -> Z) (composerData : ComposerData)
    (composerId : string) (bubbleMap : gmap string Bubble)
    (messageContexts : list RequestContext) (codeBlockDiffs : list CodeBlockDiff)
    (k : nat) (tab : ChatTab) :
  fst (assemble clock composerData composerId bubbleMap messageContexts codeBlockDiffs k)
  = Some tab ->
  exists header,
    In header (cd_fullConversationHeadersOnly composerData)
    /\ is_Some (bubbleMap !! h_bubbleId header).
Proof.
  intros Htab.
  destruct (assemble clock composerData composerId bubbleMap messageContexts
              codeBlockDiffs k) as [t k'] eqn:Ea.
  cbn [fst] in Htab. subst t.
  destruct (assemble_some clock _ _ _ _ _ _ _ _ Ea) as [Hne _].
  exact (buildBubbles_stored_fragment _ _ _ _ _ Hne).
Qed.

(** X16: a conversation shown as a tab is one the workspace list counts:
    when the tabs route emits a tab for a conversation, one of the
    conversation's fragments is stored, which is the test the list route
    applies before it counts the conversation. *)
Theorem emitted_tab_has_stored_fragment (clock : nat -> Z) (composerData : ComposerData)
    (composerId : string) (bubbleMap : gmap string Bubble)
    (messageContexts : list RequestContext) (codeBlockDiffs : list CodeBlockDiff)
    (k : nat) (tab : ChatTab) :
  fst (assemble clock composerData composerId bubbleMap messageContexts codeBlockDiffs k)
  = Some tab ->
  WorkspaceList.hasBubbles composerData bubbleMap = true.
Proof.
  intros Htab.
  destruct (assemble_hasBubbles _ _ _ _ _ _ _ _ Htab) as (header & Hin & Hs).
  unfold WorkspaceList.hasBubbles. apply existsb_exists.
  exists header. split; [exact Hin | now apply bool_decide_eq_true].
Qed.

Lemma emitted_tab_has_stored_fragment_witness :
  let h1 := {| h_bubbleId := "b1"; h_type := 1 |} in
  let h2 := {| h_bubbleId := "b2"; h_type := 2 |} in
  let bubbleMap : gmap string Bubble :=
    {[ "b2" := textBubble "hi there" (Some 1690000004000%Z) ]} in
  exists tab,
    fst (assemble (fun _ => 0%Z) (withHeaders bareComposer [h1; h2]) "c1" bubbleMap [] [] 0)
    = Some tab
    /\ WorkspaceList.hasBubbles (withHeaders bareComposer [h1; h2]) bubbleMap = true.
Proof.
  intros h1 h2 bubbleMap.
  assert (Htab : exists tab,
             fst (assemble (fun _ => 0%Z) (withHeaders bareComposer [h1; h2]) "c1"
                    bubbleMap [] [] 0) = Some tab).
  { vm_compute. eexists. reflexivity. }
  destruct Htab as (tab & Htab).
  exists tab. split; [exact Htab|].
  exact (emitted_tab_has_stored_fragment _ _ _ _ _ _ _ _ Htab).
Defined.

Lemma countRow_count (win32 : bool) (store : Store) (direct : gmap string string)
    (id : string) (rows : list (string * option ComposerData)) :
  forall conversationMap : gmap string (list string),
    length (default [] (fold_left (WorkspaceList.countRow win32 store direct) rows
                          conversationMap !! id))
    = length (default [] (conversationMap !! id))
      + length (filter (fun row => countedUnder win32 store direct row = Some id) rows).
Proof.
  induction rows as [|row rest IH]; intros m; cbn [fold_left].
  - rewrite filter_nil. cbn [length]. lia.
  - rewrite IH, filter_cons. unfold WorkspaceList.countRow, countedUnder.
    destruct (snd row) as [composerData|].
    + cbv zeta. destruct (WorkspaceList.hasBubbles composerData (st_bubbleMap store)).
      * set (assigned := WorkspaceList.assignedProjectId _ _ _ _ _).
        destruct (decide (Some assigned = Some id)) as [[= ->]|Hne].
        -- rewrite lookup_insert_eq.
           change (default [] (Some (default [] (m !! id) ++ [fst row])))
             with (default [] (m !! id) ++ [fst row]).
           rewrite length_app. cbn [length]. lia.
        -- rewrite lookup_insert_ne by congruence. reflexivity.
      * destruct (decide (None = Some id)); [discriminate | reflexivity].
    + destruct (decide (None = Some id)); [discriminate | reflexivity].
Qed.

Lemma conversationCount_counts (win32 : bool) (store : Store)
    (direct : gmap string string) (rows : list (string * option ComposerData))
    (id : string) :
  WorkspaceList.conversationCount win32 store direct rows id
  = length (filter (fun row => countedUnder win32 store direct row = Some id) rows).
Proof.
  unfold WorkspaceList.conversationCount, WorkspaceList.conversationMap.
  rewrite countRow_count, lookup_empty. reflexivity.
Qed.

Lemma tabOfRow_counted (clock : nat -> Z) (win32 : bool) (store : Store)
    (direct : gmap string string) (id : string)
    (row : string * option ComposerData) (k : nat) (tab : ChatTab) :
  whenTruthy (direct !! fst row) = None ->
  fst (tabOfRow clock win32 store id row k) = Some tab ->
  countedUnder win32 store direct row = Some id.
Proof.
  intros Hdirect. unfold tabOfRow, countedUnder.
  destruct (snd row) as [composerData|]; [|discriminate]. cbv zeta.
  destruct (bool_decide _) eqn:Eid; [|discriminate].
  apply bool_decide_eq_true in Eid. intros Htab.
  assert (Hhas : WorkspaceList.hasBubbles composerData (st_bubbleMap store) = true).
  { destruct (assemble_hasBubbles _ _ _ _ _ _ _ _ Htab) as (header & Hin & Hs).
    apply existsb_exists. exists header.
    split; [exact Hin | now apply bool_decide_eq_true]. }
  rewrite Hhas. f_equal. unfold WorkspaceList.assignedProjectId,
    WorkspacesRoute.determineProjectForConversation.
  cbn [mbind option_bind]. rewrite Hdirect. exact Eid.
Qed.

Lemma filter_length_sublist {A : Type} (P : A -> Prop) `{!forall x, Decision (P x)}
    (l1 l2 : list A) :
  l1 `sublist_of` l2 -> length (filter P l1) <= length (filter P l2).
Proof.
  induction 1 as [|x l1 l2 _ IH|x l1 l2 _ IH]; [lia| |];
    rewrite ?filter_cons; destruct (decide (P x)); cbn [length]; lia.
Qed.

Lemma tabsOfRows_counted (clock : nat -> Z) (win32 : bool) (store : Store)
    (direct : gmap string string) (id : string)
    (rows : list (string * option ComposerData)) :
  (forall row, In row rows -> whenTruthy (direct !! fst row) = None) ->
  forall k,
    length (fst (tabsOfRows clock win32 store id rows k))
    <= length (filter (fun row => countedUnder win32 store direct row = Some id) rows).
Proof.
  induction rows as [|row rest IH]; intros Hdirect k; [cbn; lia|].
  cbn [tabsOfRows]. rewrite filter_cons.
  destruct (tabOfRow clock win32 store id row k) as [t k1] eqn:Et.
  assert (IH' := IH (fun r Hr => Hdirect r (or_intror Hr)) k1).
  destruct (tabsOfRows clock win32 store id rest k1) as [tabs k2]. cbn [fst] in *.
  destruct t as [tab|].
  - assert (Hc : countedUnder win32 store direct row = Some id).
    { apply (tabOfRow_counted clock win32 store direct id row k tab).
      - apply Hdirect. now left.
      - now rewrite Et. }
    destruct (decide _); [cbn [length]; lia | contradiction].
  - destruct (decide _); cbn [length]; lia.
Qed.

(** The conversation of the first row has a stored fragment with nothing to
    show: the list counts it, the tabs route shows no tab for it. *)
Example list_counts_blank_conversation :
  let store :=
    {| st_workspaceEntries := [ws "W1" "/home/u/proj1"];
       st_bubbleMap := {[ "b1" := bareBubble; "b2" := textBubble "hello" (Some 5%Z) ]};
       st_codeBlockDiffMap := ∅;
       st_messageRequestContextMap := ∅;
       st_projectLayoutsMap := {[ "c1" := ["/home/u/proj1"]; "c2" := ["/home/u/proj1"] ]};
       st_composerRows :=
         [("c1", Some (withHeaders bareComposer [{| h_bubbleId := "b1"; h_type := 2 |}]));
          ("c2", Some (withHeaders bareComposer [{| h_bubbleId := "b2"; h_type := 1 |}]))] |} in
  length (GET (fun _ => 9%Z) false store "W1") = 1
  /\ WorkspaceList.conversationCount false store ∅ (st_composerRows store) "W1" = 2.
Proof. vm_compute. split; reflexivity. Qed.

(** A workspace's own composer list moves the count, not the tab: the
    conversation is counted under W2 and shown under W1. *)
Example list_and_tabs_disagree_on_recorded_conversation :
  let store :=
    {| st_workspaceEntries := [ws "W1" "/home/u/proj1"; ws "W2" "/home/u/proj2"];
       st_bubbleMap := {[ "b2" := textBubble "hello" (Some 5%Z) ]};
       st_codeBlockDiffMap := ∅;
       st_messageRequestContextMap := ∅;
       st_projectLayoutsMap := {[ "c2" := ["/home/u/proj1"] ]};
       st_composerRows :=
         [("c2", Some (withHeaders bareComposer [{| h_bubbleId := "b2"; h_type := 1 |}]))] |} in
  let direct := WorkspacesRoute.composerIdToWorkspaceId [("W2", Some [Some "c2"])] in
  (length (GET (fun _ => 9%Z) false store "W1"),
   WorkspaceList.conversationCount false store direct (st_composerRows store) "W1",
   length (GET (fun _ => 9%Z) false store "W2"),
   WorkspaceList.conversationCount false store direct (st_composerRows store) "W2")
  = (1, 0, 0, 1).
Proof. vm_compute. reflexivity. Qed.

(** X17: the list never shows fewer conversations than the tabs: for a
    workspace id, the tabs route returns at most as many tabs as the list
    route counts conversations, when the list route reads at least the
    composer rows the tabs route reads and no workspace's own composer list
    records one of them. *)
Theorem tabs_at_most_counted (clock : nat -> Z) (win32 : bool) (store : Store)
    (composerIdToWorkspaceId : gmap string string)
    (composerRows : list (string * option ComposerData)) (id : string) :
  st_composerRows store `sublist_of` composerRows ->
  (forall row, In row (st_composerRows store) ->
     whenTruthy (composerIdToWorkspaceId !! fst row) = None) ->
  length (GET clock win32 store id)
  <= WorkspaceList.conversationCount win32 store composerIdToWorkspaceId composerRows id.
Proof.
  intros Hsub Hdirect. unfold GET. rewrite conversationCount_counts.
  etransitivity; [now apply (tabsOfRows_counted clock win32 store composerIdToWorkspaceId)|].
  now apply filter_length_sublist.
Qed.

Lemma tabs_at_most_counted_witness :
  let store :=
    {| st_workspaceEntries := [ws "W1" "/home/u/proj1"];
       st_bubbleMap := {[ "b1" := bareBubble; "b2" := textBubble "hello" (Some 5%Z) ]};
       st_codeBlockDiffMap := ∅;
       st_messageRequestContextMap := ∅;
       st_projectLayoutsMap := {[ "c1" := ["/home/u/proj1"]; "c2" := ["/home/u/proj1"] ]};
       st_composerRows :=
         [("c2", Some (withHeaders bareComposer [{| h_bubbleId := "b2"; h_type := 1 |}]))] |} in
  let composerRows :=
    [("c1", Some (withHeaders bareComposer [{| h_bubbleId := "b1"; h_type := 2 |}]));
     ("c2", Some (withHeaders bareComposer [{| h_bubbleId := "b2"; h_type := 1 |}]))] in
  length (GET (fun _ => 9%Z) false store "W1")
  <= WorkspaceList.conversationCount false store
       (WorkspacesRoute.composerIdToWorkspaceId [("W1", Some [Some "c9"])])
       composerRows "W1".
Proof.
  intros store composerRows.
  apply (tabs_at_most_counted (fun _ => 9%Z) false store
           (WorkspacesRoute.composerIdToWorkspaceId [("W1", Some [Some "c9"])])
           composerRows "W1").
  - apply sublist_cons, sublist_skip, sublist_nil.
  - intros row [<- | []]. vm_compute. reflexivity.
Defined.

(** * Row keys *)

Lemma spanNot_spec (c : ascii) (s : string) :
  s = fst (spanNot c s) +:+ snd (spanNot c s)
  /\ hasChar c (fst (spanNot c s)) = false
  /\ (snd (spanNot c s) = EmptyString
      \/ exists r, snd (spanNot c s) = String c r).
Proof.
  induction s as [|a s (IH1 & IH2 & IH3)]; cbn [spanNot].
  - repeat split. now left.
  - destruct (Ascii.eqb_spec a c) as [->|Hac]; cbn [fst snd].
    + repeat split. right. now exists s.
    + destruct (spanNot c s) as [h t]. cbn [fst snd] in *.
      rewrite append_cons. repeat split.
      * now f_equal.
      * cbn [hasChar]. rewrite IH2. apply Ascii.eqb_neq in Hac. now rewrite Hac.
      * exact IH3.
Qed.

Lemma split_span (c : ascii) (s : string) :
  JS.split c s
  = fst (spanNot c s)
    :: match snd (spanNot c s) with
       | EmptyString => []
       | String _ r => JS.split c r
       end.
Proof.
  induction s as [|a s IH]; [reflexivity|]. cbn [JS.split spanNot].
  destruct (Ascii.eqb a c); [reflexivity|].
  rewrite IH. now destruct (spanNot c s) as [h t].
Qed.

Lemma spanNot_append (c : ascii) (p r : string) :
  hasChar c p = false -> spanNot c (p +:+ String c r) = (p, String c r).
Proof.
  induction p as [|a p IH]; intros Hp.
  - rewrite append_nil. cbn [spanNot]. now rewrite Ascii.eqb_refl.
  - rewrite append_cons. cbn [spanNot]. cbn [hasChar] in Hp.
    apply orb_false_elim in Hp as [Hac Hp]. rewrite Hac, (IH Hp). reflexivity.
Qed.

(** The identifier the pattern of the tabs route finds is the second piece
    of the key, and the pattern finds one exactly when that piece is not
    empty and a third piece follows. *)
Lemma matchChatId_split (kind key chatId : string) :
  hasChar ":" kind = false ->
  String.prefix (kind +:+ ":") key = true ->
  matchChatId kind key = Some chatId
  <-> JS.split ":" key !! 1 = Some chatId
      /\ chatId <> EmptyString
      /\ 3 <= length (JS.split ":" key).
Proof.
  intros Hkind Hprefix. unfold matchChatId. rewrite Hprefix.
  apply prefix_spec in Hprefix as [r ->].
  rewrite drop_append.
  replace ((kind +:+ ":") +:+ r) with (kind +:+ String ":" r)
    by (now rewrite append_assoc, append_cons, append_nil).
  rewrite split_span, (spanNot_append ":" kind r Hkind). cbn [fst snd].
  rewrite (split_span ":" r).
  destruct (spanNot_spec ":" r) as (_ & _ & Hrest).
  destruct (spanNot ":" r) as [h t]. cbn [fst snd] in *.
  change ((kind :: h :: match t with
                        | EmptyString => []
                        | String _ r0 => JS.split ":" r0
                        end) !! 1) with (Some h).
  destruct Hrest as [-> | [r' ->]].
  - rewrite andb_false_r. split; [discriminate|]. intros (_ & _ & Hlen).
    cbn [length] in Hlen. lia.
  - assert (Hp : String.prefix ":" (String ":" r') = true)
      by (apply prefix_spec; now exists r').
    rewrite Hp, andb_true_r.
    pose proof (split_nonempty ":" r') as Hne.
    destruct (JS.truthy h) eqn:Et.
    + split.
      * intros [= <-]. split; [reflexivity|]. split; [now apply truthy_true|].
        destruct (JS.split ":" r'); [contradiction | cbn [length]; lia].
      * now intros ([= <-] & _).
    + split; [discriminate|]. intros ([= <-] & Hne' & _).
      apply truthy_true in Hne'. congruence.
Qed.

Lemma codeBlockDiff_rows_agree (rows : list (string * option CodeBlockDiff)) :
  (forall row, In row rows ->
     String.prefix "codeBlockDiff:" (fst row) = true
     /\ 3 <= length (JS.split ":" (fst row))) ->
  forall m : gmap string (list CodeBlockDiff),
    fold_left (fun m row =>
                 match whenTruthy (extractChatIdFromCodeBlockDiffKey (fst row)) with
                 | Some chatId =>
                     match snd row with
                     | Some codeBlockDiff =>
                         pushAt chatId
                           (withDiffId codeBlockDiff (JS.split ":" (fst row) !! 2)) m
                     | None => m
                     end
                 | None => m
                 end) rows m
    = fold_left (fun m row =>
                   match whenTruthy (JS.split ":" (fst row) !! 1) with
                   | Some cid =>
                       match snd row with
                       | Some d =>
                           pushAt cid (withDiffId d (JS.split ":" (fst row) !! 2)) m
                       | None => m
                       end
                   | None => m
                   end) rows m.
Proof.
  induction rows as [|row rest IH]; intros Hrows m; [reflexivity|].
  cbn [fold_left]. destruct (Hrows row (or_introl eq_refl)) as [Hprefix Hlen].
  assert (Hsame : whenTruthy (extractChatIdFromCodeBlockDiffKey (fst row))
                  = whenTruthy (JS.split ":" (fst row) !! 1)).
  { unfold extractChatIdFromCodeBlockDiffKey.
    destruct (matchChatId "codeBlockDiff" (fst row)) as [x|] eqn:Ex.
    - apply (matchChatId_split "codeBlockDiff" (fst row) x eq_refl Hprefix) in Ex
        as (-> & Hne & _). reflexivity.
    - destruct (JS.split ":" (fst row) !! 1) as [cid|] eqn:Ec; [|reflexivity].
      cbn [whenTruthy]. destruct (JS.truthy cid) eqn:Et; [|reflexivity].
      assert (H : matchChatId "codeBlockDiff" (fst row) = Some cid).
      { apply (matchChatId_split "codeBlockDiff" (fst row) cid eq_refl Hprefix).
        split; [exact Ec|]. split; [now apply truthy_true | exact Hlen]. }
      congruence. }
  rewrite Hsame. apply IH. intros r Hr. apply Hrows. now right.
Qed.

(** X18: the tabs route and the export script group the code-edit rows
    alike: over rows whose keys start with [codeBlockDiff:] and have a third
    piece, the two group the same diffs under the same conversation ids, in
    the same order and with the same diff ids. *)
Theorem codeBlockDiff_maps_agree (rows : list (string * option CodeBlockDiff)) :
  (forall row, In row rows ->
     String.prefix "codeBlockDiff:" (fst row) = true
     /\ 3 <= length (JS.split ":" (fst row))) ->
  codeBlockDiffMap rows = ExportScript.codeBlockDiffMap rows.
Proof.
  intros Hrows. unfold codeBlockDiffMap, ExportScript.codeBlockDiffMap.
  now apply codeBlockDiff_rows_agree.
Qed.

Lemma codeBlockDiff_maps_agree_witness :
  let rows := [("codeBlockDiff:c1:d1", Some (fileDiff "src/a.ts"));
               ("codeBlockDiff:c2:d2", None);
               ("codeBlockDiff::d3", Some (fileDiff "src/b.ts"));
               ("codeBlockDiff:c1:d4:x", Some (fileDiff "src/c.ts"))] in
  codeBlockDiffMap rows = ExportScript.codeBlockDiffMap rows.
Proof.
  intros rows. apply (codeBlockDiff_maps_agree rows).
  intros row [<- | [<- | [<- | [<- | []]]]]; vm_compute; (split; [reflexivity | lia]).
Defined.

(** A key without a third piece: the export script keeps the diff, the tabs
    route skips it. *)
Example codeBlockDiff_key_without_diff_id :
  let rows := [("codeBlockDiff:c1", Some (fileDiff "src/a.ts"))] in
  codeBlockDiffMap rows !! "c1" = None
  /\ option_map (@length _) (ExportScript.codeBlockDiffMap rows !! "c1") = Some 1.
Proof. vm_compute. split; reflexivity. Qed.

(** * File names *)

Lemma everyChar_weaken (p q : ascii -> bool) (s : string) :
  (forall a, p a = true -> q a = true) -> everyChar p s = true -> everyChar q s = true.
Proof.
  intros Hpq. induction s as [|a s IH]; [reflexivity|]. cbn [everyChar].
  intros H. apply andb_prop in H as [Ha Hs]. now rewrite (Hpq a Ha), (IH Hs).
Qed.

Lemma everyChar_and (p q : ascii -> bool) (s : string) :
  everyChar p s = true -> everyChar q s = true ->
  everyChar (fun a => p a && q a) s = true.
Proof.
  induction s as [|a s IH]; [reflexivity|]. cbn [everyChar].
  intros Hp Hq. apply andb_prop in Hp as [-> Hp]. apply andb_prop in Hq as [-> Hq].
  now rewrite (IH Hp Hq).
Qed.

Lemma replaceReserved_clean (s : string) :
  everyChar (fun a => negb (isReserved a)) (replaceReserved s) = true.
Proof.
  unfold replaceReserved. induction s as [|a s IH]; [reflexivity|].
  cbn [JS.mapChars everyChar]. fold (JS.mapChars (fun a => if isReserved a then "_"%char else a)).
  rewrite IH, andb_true_r. destruct (isReserved a) eqn:Ea; [reflexivity | now rewrite Ea].
Qed.

Lemma replaceRuns_keeps (q p : ascii -> bool) (r : ascii) (s : string) :
  q r = true -> everyChar q s = true ->
  forall inRun, everyChar q (replaceRuns p r inRun s) = true.
Proof.
  intros Hr. induction s as [|a s IH]; intros Hs inRun; [reflexivity|].
  cbn [everyChar] in Hs. apply andb_prop in Hs as [Ha Hs]. cbn [replaceRuns].
  destruct (p a); [destruct inRun|]; cbn [everyChar];
    rewrite ?Hr, ?Ha, ?(IH Hs); reflexivity.
Qed.

Lemma replaceRuns_clean (p : ascii -> bool) (r : ascii) (s : string) :
  p r = false ->
  forall inRun, everyChar (fun a => negb (p a)) (replaceRuns p r inRun s) = true.
Proof.
  intros Hr. induction s as [|a s IH]; intros inRun; [reflexivity|].
  cbn [replaceRuns]. destruct (p a) eqn:Ea; [destruct inRun|]; cbn [everyChar];
    rewrite ?Hr, ?Ea, ?IH; reflexivity.
Qed.

Lemma take_keeps (q : ascii -> bool) (n : nat) (s : string) :
  everyChar q s = true -> everyChar q (JS.take n s) = true.
Proof.
  unfold JS.take. revert s. induction n as [|n IH]; intros [|a s]; try reflexivity.
  cbn [everyChar String.substring]. intros H. apply andb_prop in H as [-> Hs].
  now rewrite (IH s Hs).
Qed.

Lemma dropLeading_keeps (q : ascii -> bool) (c : ascii) (s : string) :
  everyChar q s = true -> everyChar q (dropLeading c s) = true.
Proof.
  destruct s as [|a s]; [reflexivity|]. cbn [dropLeading everyChar].
  intros H. destruct (Ascii.eqb a c); [now apply andb_prop in H | exact H].
Qed.

Lemma dropTrailing_keeps (q : ascii -> bool) (c : ascii) (s : string) :
  everyChar q s = true -> everyChar q (dropTrailing c s) = true.
Proof.
  induction s as [|a s IH]; [reflexivity|]. cbn [dropTrailing everyChar].
  intros H. apply andb_prop in H as [Ha Hs].
  destruct (Ascii.eqb a c && String.eqb s EmptyString); [reflexivity|].
  cbn [everyChar]. now rewrite Ha, (IH Hs).
Qed.

Lemma spaced_weaken (c : ascii) (first : bool) (s : string) :
  spaced c first s = true -> spaced c false s = true.
Proof.
  destruct s as [|a s]; [reflexivity|]. cbn [spaced].
  destruct (Ascii.eqb a c); [|auto]. intros H. now apply andb_prop in H as [_ ->].
Qed.

Lemma replaceRuns_spaced (c : ascii) (s : string) :
  forall inRun, spaced c inRun (replaceRuns (Ascii.eqb c) c inRun s) = true.
Proof.
  induction s as [|a s IH]; intros inRun; [reflexivity|]. cbn [replaceRuns].
  destruct (Ascii.eqb c a) eqn:Eca.
  - destruct inRun; [apply IH|]. cbn [spaced]. rewrite Ascii.eqb_refl. apply IH.
  - cbn [spaced]. rewrite Ascii.eqb_sym, Eca. apply IH.
Qed.

Lemma dropLeading_spaced (c : ascii) (s : string) :
  spaced c false s = true -> spaced c true (dropLeading c s) = true.
Proof.
  destruct s as [|a s]; [reflexivity|]. cbn [dropLeading spaced].
  destruct (Ascii.eqb a c) eqn:Eac; [tauto|].
  intros H. cbn [spaced]. now rewrite Eac.
Qed.

Lemma dropTrailing_spaced (c : ascii) (s : string) :
  forall first, spaced c first s = true -> spaced c first (dropTrailing c s) = true.
Proof.
  induction s as [|a s IH]; intros first; [reflexivity|]. cbn [dropTrailing spaced].
  destruct (Ascii.eqb a c) eqn:Eac; cbn [andb].
  - destruct (String.eqb s EmptyString); [reflexivity|]. cbn [spaced]. rewrite Eac.
    intros H. apply andb_prop in H as [-> H]. now apply IH.
  - cbn [spaced]. rewrite Eac. apply IH.
Qed.

Lemma take_spaced (c : ascii) (n : nat) (s : string) :
  forall first, spaced c first s = true -> spaced c first (JS.take n s) = true.
Proof.
  unfold JS.take. revert s. induction n as [|n IH]; intros [|a s] first; try reflexivity.
  cbn [spaced String.substring]. destruct (Ascii.eqb a c).
  - intros H. apply andb_prop in H as [-> H]. now apply IH.
  - apply IH.
Qed.

Lemma spaced_no_double (c : ascii) (s : string) :
  forall first, spaced c first s = true ->
    JS.includes (String c (String c EmptyString)) s = false.
Proof.
  induction s as [|a s IH]; intros first H.
  - reflexivity.
  - cbn [JS.includes]. cbn [spaced] in H.
    assert (Hrest : JS.includes (String c (String c EmptyString)) s = false).
    { destruct (Ascii.eqb a c); [apply andb_prop in H as [_ H]|]; now apply (IH _ H). }
    rewrite Hrest, orb_false_r.
    destruct (String.prefix (String c (String c EmptyString)) (String a s)) eqn:Ep;
      [|reflexivity].
    apply prefix_spec in Ep as [t Ht]. rewrite !append_cons, append_nil in Ht.
    injection Ht as -> ->. rewrite Ascii.eqb_refl in H.
    apply andb_prop in H as [_ H]. cbn [spaced] in H. rewrite Ascii.eqb_refl in H.
    discriminate.
Qed.

Lemma spaced_no_leading (c : ascii) (s : string) :
  spaced c true s = true -> String.prefix (String c EmptyString) s = false.
Proof.
  intros H. destruct (String.prefix (String c EmptyString) s) eqn:Ep; [|reflexivity].
  apply prefix_spec in Ep as [t ->]. rewrite append_cons, append_nil in H.
  cbn [spaced] in H. rewrite Ascii.eqb_refl in H. discriminate.
Qed.

(** X19: the export script names folders and files safely: a slug is never
    empty, has at most 80 characters, holds no character reserved in file
    names and no (ASCII) white space, never has two dashes in a row and never
    starts with a dash. *)
Theorem slug_is_a_safe_name (s : string) :
  ExportScript.slug s <> EmptyString
  /\ String.length (ExportScript.slug s) <= 80
  /\ everyChar isSafeChar (ExportScript.slug s) = true
  /\ JS.includes "--" (ExportScript.slug s) = false
  /\ JS.startsWith "-" (ExportScript.slug s) = false.
Proof.
  unfold ExportScript.slug.
  set (spaces := replaceRuns JS.isSpace "-" false (replaceReserved s)).
  set (dashes := replaceRuns (Ascii.eqb "-") "-" false spaces).
  set (cut := JS.take 80 (dropTrailing "-" (dropLeading "-" dashes))).
  assert (Hsafe : everyChar isSafeChar cut = true).
  { unfold cut, isSafeChar. apply take_keeps, dropTrailing_keeps, dropLeading_keeps.
    unfold dashes. apply replaceRuns_keeps; [reflexivity|].
    unfold spaces. apply everyChar_and.
    - apply replaceRuns_keeps; [reflexivity | apply replaceReserved_clean].
    - now apply replaceRuns_clean. }
  assert (Hsp : spaced "-" true cut = true).
  { unfold cut. apply take_spaced, dropTrailing_spaced, dropLeading_spaced.
    unfold dashes. apply replaceRuns_spaced. }
  assert (Hlen : String.length cut <= 80) by apply take_length.
  unfold JS.or. destruct (JS.truthy cut) eqn:Et.
  - split; [now apply truthy_true|]. split; [exact Hlen|]. split; [exact Hsafe|].
    split; [now apply (spaced_no_double "-" cut true) | now apply spaced_no_leading].
  - repeat split; try reflexivity; try discriminate. cbn [String.length]. lia.
Qed.

(** X20: a download is named safely: the file name made from a title has at
    most 120 characters and holds no character reserved in file names and
    no (ASCII) white space. *)
Theorem sanitizeFilename_is_safe (name : string) :
  String.length (sanitizeFilename name) <= 120
  /\ everyChar isSafeChar (sanitizeFilename name) = true.
Proof.
  unfold sanitizeFilename. split; [apply take_length|].
  unfold isSafeChar. apply take_keeps, everyChar_and.
  - apply replaceRuns_keeps; [reflexivity | apply replaceReserved_clean].
  - now apply replaceRuns_clean.
Qed.

(** A title of reserved characters only gives a file name of underscores; an
    empty title gives an empty file name. *)
Example sanitizeFilename_samples :
  sanitizeFilename "what is a/b?" = "what_is_a_b_"
  /\ sanitizeFilename EmptyString = EmptyString
  /\ ExportScript.slug "what is a/b?" = "what-is-a_b_"
  /\ ExportScript.slug EmptyString = "untitled".
Proof. vm_compute. repeat split; reflexivity. Qed.

(** * The export request *)

(** X21: the options of an export request reach the script unchanged: the
    script reads back, from the arguments the route builds, the mode ([last]
    only when the request says so, else [all]), the requested output
    directory (or [./export]) whatever its characters are, and the composer
    switch. *)
Theorem export_request_round_trip (body : ExportRequest) :
  ExportScript.parseArgs (exportArgs body)
  = {| ExportScript.opt_since :=
         if bool_decide (body_since body = Some "last") then "last" else "all";
       ExportScript.opt_outDir := JS.orO (body_outDir body) "./export";
       ExportScript.opt_includeComposer := body_includeComposer body |}.
Proof.
  unfold ExportScript.parseArgs, exportArgs. cbv zeta.
  set (outDir := JS.orO (body_outDir body) "./export").
  assert (Hout : JS.truthy outDir = true).
  { unfold outDir, JS.orO, JS.or. destruct (body_outDir body) as [d|]; [|reflexivity].
    destruct (JS.truthy d) eqn:Ed; [exact Ed | reflexivity]. }
  clearbody outDir.
  destruct (bool_decide _), (body_includeComposer body);
    cbn [app ExportScript.parseArgsFrom String.eqb Ascii.eqb Bool.eqb andb JS.truthy negb
         ExportScript.opt_since ExportScript.opt_outDir ExportScript.opt_includeComposer];
    rewrite Hout; reflexivity.
Qed.

(** * The export script against the tabs *)



(** A reasoning trace stored as an object without text: the export script
    writes the fragment, the tabs route shows nothing for it. *)
Example export_keeps_textless_reasoning :
  let h := {| h_bubbleId := "b1"; h_type := 2 |} in
  let b := thinkingBubble (ThinkingObject None) (Some 5%Z) in
  fst (buildBubble (fun _ => 0%Z) [] h b 0) = None
  /\ option_map ExportScript.eb_text (fst (ExportScript.exportBubble (fun _ => 0%Z) h b 0))
     = Some EmptyString.
Proof. vm_compute. split; reflexivity. Qed.

(** * CSV downloads *)

Lemma csvLine_cons (cell : string) (row : list string) :
  csvLine (cell :: row)
  = String quote
      (escapeQuotes cell
       +:+ String quote
             match row with
             | [] => EmptyString
             | _ :: _ => String "," (csvLine row)
             end).
Proof.
  unfold csvLine, csvCell. cbn [map String.concat].
  destruct row as [|c row]; [reflexivity|].
  cbn [map]. rewrite append_cons, append_assoc, !append_cons, append_nil. reflexivity.
Qed.

(** Reading a written cell back: the doubled quotes stand for one, and the
    first single quote ends the cell. *)
Lemma escaped_cell_unique (x y t u : string) :
  String.prefix (String quote EmptyString) t = false ->
  String.prefix (String quote EmptyString) u = false ->
  escapeQuotes x +:+ String quote t = escapeQuotes y +:+ String quote u ->
  x = y /\ t = u.
Proof.
  intros Ht Hu. revert y.
  assert (Hstart : forall v, String.prefix (String quote EmptyString) v = false ->
                     forall r, v <> String quote r).
  { intros v Hv r ->. cbn in Hv. now destruct r. }
  induction x as [|a x IH]; intros [|b y]; cbn [escapeQuotes];
    rewrite ?append_nil.
  - intros [= <-]. now split.
  - destruct (Ascii.eqb_spec b quote) as [->|Hb]; rewrite !append_cons.
    + intros [= H]. now apply Hstart in H.
    + intros [= H _]. now contradiction Hb.
  - destruct (Ascii.eqb_spec a quote) as [->|Ha]; rewrite !append_cons.
    + intros [= H]. symmetry in H. now apply Hstart in H.
    + intros [= H _]. now contradiction Ha.
  - destruct (Ascii.eqb_spec a quote) as [->|Ha], (Ascii.eqb_spec b quote) as [->|Hb];
      rewrite !append_cons.
    + intros [= H]. destruct (IH y H) as [-> ->]. now split.
    + intros [= H _]. now contradiction Hb.
    + intros [= H _]. now contradiction Ha.
    + intros [= -> H]. destruct (IH y H) as [-> ->]. now split.
Qed.

(** X23: a CSV line tells its cells: two rows of cells that are written as
    the same line are the same row, whatever quotes and commas the cells
    hold. *)
Theorem csvLine_injective (row1 row2 : list string) :
  csvLine row1 = csvLine row2 -> row1 = row2.
Proof.
  revert row2. induction row1 as [|c1 r1 IH]; intros [|c2 r2].
  - reflexivity.
  - rewrite csvLine_cons. discriminate.
  - rewrite csvLine_cons. discriminate.
  - rewrite !csvLine_cons. intros [= H].
    apply escaped_cell_unique in H as [-> H].
    + f_equal. destruct r1 as [|a r1], r2 as [|b r2]; try discriminate; [reflexivity|].
      injection H as H. now apply IH.
    + now destruct r1.
    + now destruct r2.
Qed.

Lemma csvLine_injective_witness :
  ["say " +:+ String quote "hi" +:+ String quote EmptyString; "a,b"]
  = ["say " +:+ String quote "hi" +:+ String quote EmptyString; "a,b"].
Proof.
  apply (csvLine_injective
           ["say " +:+ String quote "hi" +:+ String quote EmptyString; "a,b"]
           ["say " +:+ String quote "hi" +:+ String quote EmptyString; "a,b"]).
  reflexivity.
Defined.

(** * The manifest of the export *)

Lemma mapSet_keys {V : Type} (k : string) (v : V) (m : list (string * V)) :
  map fst (ExportScript.mapSet k v m) = if bool_decide (k ∈ map fst m) then map fst m
                           else map fst m ++ [k].
Proof.
  induction m as [|[k' v'] rest IH]; [reflexivity|]. cbn [ExportScript.mapSet map fst].
  destruct (String.eqb_spec k' k) as [->|Hne].
  - cbn [map fst]. rewrite bool_decide_eq_true_2 by left. reflexivity.
  - cbn [map fst]. rewrite IH. destruct (bool_decide (k ∈ map fst rest)) eqn:Ek.
    + apply bool_decide_eq_true in Ek. rewrite bool_decide_eq_true_2 by now right.
      reflexivity.
    + apply bool_decide_eq_false in Ek. rewrite bool_decide_eq_false_2; [reflexivity|].
      intros Hin. apply elem_of_cons in Hin as [->|Hin]; [now apply Hne | now apply Ek].
Qed.

Lemma mapSet_NoDup {V : Type} (k : string) (v : V) (m : list (string * V)) :
  NoDup (map fst m) -> NoDup (map fst (ExportScript.mapSet k v m)).
Proof.
  intros Hnd. rewrite mapSet_keys. destruct (bool_decide _) eqn:Ek; [exact Hnd|].
  apply bool_decide_eq_false in Ek. apply NoDup_app. repeat split.
  - exact Hnd.
  - intros x Hx Hx'. apply list_elem_of_singleton in Hx'. now subst x.
  - apply NoDup_singleton.
Qed.

Lemma mapSet_sets {V : Type} (k : string) (v : V) (m : list (string * V)) :
  In (k, v) (ExportScript.mapSet k v m).
Proof.
  induction m as [|[k' v'] rest IH]; cbn [ExportScript.mapSet]; [now left|].
  destruct (String.eqb k' k); [now left | now right].
Qed.

Lemma mapSet_other {V : Type} (k : string) (v : V) (m : list (string * V))
    (k' : string) (v' : V) :
  k' <> k -> In (k', v') (ExportScript.mapSet k v m) <-> In (k', v') m.
Proof.
  intros Hne. induction m as [|[k0 v0] rest IH]; cbn [ExportScript.mapSet].
  - split; [intros [[= -> _] | []]; now contradiction Hne | intros []].
  - destruct (String.eqb_spec k0 k) as [->|Hk]; cbn [In].
    + split; (intros [[= H _] | H]; [symmetry in H; now contradiction Hne | now right]).
    + now rewrite IH.
Qed.

Lemma mapSet_from {V : Type} (k : string) (v : V) (m : list (string * V))
    (k' : string) (v' : V) :
  In (k', v') (ExportScript.mapSet k v m) -> (k', v') = (k, v) \/ In (k', v') m.
Proof.
  induction m as [|[k0 v0] rest IH]; cbn [ExportScript.mapSet].
  - intros [<- | []]. now left.
  - destruct (String.eqb k0 k); cbn [In].
    + intros [<- | H]; [now left | right; now right].
    + intros [<- | H]; [right; now left|].
      destruct (IH H) as [-> | H']; [now left | right; now right].
Qed.

Section MapFold.

Context {X V : Type} (step : X -> option (string * V)).

Lemma setAll_NoDup (l : list X) :
  forall m, NoDup (map fst m) -> NoDup (map fst (setAll step l m)).
Proof.
  unfold setAll. induction l as [|x l IH]; intros m Hm; [exact Hm|]. cbn [fold_left].
  apply IH. destruct (step x) as [[k v]|]; [now apply mapSet_NoDup | exact Hm].
Qed.

Lemma setAll_from (l : list X) (k : string) (v : V) :
  forall m, In (k, v) (setAll step l m) ->
    In (k, v) m \/ exists x, In x l /\ step x = Some (k, v).
Proof.
  unfold setAll. induction l as [|x l IH]; intros m Hin; [now left|].
  cbn [fold_left] in Hin. destruct (IH _ Hin) as [H | (y & Hy & Hs)].
  - destruct (step x) as [[k0 v0]|] eqn:Ex; [|now left].
    destruct (mapSet_from _ _ _ _ _ H) as [[= -> ->] | H']; [|now left].
    right. exists x. split; [now left | exact Ex].
  - right. exists y. split; [now right | exact Hs].
Qed.

Lemma setAll_keeps (l : list X) (k : string) (v : V) :
  (forall x v', In x l -> step x <> Some (k, v')) ->
  forall m, In (k, v) m -> In (k, v) (setAll step l m).
Proof.
  unfold setAll. induction l as [|x l IH]; intros Hl m Hin; [exact Hin|].
  cbn [fold_left]. apply IH; [intros y v' Hy; apply Hl; now right|].
  destruct (step x) as [[k0 v0]|] eqn:Ex; [|exact Hin].
  apply mapSet_other; [|exact Hin]. intros ->. now apply (Hl x v0 (or_introl eq_refl)).
Qed.

Lemma setAll_last (before after : list X) (x : X) (k : string) (v : V) :
  step x = Some (k, v) ->
  (forall y v', In y after -> step y <> Some (k, v')) ->
  forall m, In (k, v) (setAll step (before ++ x :: after) m).
Proof.
  intros Hx Hafter m. unfold setAll. rewrite fold_left_app. cbn [fold_left].
  rewrite Hx. apply (setAll_keeps after k v Hafter), mapSet_sets.
Qed.

End MapFold.

Lemma manifest_setAll (lines : list (option ExportScript.ManifestEntry))
    (exported : list ExportScript.Exported) :
  ExportScript.manifest lines exported
  = setAll (fun e => Some (ExportScript.ex_id e, ExportScript.manifestEntryOf e)) exported
      (setAll (fun line : option ExportScript.ManifestEntry =>
                 match line with
                 | Some entry =>
                     match whenTruthy (ExportScript.me_log_id entry) with
                     | Some log_id => Some (log_id, entry)
                     | None => None
                     end
                 | None => None
                 end)
              lines []).
Proof.
  unfold ExportScript.manifest, setAll. cbv zeta. f_equal.
  generalize (@nil (string * ExportScript.ManifestEntry)).
  induction lines as [|line lines IH]; intros m; [reflexivity|]. cbn [fold_left].
  rewrite <- IH. f_equal. destruct line as [entry|]; [|reflexivity].
  now destruct (whenTruthy _).
Qed.

Lemma whenTruthy_some_eq (o : option string) (s : string) :
  whenTruthy o = Some s -> o = Some s.
Proof.
  destruct o as [x|]; [|discriminate]. cbn [whenTruthy].
  destruct (JS.truthy x); [now intros [= ->] | discriminate].
Qed.

(** X24: the manifest has one line per conversation: no two of its entries
    have the same [log_id], every entry is filed under its own [log_id], a
    conversation exported in this run has the entry of its last export, and
    an entry read from the old manifest stays when no later line and no
    export of this run has its [log_id]. *)
Theorem manifest_one_entry_per_conversation
    (lines : list (option ExportScript.ManifestEntry))
    (exported : list ExportScript.Exported) :
  let m := ExportScript.manifest lines exported in
  NoDup (map fst m)
  /\ (forall log_id entry, In (log_id, entry) m ->
        ExportScript.me_log_id entry = Some log_id)
  /\ (forall before e after,
        exported = before ++ e :: after ->
        (forall later, In later after ->
           ExportScript.ex_id later <> ExportScript.ex_id e) ->
        In (ExportScript.ex_id e, ExportScript.manifestEntryOf e) m)
  /\ (forall before entry after log_id,
        lines = before ++ Some entry :: after ->
        ExportScript.me_log_id entry = Some log_id -> log_id <> EmptyString ->
        (forall later, In (Some later) after ->
           ExportScript.me_log_id later <> Some log_id) ->
        (forall e, In e exported -> ExportScript.ex_id e <> log_id) ->
        In (log_id, entry) m).
Proof.
  cbv zeta. rewrite manifest_setAll.
  set (readLine := fun line : option ExportScript.ManifestEntry => _).
  set (record := fun e : ExportScript.Exported => _).
  split; [|split; [|split]].
  - apply setAll_NoDup, setAll_NoDup. constructor.
  - intros log_id entry Hin.
    apply setAll_from in Hin as [Hin | (e & _ & [= <- <-])]; [|reflexivity].
    apply setAll_from in Hin as [[] | (line & _ & Hline)].
    unfold readLine in Hline. destruct line as [entry'|]; [|discriminate].
    destruct (whenTruthy _) as [id'|] eqn:Ew; [|discriminate].
    injection Hline as -> ->. now apply whenTruthy_some_eq.
  - intros before e after -> Hafter. apply (setAll_last record before after e).
    + reflexivity.
    + intros later v' Hlater [= H _]. now apply (Hafter later Hlater).
  - intros before entry after log_id -> Hid Hne Hafter Hexp.
    apply setAll_keeps.
    + intros e v' He [= H _]. now apply (Hexp e He).
    + apply (setAll_last readLine before after (Some entry)).
      * unfold readLine. rewrite Hid. cbn [whenTruthy].
        apply truthy_true in Hne. now rewrite Hne.
      * intros later v' Hlater Hstep. unfold readLine in Hstep.
        destruct later as [entry'|]; [|discriminate].
        destruct (whenTruthy _) as [id'|] eqn:Ew; [|discriminate].
        injection Hstep as -> ->. apply whenTruthy_some_eq in Ew.
        now apply (Hafter _ Hlater).
Qed.

(** The entry of an earlier export is replaced in place, the new
    conversation comes last. *)
Example manifest_sample :
  let old id path :=
    Some {| ExportScript.me_log_id := Some id; ExportScript.me_path := Some path;
            ExportScript.me_updated_at := None |} in
  map (fun kv => (fst kv, ExportScript.me_path (snd kv)))
      (ExportScript.manifest
         [old "c1" "2024/a.md"; None; old "c2" "2024/b.md"]
         [{| ExportScript.ex_id := "c3"; ExportScript.ex_path := "2025/c.md";
             ExportScript.ex_updatedAt := "2025-01-01T00:00:00.000Z" |};
          {| ExportScript.ex_id := "c1"; ExportScript.ex_path := "2025/a.md";
             ExportScript.ex_updatedAt := "2025-01-01T00:00:00.000Z" |}])
  = [("c1", Some "2025/a.md"); ("c2", Some "2024/b.md"); ("c3", Some "2025/c.md")].
Proof. vm_compute. reflexivity. Qed.

(** * Totals of a conversation *)

Lemma total_cons (field : BubbleMeta -> option Z) (b : ChatBubble)
    (l : list ChatBubble) :
  total field (b :: l) = (default 0 (bub_metadata b ≫= field) + total field l)%Z.
Proof.
  unfold total. cbn [fold_left]. generalize (default 0%Z (bub_metadata b ≫= field)).
  assert (H : forall acc,
             fold_left (fun acc b => (acc + default 0 (bub_metadata b ≫= field))%Z) l acc
             = (acc + fold_left (fun acc b => (acc + default 0 (bub_metadata b ≫= field))%Z)
                        l 0)%Z).
  { induction l as [|x l IH]; intros acc; cbn [fold_left]; [lia|].
    rewrite (IH (acc + _)%Z), (IH (0 + _)%Z). lia. }
  intros z. rewrite (H (0 + z)%Z). lia.
Qed.

Lemma total_bounds (field : BubbleMeta -> option Z) (l : list ChatBubble) :
  (forall b d, In b l -> bub_metadata b ≫= field = Some d -> (0 < d)%Z) ->
  (0 <= total field l)%Z
  /\ forall b d, In b l -> bub_metadata b ≫= field = Some d -> (d <= total field l)%Z.
Proof.
  induction l as [|x l IH]; intros Hpos.
  - split; [reflexivity | intros b d []].
  - destruct IH as [IH0 IH1]; [intros b d Hb; apply Hpos; now right|].
    rewrite total_cons.
    assert (Hx : (0 <= default 0 (bub_metadata x ≫= field))%Z).
    { destruct (bub_metadata x ≫= field) as [d|] eqn:Ed; [|reflexivity].
      specialize (Hpos x d (or_introl eq_refl) Ed). cbn. lia. }
    split; [lia|]. intros b d [<- | Hb] Hd.
    + rewrite Hd. cbn. lia.
    + specialize (IH1 b d Hb Hd). lia.
Qed.

Lemma assemble_metadata (clock : nat -> Z) (composerData : ComposerData)
    (composerId : string) (bubbleMap : gmap string Bubble)
    (messageContexts : list RequestContext) (codeBlockDiffs : list CodeBlockDiff)
    (k : nat) (tab : ChatTab) :
  fst (assemble clock composerData composerId bubbleMap messageContexts codeBlockDiffs k)
  = Some tab ->
  tab_metadata tab = tabMetadataOf composerData (tab_bubbles tab).
Proof.
  unfold assemble.
  destruct (buildBubbles clock messageContexts bubbleMap
              (cd_fullConversationHeadersOnly composerData) k) as [bubbles k1].
  destruct bubbles as [|b bs]; [discriminate|].
  destruct (diffBubbles clock codeBlockDiffs k1) as [diffs k2].
  cbn [fst]. intros [= <-]. reflexivity.
Qed.

(** X25: the total response time of a conversation is a real total: when
    the tab reports one, it is positive and no message of the tab has a
    response time above it. *)
Theorem total_response_time_bounds (clock : nat -> Z) (composerData : ComposerData)
    (composerId : string) (bubbleMap : gmap string Bubble)
    (messageContexts : list RequestContext) (codeBlockDiffs : list CodeBlockDiff)
    (k : nat) (tab : ChatTab) (t : Z) :
  fst (assemble clock composerData composerId bubbleMap messageContexts codeBlockDiffs k)
  = Some tab ->
  tab_metadata tab ≫= totalResponseTimeMs = Some t ->
  (0 < t)%Z
  /\ forall b d, In b (tab_bubbles tab) -> responseTimeOf b = Some d -> (d <= t)%Z.
Proof.
  intros Htab Ht. rewrite (assemble_metadata _ _ _ _ _ _ _ _ Htab) in Ht.
  destruct (total_bounds m_responseTimeMs (tab_bubbles tab)) as [H0 H1].
  { intros b d Hb Hd.
    now destruct (assembled_response_times_positive _ _ _ _ _ _ _ _ b d Htab Hb Hd). }
  unfold tabMetadataOf in Ht. cbv zeta in Ht.
  match type of Ht with (if ?c then _ else _) ≫= _ = _ => destruct c end;
    [|discriminate].
  cbn [mbind option_bind totalResponseTimeMs] in Ht. unfold nonZero in Ht.
  destruct (Z.eqb_spec (total m_responseTimeMs (tab_bubbles tab)) 0); [discriminate|].
  injection Ht as <-. split; [lia | exact H1].
Qed.

Lemma total_response_time_bounds_witness :
  let h1 := {| h_bubbleId := "b1"; h_type := 1 |} in
  let h2 := {| h_bubbleId := "b2"; h_type := 2 |} in
  let bubbleMap : gmap string Bubble :=
    {[ "b1" := textBubble "hello" (Some 1690000000000%Z);
       "b2" := textBubble "hi there" (Some 1690000004000%Z) ]} in
  exists tab,
    fst (assemble (fun _ => 0%Z) (withHeaders bareComposer [h1; h2]) "c1" bubbleMap [] [] 0)
    = Some tab
    /\ tab_metadata tab ≫= totalResponseTimeMs = Some 4000%Z
    /\ (0 < 4000)%Z
    /\ forall b d, In b (tab_bubbles tab) -> responseTimeOf b = Some d -> (d <= 4000)%Z.
Proof.
  intros h1 h2 bubbleMap.
  assert (Htab : exists tab,
             fst (assemble (fun _ => 0%Z) (withHeaders bareComposer [h1; h2]) "c1"
                    bubbleMap [] [] 0) = Some tab
             /\ tab_metadata tab ≫= totalResponseTimeMs = Some 4000%Z).
  { vm_compute. eexists. split; reflexivity. }
  destruct Htab as (tab & Htab & Ht).
  exists tab. split; [exact Htab|]. split; [exact Ht|].
  exact (total_response_time_bounds _ _ _ _ _ _ _ _ _ Htab Ht).
Defined.

(** * Lengths and stamps *)

Lemma lengthFrom_ascii (s : string) :
  isAscii s = true -> forall pending, JS.lengthFrom pending s = String.length s.
Proof.
  unfold isAscii. induction s as [|a s IH]; intros H pending; [reflexivity|].
  cbn [everyChar] in H. apply andb_prop in H as [Ha Hs]. apply N.ltb_lt in Ha.
  cbn [JS.lengthFrom String.length].
  assert (H1 : JS.inRange 192 223 (N_of_ascii a) = false)
    by (unfold JS.inRange; apply andb_false_iff; left; apply N.leb_gt; lia).
  assert (H2 : JS.inRange 224 239 (N_of_ascii a) = false)
    by (unfold JS.inRange; apply andb_false_iff; left; apply N.leb_gt; lia).
  assert (H3 : JS.inRange 240 247 (N_of_ascii a) = false)
    by (unfold JS.inRange; apply andb_false_iff; left; apply N.leb_gt; lia).
  assert (H4 : JS.isCont (N_of_ascii a) = false)
    by (unfold JS.isCont, JS.inRange; apply andb_false_iff; left; apply N.leb_gt; lia).
  rewrite H1, H2, H3, H4, (IH Hs 0). now destruct pending.
Qed.

(** On ASCII text the code units are the bytes. *)
Lemma length_ascii (s : string) : isAscii s = true -> JS.length s = String.length s.
Proof. intros H. now apply lengthFrom_ascii. Qed.

(** The heuristic ranks by code units: a basename of three ASCII letters
    wins over one of two characters that take three bytes each. *)
Example segment_heuristic_counts_code_units :
  let sun := String (ascii_of_nat 230) (String (ascii_of_nat 151)
               (String (ascii_of_nat 165) EmptyString)) in
  let entries := [ws "W1" ("/r/" +:+ sun +:+ sun); ws "W2" "/q/abc"] in
  JS.length (sun +:+ sun) = 2
  /\ segmentHeuristic false ["/home/u/" +:+ sun +:+ sun +:+ "/abc/x.ts"]
       (folderNameToWorkspaceId entries) = Some "W2".
Proof. vm_compute. split; reflexivity. Qed.

(** A stored time of zero is no time: the clock is read. *)
Example zero_stamp_reads_the_clock :
  let h1 := {| h_bubbleId := "b1"; h_type := 1 |} in
  let bubbleMap : gmap string Bubble := {[ "b1" := textBubble "hello" (Some 0%Z) ]} in
  option_map (fun tab => map bub_timestamp (tab_bubbles tab))
    (fst (assemble (fun _ => 1700000000000%Z) (withHeaders bareComposer [h1]) "c1"
            bubbleMap [] [] 0))
  = Some [Some 1700000000000%Z].
Proof. vm_compute. reflexivity. Qed.
